(** * asbplayer: the video content script and the subtitle window helper

    A shallow embedding of [extension/src/video.ts] (video discovery,
    command routing, side-panel key binding, page teardown) and of the
    subtitle helpers [surroundingSubtitles] / [atBoundary], with the
    properties the specification states about them. *)

From stdpp Require Import base option list gmap strings fin_maps.
From Stdlib Require Import ZArith Lia.

Open Scope Z_scope.
Open Scope nat_scope.

(** ** Outcomes of a JavaScript call

    A call returns a value, throws, or (in the model only) runs out of the
    fuel that bounds a loop. *)

Inductive Outcome (A : Type) : Type :=
| Returns (a : A)
| Throws
| OutOfFuel.

Arguments Returns {A} a.
Arguments Throws {A}.
Arguments OutOfFuel {A}.

Definition obind {A B : Type} (o : Outcome A) (k : A -> Outcome B) : Outcome B :=
  match o with
  | Returns a => k a
  | Throws => Throws
  | OutOfFuel => OutOfFuel
  end.

Notation "'do!' x <- o ; k" := (obind o (fun x => k))
  (at level 10, x name, o at level 100, k at level 200).

(** A promise as the script observes it; [Pending] never settles. *)
Inductive Settled (A : Type) : Type :=
| Fulfilled (a : A)
| Rejected (reason : string)
| Pending.

Arguments Fulfilled {A} a.
Arguments Rejected {A} reason.
Arguments Pending {A}.

(** What evaluating a call expression that should yield a promise gives:
    an exception thrown before there is a promise, or the promise. *)
Inductive Called (A : Type) : Type :=
| Threw (reason : string)
| Gave (promise : Settled A).

Arguments Threw {A} reason.
Arguments Gave {A} promise.

(** ** Subtitle window: [surroundingSubtitles] and [atBoundary] *)

Record Subtitle : Type := mkSubtitle {
  start : Z;
  text : string
}.

(** The value passed as a radius: an integer, or one of the numbers every
    comparison treats specially ([undefined] compares as [NaN]). *)
Inductive Radius : Type :=
| Finite (z : Z)
| NaN
| PosInfinity
| NegInfinity.

(** [x >= radius] for an integer [x]. *)
Definition atLeast (x : Z) (radius : Radius) : bool :=
  match radius with
  | Finite z => (z <=? x)%Z
  | NaN => false
  | PosInfinity => false
  | NegInfinity => true
  end.

(** [subtitles.slice(from, to)] for non-negative integer bounds. *)
Definition slice {A : Type} (l : list A) (from to : nat) : list A :=
  take (to - from) (drop from l).

(** [atBoundary(subtitles, index, initialIndex, countRadius, timeRadius, sign)].
    [next] is [None] for [null] and [Some None] for [undefined] (an index
    past the end); reading [.start] of [undefined] throws. *)
Definition atBoundary (subtitles : list Subtitle) (index initialIndex : nat)
    (countRadius timeRadius : Radius) (sign : bool) : Outcome bool :=
  let next : option (option Subtitle) :=
    if sign
    then (if (Z.of_nat index + 1 <? Z.of_nat (length subtitles))%Z
          then Some (subtitles !! (index + 1)) else None)
    else (if (0 <=? Z.of_nat index - 1)%Z
          then Some (subtitles !! (index - 1)) else None) in
  if atLeast (Z.abs (Z.of_nat initialIndex - Z.of_nat index)) countRadius
  then match next with
       | None => Returns true
       | Some None => Throws
       | Some (Some n) =>
           match subtitles !! initialIndex with
           | None => Throws
           | Some s0 => Returns (atLeast (Z.abs (start n - start s0)) timeRadius)
           end
       end
  else Returns false.

(** First loop: [for (let i = index; i >= 0; --i)]; the argument [i] is the
    loop variable, the result is the final [startIndex]. *)
Fixpoint scanStart (subtitles : list Subtitle) (index : nat)
    (countRadius timeRadius : Radius) (i : nat) : Outcome nat :=
  do! b <- atBoundary subtitles i index countRadius timeRadius false;
  if b : bool then Returns i
  else match i with
       | O => Returns i
       | S i' => scanStart subtitles index countRadius timeRadius i'
       end.

(** Second loop: [for (let i = index; i <= subtitles.length - 1; ++i)];
    [endIndex] is [None] while it is still [undefined]. *)
Fixpoint scanEnd (subtitles : list Subtitle) (index : nat)
    (countRadius timeRadius : Radius) (fuel i : nat) (endIndex : option nat)
    : Outcome (option nat) :=
  if (Z.of_nat i <=? Z.of_nat (length subtitles) - 1)%Z
  then match fuel with
       | O => OutOfFuel
       | S fuel' =>
           do! b <- atBoundary subtitles i index countRadius timeRadius true;
           if b : bool then Returns (Some i)
           else scanEnd subtitles index countRadius timeRadius fuel' (S i) (Some i)
       end
  else Returns endIndex.

(** [surroundingSubtitles(subtitles, index, countRadius, timeRadius)].
    An [undefined] [endIndex] makes [endIndex + 1] a NaN, which [slice]
    reads as [0]. *)
Definition surroundingSubtitles (subtitles : list Subtitle) (index : nat)
    (countRadius timeRadius : Radius) : Outcome (list Subtitle) :=
  do! startIndex <- scanStart subtitles index countRadius timeRadius index;
  do! endIndex <- scanEnd subtitles index countRadius timeRadius
                    (length subtitles) index None;
  Returns (slice subtitles startIndex
             (match endIndex with Some e => e + 1 | None => 0 end)).


(** ** The content script [video.ts]: data model *)

Section ContentScript.

(** JavaScript numbers of capture rectangles are kept abstract: only [+] is
    applied to them.  Frame identifiers are opaque keys. *)
Context {num : Type} (add : num -> num -> num).
Context {FrameId : Type} `{Countable FrameId}.

(** DOM node identity ([isSameNode]). *)
Definition NodeId : Type := nat.

(** A child element of a [<video>]: its [tagName] and its [src] property. *)
Record ChildElement : Type := mkChild {
  tagName : string;
  source_src : string
}.

(** A [<video>] element as one discovery pass reads it. *)
Record VideoElement : Type := mkVideo {
  node : NodeId;
  src : string;
  children : list ChildElement
}.

(** Truthiness of a JavaScript string: every string but the empty one. *)
Definition truthy (s : string) : bool := negb (String.eqb s "").

Fixpoint anySourceChild (elms : list ChildElement) : bool :=
  match elms with
  | [] => false
  | elm :: rest =>
      if String.eqb "SOURCE" (tagName elm) && truthy (source_src elm)
      then true
      else anySourceChild rest
  end.

(** [hasValidVideoSource(videoElement)]. *)
Definition hasValidVideoSource (videoElement : VideoElement) : bool :=
  if truthy (src videoElement) then true
  else anySourceChild (children videoElement).

(** Modelled from the spec: the [Binding] class ([services/binding]) is not
    part of the sources; an instance owns one video element, carries
    [subSyncAvailable] and an optional frame id, and offers [bind()] and
    [unbind()].  [bid] is the identity of the instance. *)
Record Binding : Type := mkBinding {
  bid : nat;
  video : NodeId;
  subSyncAvailable : bool;
  binding_frameId : option FrameId
}.

(** Modelled from the spec: [FrameInfoBroadcaster] ([services/frame-info]),
    not part of the sources: it generates a frame id, [bind()] starts the
    announcements and [unbind()] stops them. *)
Record FrameInfoBroadcaster : Type := mkBroadcaster {
  broadcaster_frameId : FrameId;
  broadcasting : bool
}.

(** An iframe element of the root document, by node identity. *)
Definition Iframe : Type := nat.

(** Modelled from the spec: [FrameInfoListener] ([services/frame-info]), not
    part of the sources: it holds the frame registry [iframesById], from
    frame id to the iframe element that announced it. *)
Record FrameInfoListener : Type := mkListener {
  iframesById : option (gmap FrameId Iframe);
  listener_bound : bool
}.

(** A rectangle object ([rect] of a message, or a [DOMRect]). *)
Record Rect : Type := mkRect {
  left : num;
  top : num;
  width : num;
  height : num
}.

(** Addresses of rectangle objects in the JavaScript heap. *)
Definition loc : Type := positive.

(** [request.message]: the command and the fields the handlers read. *)
Record Message : Type := mkMessage {
  command : string;
  dataUrl : string;
  maxWidth : num;
  maxHeight : num;
  rect : loc;
  frameId : option FrameId
}.

(** The envelope: [request.sender], [request.message], [request.src]. *)
Record Request : Type := mkRequest {
  request_sender : option string;
  message : Message;
  request_src : option string
}.

(** The [keyBindSet] setting, reduced to the side-panel shortcut. *)
Definition KeyBindSet : Type := string.

(** A key handler installed by [DefaultKeyBinder.bindToggleSidePanel]. *)
Definition Handle : Type := nat.

Record Blob : Type := mkBlob {
  blob_type : string;
  blob_data : string
}.

(** [new ClipboardItem({ [blob.type]: blob })]. *)
Definition ClipboardItem : Type := (string * Blob)%type.

(** Everything the content script does to the outside world. *)
Inductive Event : Type :=
| BindingBound (b : nat)
| BindingUnbound (b : nat)
| BroadcasterBind
| BroadcasterUnbind
| ListenerBind
| ListenerUnbind
| SelectControllerBind
| SelectControllerUnbind
| SetInterval
| ClearInterval
| AddMessageListener
| RemoveMessageListener
| GetSingleKeyBindSet
| KeyInstall (h : Handle) (keys : KeyBindSet)
| KeyRelease (h : Handle)
| FetchCall (url : string)
| ClipboardWrite (items : list ClipboardItem)
| ConsoleError (reason : string)
| CropAndResizeCall (maxW maxH : num) (rectArg : loc) (url : string)
| SendResponse (url : string)
| AnkiShow (m : Message)
| AnkiUpdateSettings
| UnhandledRejection (reason : string).

(** The page delegate of [currentPageDelegate()], reduced to its
    [shouldIgnore] predicate. *)
Record PageDelegate : Type := mkDelegate {
  shouldIgnore : VideoElement -> bool
}.

(** The state owned by one call of [bind()], with the module-level
    [unbindToggleSidePanel]; [log] lists the events in the order they
    happened. *)
Record Page : Type := mkPage {
  isParentDocument : bool;
  page : option PageDelegate;
  bindings : list Binding;
  nextBinding : nat;
  frameInfoListener : option FrameInfoListener;
  frameInfoBroadcaster : option FrameInfoBroadcaster;
  unbindToggleSidePanel : option Handle;
  nextHandle : Handle;
  pendingKeyBindSet : nat;
  videoInterval : bool;
  listening : bool;
  log : list Event
}.

Definition emit (es : list Event) (pg : Page) : Page :=
  mkPage (isParentDocument pg) (page pg) (bindings pg) (nextBinding pg)
    (frameInfoListener pg) (frameInfoBroadcaster pg)
    (unbindToggleSidePanel pg) (nextHandle pg) (pendingKeyBindSet pg)
    (videoInterval pg) (listening pg) (log pg ++ es).

Definition setBindings (bs : list Binding) (pg : Page) : Page :=
  mkPage (isParentDocument pg) (page pg) bs (nextBinding pg)
    (frameInfoListener pg) (frameInfoBroadcaster pg)
    (unbindToggleSidePanel pg) (nextHandle pg) (pendingKeyBindSet pg)
    (videoInterval pg) (listening pg) (log pg).

Definition setBroadcaster (bc : option FrameInfoBroadcaster) (pg : Page) : Page :=
  mkPage (isParentDocument pg) (page pg) (bindings pg) (nextBinding pg)
    (frameInfoListener pg) bc
    (unbindToggleSidePanel pg) (nextHandle pg) (pendingKeyBindSet pg)
    (videoInterval pg) (listening pg) (log pg).

Definition setListener (fl : option FrameInfoListener) (pg : Page) : Page :=
  mkPage (isParentDocument pg) (page pg) (bindings pg) (nextBinding pg)
    fl (frameInfoBroadcaster pg)
    (unbindToggleSidePanel pg) (nextHandle pg) (pendingKeyBindSet pg)
    (videoInterval pg) (listening pg) (log pg).

(** ** Video discovery: [bindToVideoElements] *)

(** [bindings.filter((b) => b.video.isSameNode(videoElement)).length > 0]. *)
Definition bindingExists (bs : list Binding) (videoElement : VideoElement) : bool :=
  0 <? length (filter (fun b => video b = node videoElement) bs).

(** [!page?.shouldIgnore(videoElement)]: with no delegate the optional call
    is [undefined], whose negation is [true]. *)
Definition notIgnored (p : option PageDelegate) (videoElement : VideoElement) : bool :=
  match p with
  | None => true
  | Some d => negb (shouldIgnore d videoElement)
  end.

(** [new Binding(videoElement, subSyncAvailable, frameInfoBroadcaster?.frameId)],
    [b.bind()], [bindings.push(b)]. *)
Definition pushBinding (videoElement : VideoElement) (pg : Page) : Page :=
  let b := mkBinding (nextBinding pg) (node videoElement)
             (match page pg with Some _ => true | None => false end)
             (broadcaster_frameId <$> frameInfoBroadcaster pg) in
  mkPage (isParentDocument pg) (page pg) (bindings pg ++ [b]) (S (nextBinding pg))
    (frameInfoListener pg) (frameInfoBroadcaster pg)
    (unbindToggleSidePanel pg) (nextHandle pg) (pendingKeyBindSet pg)
    (videoInterval pg) (listening pg) (log pg ++ [BindingBound (bid b)]).

(** The first loop, over the enumerated video elements. *)
Fixpoint bindNew (videoElements : list VideoElement) (pg : Page) : Page :=
  match videoElements with
  | [] => pg
  | videoElement :: rest =>
      bindNew rest
        (if negb (bindingExists (bindings pg) videoElement)
            && hasValidVideoSource videoElement
            && notIgnored (page pg) videoElement
         then pushBinding videoElement pg
         else pg)
  end.

(** The inner loop of the second loop: is [b.video] still enumerated, with
    a valid source? *)
Fixpoint videoElementExists (videoElements : list VideoElement) (b : Binding) : bool :=
  match videoElements with
  | [] => false
  | videoElement :: rest =>
      if bool_decide (node videoElement = video b) && hasValidVideoSource videoElement
      then true
      else videoElementExists rest b
  end.

(** The second loop, [for (let i = bindings.length - 1; i >= 0; --i)]:
    [n] is [i + 1]; a stale binding is spliced out, then unbound. *)
Fixpoint removeStale (videoElements : list VideoElement) (n : nat) (pg : Page) : Page :=
  match n with
  | O => pg
  | S i =>
      match bindings pg !! i with
      | None => removeStale videoElements i pg
      | Some b =>
          if videoElementExists videoElements b
          then removeStale videoElements i pg
          else removeStale videoElements i
                 (emit [BindingUnbound (bid b)] (setBindings (delete i (bindings pg)) pg))
      end
  end.

(** [frameInfoBroadcaster?.unbind()] / [frameInfoBroadcaster?.bind()]. *)
Definition updateBroadcaster (pg : Page) : Page :=
  match frameInfoBroadcaster pg with
  | None => pg
  | Some bc =>
      if length (bindings pg) =? 0
      then emit [BroadcasterUnbind]
             (setBroadcaster (Some (mkBroadcaster (broadcaster_frameId bc) false)) pg)
      else emit [BroadcasterBind]
             (setBroadcaster (Some (mkBroadcaster (broadcaster_frameId bc) true)) pg)
  end.

Definition bindToVideoElements (videoElements : list VideoElement) (pg : Page) : Page :=
  let pg1 := bindNew videoElements pg in
  let pg2 := removeStale videoElements (length (bindings pg1)) pg1 in
  updateBroadcaster pg2.

(** ** Side-panel key binding: [bindToggleSidePanel] *)

(** Modelled from the spec: [DefaultKeyBinder.bindToggleSidePanel]
    ([@project/common/key-binder]) is not part of the sources; it installs a
    handler and returns the function that releases it.  The handlers
    installed at a point of the page's life are read off the log. *)
Definition keyEffect (e : Event) (active : list Handle) : list Handle :=
  match e with
  | KeyInstall h _ => active ++ [h]
  | KeyRelease h => filter (fun h' => h' <> h) active
  | _ => active
  end.

Fixpoint replayKeys (es : list Event) (active : list Handle) : list Handle :=
  match es with
  | [] => active
  | e :: rest => replayKeys rest (keyEffect e active)
  end.

Definition activeKeyBindings (es : list Event) : list Handle := replayKeys es [].

(** [bindToggleSidePanel()]: asks for the setting; the rest runs in the
    [then] callback. *)
Definition bindToggleSidePanel (pg : Page) : Page :=
  mkPage (isParentDocument pg) (page pg) (bindings pg) (nextBinding pg)
    (frameInfoListener pg) (frameInfoBroadcaster pg)
    (unbindToggleSidePanel pg) (nextHandle pg) (S (pendingKeyBindSet pg))
    (videoInterval pg) (listening pg) (log pg ++ [GetSingleKeyBindSet]).

(** The [then] callback of one pending [getSingle('keyBindSet')]:
    [unbindToggleSidePanel?.()], then the new binding is installed and its
    release function stored. *)
Definition keyBindSetResolved (keyBindSet : KeyBindSet) (pg : Page) : Page :=
  match pendingKeyBindSet pg with
  | O => pg
  | S n =>
      let released :=
        match unbindToggleSidePanel pg with
        | Some h => [KeyRelease h]
        | None => []
        end in
      let h' := nextHandle pg in
      mkPage (isParentDocument pg) (page pg) (bindings pg) (nextBinding pg)
        (frameInfoListener pg) (frameInfoBroadcaster pg)
        (Some h') (S h') n
        (videoInterval pg) (listening pg)
        (log pg ++ released ++ [KeyInstall h' keyBindSet])
  end.

(** A pending [getSingle] that rejects: the callback never runs, and the
    promise [then] returned rejects with nobody to handle it.  The reason
    is not modelled; the event names the setting that was asked for. *)
Definition keyBindSetRejected (pg : Page) : Page :=
  match pendingKeyBindSet pg with
  | O => pg
  | S n =>
      mkPage (isParentDocument pg) (page pg) (bindings pg) (nextBinding pg)
        (frameInfoListener pg) (frameInfoBroadcaster pg)
        (unbindToggleSidePanel pg) (nextHandle pg) n
        (videoInterval pg) (listening pg)
        (log pg ++ [UnhandledRejection "keyBindSet"])
  end.

(** ** Command routing: [messageListener] *)

(** Promise chains: the events of the callbacks that ran, and how the last
    promise of the chain settled. *)
Definition Async (A : Type) : Type := (list Event * Settled A)%type.

Definition then_ {A B : Type} (p : Async A) (f : A -> Async B) : Async B :=
  match p with
  | (es, Fulfilled a) => let '(es', r) := f a in (es ++ es', r)
  | (es, Rejected reason) => (es, Rejected reason)
  | (es, Pending) => (es, Pending)
  end.

Definition catch_ {A : Type} (p : Async A) (h : string -> Async A) : Async A :=
  match p with
  | (es, Rejected reason) => let '(es', r) := h reason in (es ++ es', r)
  | _ => p
  end.

(** A chain whose last promise nobody keeps: a rejection of it is
    unhandled. *)
Definition floating {A : Type} (p : Async A) : list Event :=
  match p with
  | (es, Rejected reason) => es ++ [UnhandledRejection reason]
  | (es, _) => es
  end.

Record Response : Type := mkResponse {
  response_body : string
}.

(** The collaborators a handler calls: layout, network, clipboard and the
    image transformer, as they answer at the time of the call.
    [clipboard_write items] is the expression
    [navigator.clipboard.write(items)]: it throws when [navigator.clipboard]
    is undefined (a page outside a secure context) or when the
    [ClipboardItem] cannot be constructed, and gives the promise of the
    write otherwise. *)
Record Browser : Type := mkBrowser {
  getBoundingClientRect : Iframe -> Rect;
  fetch : string -> Settled Response;
  response_blob : Response -> Settled Blob;
  clipboard_write : list ClipboardItem -> Called unit;
  cropAndResize : num -> num -> option Rect -> string -> Settled string
}.

(** What the listener returns: [true] or [undefined]. *)
Inductive Ret : Type := RetTrue | RetUndefined.

(** [case 'copy-to-clipboard'].  The [catch] is attached to the promise
    of the write only: a callback that throws before that promise exists
    rejects the promise of the outer [then]. *)
Definition copyToClipboard (br : Browser) (m : Message) : Async unit :=
  then_
    (then_ ([FetchCall (dataUrl m)], fetch br (dataUrl m))
       (fun response => ([], response_blob br response)))
    (fun blob =>
       let items := [(blob_type blob, blob)] in
       match clipboard_write br items with
       | Threw reason => ([], Rejected reason)
       | Gave promise =>
           catch_ ([ClipboardWrite items], promise)
             (fun reason => ([ConsoleError reason], Fulfilled tt))
       end).

(** [frameInfoListener?.iframesById?.[frameId]]. *)
Definition lookupIframe (pg : Page) (fid : FrameId) : option Iframe :=
  match frameInfoListener pg with
  | None => None
  | Some fl =>
      match iframesById fl with
      | None => None
      | Some registry => registry !! fid
      end
  end.

(** The rectangle handed to the transformer: the message's own object, or
    a new object holding the translated rectangle. *)
Definition captureRect (br : Browser) (hp : gmap loc Rect) (pg : Page) (m : Message)
    : Outcome (loc * gmap loc Rect) :=
  match frameId m with
  | None => Returns (rect m, hp)
  | Some fid =>
      match lookupIframe pg fid with
      | None => Returns (rect m, hp)
      | Some iframe =>
          let iframeRect := getBoundingClientRect br iframe in
          match hp !! rect m with
          | None => Throws
          | Some r =>
              let l := fresh (dom hp) in
              Returns (l, <[l := mkRect (add (left r) (left iframeRect))
                                        (add (top r) (top iframeRect))
                                        (width r) (height r)]> hp)
          end
      end
  end.

(** [case 'crop-and-resize']. *)
Definition cropAndResizeHandler (br : Browser) (hp : gmap loc Rect) (pg : Page)
    (m : Message) : Outcome (Ret * Page * gmap loc Rect) :=
  do! st <- captureRect br hp pg m;
  let '(rectArg, hp') := st in
  let chain : Async unit :=
    then_ ([CropAndResizeCall (maxWidth m) (maxHeight m) rectArg (dataUrl m)],
           cropAndResize br (maxWidth m) (maxHeight m) (hp' !! rectArg) (dataUrl m))
      (fun url => ([SendResponse url], Fulfilled tt)) in
  Returns (RetTrue, emit (floating chain) pg, hp').

(** [messageListener(request, sender, sendResponse)], run on the heap [hp]
    that holds the rectangle objects of the request. *)
Definition messageListener (br : Browser) (hp : gmap loc Rect) (pg : Page)
    (request : Request) : Outcome (Ret * Page * gmap loc Rect) :=
  if negb (isParentDocument pg) then Returns (RetUndefined, pg, hp)
  else if negb (bool_decide (request_sender request = Some "asbplayer-extension-to-video"))
  then Returns (RetUndefined, pg, hp)
  else
    let m := message request in
    if String.eqb (command m) "copy-to-clipboard"
    then Returns (RetUndefined, emit (floating (copyToClipboard br m)) pg, hp)
    else if String.eqb (command m) "crop-and-resize"
    then cropAndResizeHandler br hp pg m
    else if String.eqb (command m) "show-anki-ui"
    then Returns (RetUndefined,
                  match request_src request with
                  | None => emit [AnkiShow m] pg
                  | Some _ => pg
                  end, hp)
    else if String.eqb (command m) "settings-updated"
    then Returns (RetUndefined, emit [AnkiUpdateSettings] (bindToggleSidePanel pg), hp)
    else Returns (RetUndefined, pg, hp).

(** [request] is typed [any]: besides an envelope, the listener may be
    handed [undefined] or [null], a primitive, or an object whose
    [message] is one of these. *)
Inductive AnyMessage : Type :=
| MessageNullish
| MessagePrimitive
| MessageObject (m : Message).

Inductive AnyRequest : Type :=
| RequestNullish
| RequestPrimitive
| RequestObject (sender : option string) (m : AnyMessage) (src : option string).

(** [messageListener] on any value: reading [.sender] of [undefined] or
    [null] throws, a primitive has no [sender]; reading [.command] of an
    absent [message] throws, a primitive [message] has no [command] and
    falls to [default]; an envelope is handled as above. *)
Definition messageListenerAny (br : Browser) (hp : gmap loc Rect) (pg : Page)
    (request : AnyRequest) : Outcome (Ret * Page * gmap loc Rect) :=
  if negb (isParentDocument pg) then Returns (RetUndefined, pg, hp)
  else
    match request with
    | RequestNullish => Throws
    | RequestPrimitive => Returns (RetUndefined, pg, hp)
    | RequestObject sender m src =>
        if negb (bool_decide (sender = Some "asbplayer-extension-to-video"))
        then Returns (RetUndefined, pg, hp)
        else
          match m with
          | MessageNullish => Throws
          | MessagePrimitive => Returns (RetUndefined, pg, hp)
          | MessageObject m => messageListener br hp pg (mkRequest sender m src)
          end
    end.

(** ** Page life cycle: [bind] and the [beforeunload] handler *)

Definition beforeunload (pg : Page) : Page :=
  let unbound := map (fun b => BindingUnbound (bid b)) (bindings pg) in
  let es :=
    unbound ++ [ClearInterval; SelectControllerUnbind]
    ++ (match frameInfoListener pg with Some _ => [ListenerUnbind] | None => [] end)
    ++ (match frameInfoBroadcaster pg with Some _ => [BroadcasterUnbind] | None => [] end)
    ++ (match unbindToggleSidePanel pg with Some h => [KeyRelease h] | None => [] end)
    ++ [RemoveMessageListener] in
  mkPage (isParentDocument pg) (page pg) [] (nextBinding pg)
    (match frameInfoListener pg with
     | Some fl => Some (mkListener (iframesById fl) false)
     | None => None
     end)
    (match frameInfoBroadcaster pg with
     | Some bc => Some (mkBroadcaster (broadcaster_frameId bc) false)
     | None => None
     end)
    (unbindToggleSidePanel pg) (nextHandle pg) (pendingKeyBindSet pg)
    false false (log pg ++ es).

(** [bind()]: [isParent] is [window.self === window.top], [delegate] is
    [currentPageDelegate()], [fid] the id a new broadcaster draws and
    [videoElements] the document at that time. *)
Definition bind (isParent : bool) (delegate : option PageDelegate) (fid : FrameId)
    (videoElements : list VideoElement) : Page :=
  let pg0 :=
    mkPage isParent delegate [] 0
      (if isParent then Some (mkListener (Some ∅) true) else None)
      (if isParent then None else Some (mkBroadcaster fid false))
      None 0 0 false false
      (if isParent then [ListenerBind] else []) in
  let pg1 := bindToVideoElements videoElements pg0 in
  let pg2 :=
    mkPage (isParentDocument pg1) (page pg1) (bindings pg1) (nextBinding pg1)
      (frameInfoListener pg1) (frameInfoBroadcaster pg1)
      (unbindToggleSidePanel pg1) (nextHandle pg1) (pendingKeyBindSet pg1)
      true (listening pg1) (log pg1 ++ [SetInterval; SelectControllerBind]) in
  let pg3 := if isParent then bindToggleSidePanel pg2 else pg2 in
  mkPage (isParentDocument pg3) (page pg3) (bindings pg3) (nextBinding pg3)
    (frameInfoListener pg3) (frameInfoBroadcaster pg3)
    (unbindToggleSidePanel pg3) (nextHandle pg3) (pendingKeyBindSet pg3)
    (videoInterval pg3) true (log pg3 ++ [AddMessageListener]).

(** Modelled from the spec: a child frame's announcement reaching the bound
    [FrameInfoListener] of the root adds [frameId -> iframe] to the frame
    registry (the listener class is not part of the sources). *)
Definition frameAnnounced (fid : FrameId) (iframe : Iframe) (pg : Page) : Page :=
  match frameInfoListener pg with
  | Some (mkListener (Some registry) true) =>
      setListener (Some (mkListener (Some (<[fid := iframe]> registry)) true)) pg
  | _ => pg
  end.

(** What can happen to a page after [bind()]. *)
Inductive Step : Type :=
| Tick (videoElements : list VideoElement)
| Deliver (br : Browser) (hp : gmap loc Rect) (request : Request)
| KeyBindSetSettled (answer : option KeyBindSet)
| FrameAnnounced (fid : FrameId) (iframe : Iframe)
| BeforeUnload.

(** The timer fires only until [clearInterval], the listener is called only
    until [removeListener]; a listener that throws leaves the page as it
    was.  A delivered value that is not an envelope makes the listener
    return or throw without touching the page ([messageListenerAny]), so
    runs have no step for it. *)
Definition step (pg : Page) (s : Step) : Page :=
  match s with
  | Tick videoElements =>
      if videoInterval pg then bindToVideoElements videoElements pg else pg
  | Deliver br hp request =>
      if listening pg
      then match messageListener br hp pg request with
           | Returns (_, pg', _) => pg'
           | _ => pg
           end
      else pg
  | KeyBindSetSettled (Some keyBindSet) => keyBindSetResolved keyBindSet pg
  | KeyBindSetSettled None => keyBindSetRejected pg
  | FrameAnnounced fid iframe => frameAnnounced fid iframe pg
  | BeforeUnload => beforeunload pg
  end.

Definition run (pg : Page) (steps : list Step) : Page := foldl step pg steps.

(** ** Observations on the log *)

Fixpoint countEvents (f : Event -> bool) (es : list Event) : nat :=
  match es with
  | [] => 0
  | e :: rest => (if f e then 1 else 0) + countEvents f rest
  end.

Definition isBound (b : nat) (e : Event) : bool :=
  match e with BindingBound b' => b =? b' | _ => false end.

Definition isUnbound (b : nat) (e : Event) : bool :=
  match e with BindingUnbound b' => b =? b' | _ => false end.

(** How often [bind()] and [unbind()] were called on the binding [b]. *)
Definition boundCalls (b : nat) (es : list Event) : nat := countEvents (isBound b) es.
Definition unbindCalls (b : nat) (es : list Event) : nat := countEvents (isUnbound b) es.

Definition bindingEvent (e : Event) : bool :=
  match e with
  | BindingBound _ | BindingUnbound _ => true
  | _ => false
  end.

Definition installEvent (e : Event) : bool :=
  match e with
  | KeyInstall _ _ => true
  | _ => false
  end.

Definition keyEvent (e : Event) : bool :=
  match e with
  | KeyInstall _ _ | KeyRelease _ => true
  | _ => false
  end.

(** The nodes that have a binding. *)
Definition tracked (pg : Page) : list NodeId := map video (bindings pg).

(** The claim "the tracked bindings are exactly the valid video elements of
    the document", as the specification words it. *)
Definition tracksExactlyValid (videoElements : list VideoElement) (pg : Page) : Prop :=
  NoDup (tracked pg)
  /\ forall n, n ∈ tracked pg <->
       exists v, v ∈ videoElements /\ node v = n /\ hasValidVideoSource v = true.

(** The page delegate excludes the element. *)
Definition excludedByPage (delegate : option PageDelegate) (v : VideoElement) : Prop :=
  exists d, delegate = Some d /\ shouldIgnore d v = true.

(** What a discovery pass establishes: no node has two bindings, every
    binding's element is enumerated and valid, and every enumerated valid
    element the page delegate does not exclude has a binding. *)
Definition tracksValidUnlessIgnored (delegate : option PageDelegate)
    (videoElements : list VideoElement) (pg : Page) : Prop :=
  NoDup (tracked pg)
  /\ (forall n, n ∈ tracked pg ->
        exists v, v ∈ videoElements /\ node v = n /\ hasValidVideoSource v = true)
  /\ (forall v, v ∈ videoElements -> hasValidVideoSource v = true ->
        ~ excludedByPage delegate v -> node v ∈ tracked pg).

(** Every binding made so far was bound once, and unbound once exactly when
    it is no longer in [bindings]. *)
Definition bindingsAccounted (pg : Page) : Prop :=
  NoDup (map bid (bindings pg))
  /\ (forall b, b ∈ bindings pg -> bid b < nextBinding pg)
  /\ (forall i, boundCalls i (log pg)
               = if bool_decide (i < nextBinding pg) then 1 else 0)
  /\ (forall i, unbindCalls i (log pg)
               = if bool_decide (i < nextBinding pg /\ i ∉ map bid (bindings pg))
                 then 1 else 0).

(** At no point of the log are two key handlers installed, a handler is
    installed only when none is, and an installed handler is the one the
    stored release function [release] stands for. *)
Definition disciplinedLog (es : list Event) (release : option Handle) : Prop :=
  (forall n, length (activeKeyBindings (take n es)) <= 1)
  /\ (forall n h keys,
        es !! n = Some (KeyInstall h keys) -> activeKeyBindings (take n es) = [])
  /\ (forall h, h ∈ activeKeyBindings es -> release = Some h).

Definition keysDisciplined (pg : Page) : Prop :=
  disciplinedLog (log pg) (unbindToggleSidePanel pg).

(** An event that touches neither a binding nor a key handler. *)
Definition quiet (e : Event) : Prop := bindingEvent e = false /\ keyEvent e = false.

(** The invariant of a page between two steps: one binding per node, the
    calls accounted for, the key handlers disciplined, a broadcaster in
    every child document, and no binding left once the timer is cleared. *)
Definition wellFormed (pg : Page) : Prop :=
  NoDup (tracked pg) /\ bindingsAccounted pg /\ keysDisciplined pg
  /\ (isParentDocument pg = false -> is_Some (frameInfoBroadcaster pg))
  /\ (videoInterval pg = false -> bindings pg = []).

(** The frame id [fid] is registered for the iframe element [iframe]. *)
Definition registered (pg : Page) (fid : FrameId) (iframe : Iframe) : Prop :=
  exists fl registry,
    frameInfoListener pg = Some fl
    /\ iframesById fl = Some registry
    /\ registry !! fid = Some iframe.

(** The claim "no rejection escapes the handler chain" of a
    copy-to-clipboard message. *)
Definition noRejectionEscapes (br : Browser) (m : Message) : Prop :=
  forall reason, UnhandledRejection reason ∉ floating (copyToClipboard br m).

End ContentScript.

(** * Properties *)

(** ** The subtitle window *)

Lemma slice_lookup {A : Type} (l : list A) (from to k : nat) :
  from + k < to -> slice l from to !! k = l !! (from + k).
Proof.
  intros Hk. unfold slice.
  rewrite lookup_take_lt by lia.
  by rewrite lookup_drop.
Qed.

Lemma slice_length {A : Type} (l : list A) (from to : nat) :
  from <= to -> to <= length l -> length (slice l from to) = to - from.
Proof.
  intros Hft Hto. unfold slice.
  rewrite length_take, length_drop. lia.
Qed.

Lemma atBoundary_returns subtitles index initialIndex countRadius timeRadius sign :
  initialIndex < length subtitles ->
  index < length subtitles ->
  exists b, atBoundary subtitles index initialIndex countRadius timeRadius sign = Returns b.
Proof.
  intros Hlt Hindex. unfold atBoundary.
  destruct (lookup_lt_is_Some_2 subtitles initialIndex Hlt) as [s0 Hs0].
  rewrite Hs0.
  destruct (atLeast _ countRadius); [|eauto].
  destruct sign.
  - destruct (Z.ltb_spec (Z.of_nat index + 1) (Z.of_nat (length subtitles))); [|eauto].
    destruct (lookup_lt_is_Some_2 subtitles (index + 1) ltac:(lia)) as [n ->]. eauto.
  - destruct (0 <=? _)%Z; [|eauto].
    destruct (lookup_lt_is_Some_2 subtitles (index - 1) ltac:(lia)) as [n ->]. eauto.
Qed.

Lemma scanStart_returns subtitles index countRadius timeRadius i :
  index < length subtitles ->
  i <= index ->
  exists startIndex,
    scanStart subtitles index countRadius timeRadius i = Returns startIndex
    /\ startIndex <= i.
Proof.
  intros Hlt. induction i as [|i IH]; intros Hi; simpl.
  - destruct (atBoundary_returns subtitles 0 index countRadius timeRadius false Hlt)
      as [b ->]; [lia|]. simpl. destruct b; eauto.
  - destruct (atBoundary_returns subtitles (S i) index countRadius timeRadius false Hlt)
      as [b ->]; [lia|]. simpl. destruct b; [eauto|].
    destruct IH as (s & Hs & Hle); [lia|]. exists s. split; [exact Hs | lia].
Qed.

Lemma scanEnd_returns subtitles index countRadius timeRadius fuel i :
  index < length subtitles ->
  i < length subtitles ->
  length subtitles - i <= fuel ->
  exists endIndex,
    scanEnd subtitles index countRadius timeRadius fuel i None = Returns (Some endIndex)
    /\ i <= endIndex /\ endIndex < length subtitles.
Proof.
  intros Hlt. revert i.
  assert (Hgen : forall fuel i prev,
    i < length subtitles -> length subtitles - i <= fuel ->
    exists endIndex,
      scanEnd subtitles index countRadius timeRadius fuel i prev = Returns (Some endIndex)
      /\ i <= endIndex /\ endIndex < length subtitles).
  { clear fuel. induction fuel as [|fuel IH]; intros i prev Hi Hfuel; [lia|].
    simpl.
    destruct (Z.leb_spec (Z.of_nat i) (Z.of_nat (length subtitles) - 1)); [|lia].
    destruct (atBoundary_returns subtitles i index countRadius timeRadius true Hlt Hi)
      as [b ->]. simpl.
    destruct b; [exists i; eauto with lia|].
    destruct (decide (S i < length subtitles)) as [Hnext|Hlast].
    - destruct (IH (S i) (Some i) Hnext ltac:(lia)) as (e & He & Hle & Hub).
      exists e. split; [exact He | lia].
    - exists i. split; [|lia].
      destruct fuel; simpl;
        destruct (Z.leb_spec (Z.of_nat (S i)) (Z.of_nat (length subtitles) - 1));
        try lia; reflexivity. }
  intros i. apply Hgen.
Qed.

(** The fuel given to the second loop always suffices. *)
Lemma scanEnd_fuel subtitles index countRadius timeRadius fuel i prev :
  length subtitles - i <= fuel ->
  scanEnd subtitles index countRadius timeRadius fuel i prev <> OutOfFuel.
Proof.
  revert i prev. induction fuel as [|fuel IH]; intros i prev Hfuel; simpl.
  - destruct (Z.leb_spec (Z.of_nat i) (Z.of_nat (length subtitles) - 1)); [lia|done].
  - destruct (Z.leb_spec (Z.of_nat i) (Z.of_nat (length subtitles) - 1)); [|done].
    unfold atBoundary.
    destruct (atLeast _ countRadius); simpl; [|apply IH; lia].
    destruct (if (_ <? _)%Z then _ else _) as [[n|]|]; simpl; [|done..].
    destruct (subtitles !! index) as [s0|]; simpl; [|done].
    destruct (atLeast _ timeRadius); [done|apply IH; lia].
Qed.

Lemma surroundingSubtitles_total subtitles index countRadius timeRadius :
  surroundingSubtitles subtitles index countRadius timeRadius <> OutOfFuel.
Proof.
  unfold surroundingSubtitles.
  assert (Hstart : forall i, scanStart subtitles index countRadius timeRadius i <> OutOfFuel).
  { induction i as [|i IH]; simpl;
      destruct (atBoundary _ _ _ _ _ _) as [[]| |] eqn:Hb; simpl; try done;
      unfold atBoundary in Hb;
      destruct (atLeast _ countRadius); try done;
      destruct (if (_ <=? _)%Z then _ else _) as [[n|]|]; try done;
      destruct (subtitles !! index); done. }
  destruct (scanStart _ _ _ _ _) as [s| |] eqn:Hs; simpl; [|done|by destruct (Hstart index)].
  pose proof (scanEnd_fuel subtitles index countRadius timeRadius
                (length subtitles) index None ltac:(lia)) as Hend.
  by destruct (scanEnd _ _ _ _ _ _ _).
Qed.

(** C10: for an index inside the array, [surroundingSubtitles] returns the
    contiguous slice [subtitles[startIndex .. endIndex]] with
    [startIndex <= index <= endIndex]; the slice is not empty and holds
    [subtitles[index]], whatever the two radii are. *)
Theorem surroundingSubtitles_window subtitles index countRadius timeRadius :
  index < length subtitles ->
  exists startIndex endIndex result,
    surroundingSubtitles subtitles index countRadius timeRadius = Returns result
    /\ result = slice subtitles startIndex (endIndex + 1)
    /\ startIndex <= index /\ index <= endIndex /\ endIndex < length subtitles
    /\ length result = endIndex - startIndex + 1
    /\ (forall k, k <= endIndex - startIndex ->
          result !! k = subtitles !! (startIndex + k))
    /\ result !! (index - startIndex) = subtitles !! index
    /\ result <> [].
Proof.
  intros Hlt. unfold surroundingSubtitles.
  destruct (scanStart_returns subtitles index countRadius timeRadius index Hlt
              ltac:(lia)) as (s & -> & Hs).
  destruct (scanEnd_returns subtitles index countRadius timeRadius
              (length subtitles) index Hlt Hlt ltac:(lia)) as (e & -> & He & Hub).
  simpl. exists s, e, (slice subtitles s (e + 1)).
  assert (Hlen : length (slice subtitles s (e + 1)) = e - s + 1)
    by (rewrite slice_length; lia).
  repeat split; try done; try lia.
  - intros k Hk. apply slice_lookup. lia.
  - rewrite slice_lookup by lia. f_equal. lia.
  - intros Hnil. rewrite Hnil in Hlen. simpl in Hlen. lia.
Qed.

Lemma surroundingSubtitles_window_witness :
  exists startIndex endIndex result,
    surroundingSubtitles
      [mkSubtitle 0 "a"; mkSubtitle 1000 "b"; mkSubtitle 2000 "c";
       mkSubtitle 9000 "d"] 1 (Finite 1) (Finite 1500) = Returns result
    /\ result = slice [mkSubtitle 0 "a"; mkSubtitle 1000 "b"; mkSubtitle 2000 "c";
                       mkSubtitle 9000 "d"] startIndex (endIndex + 1)
    /\ startIndex <= 1 /\ 1 <= endIndex /\ endIndex < 4
    /\ length result = endIndex - startIndex + 1
    /\ (forall k, k <= endIndex - startIndex ->
          result !! k =
          [mkSubtitle 0 "a"; mkSubtitle 1000 "b"; mkSubtitle 2000 "c";
           mkSubtitle 9000 "d"] !! (startIndex + k))
    /\ result !! (1 - startIndex) = Some (mkSubtitle 1000 "b")
    /\ result <> [].
Proof.
  apply (surroundingSubtitles_window
           [mkSubtitle 0 "a"; mkSubtitle 1000 "b"; mkSubtitle 2000 "c";
            mkSubtitle 9000 "d"] 1 (Finite 1) (Finite 1500)).
  simpl. lia.
Defined.

Example surroundingSubtitles_unbounded :
  surroundingSubtitles
    [mkSubtitle 0 "a"; mkSubtitle 1000 "b"; mkSubtitle 2000 "c"] 1 NaN (Finite 0)
  = Returns [mkSubtitle 0 "a"; mkSubtitle 1000 "b"; mkSubtitle 2000 "c"]
  /\ surroundingSubtitles
       [mkSubtitle 0 "a"; mkSubtitle 1000 "b"; mkSubtitle 2000 "c"] 1
       NegInfinity NegInfinity
     = Returns [mkSubtitle 1000 "b"]
  /\ surroundingSubtitles [mkSubtitle 0 "a"] 5 (Finite 0) (Finite 0) = Throws
  /\ surroundingSubtitles [mkSubtitle 0 "a"] 5 (Finite 9) (Finite 0) = Returns [].
Proof. by vm_compute. Qed.

Example surroundingSubtitles_demo :
  surroundingSubtitles
    [mkSubtitle 0 "a"; mkSubtitle 1000 "b"; mkSubtitle 2000 "c";
     mkSubtitle 9000 "d"] 1 (Finite 1) (Finite 1500)
  = Returns [mkSubtitle 0 "a"; mkSubtitle 1000 "b"; mkSubtitle 2000 "c"].
Proof. reflexivity. Qed.

(** ** The content script *)

Section ContentScriptProperties.

Context {num : Type} (add : num -> num -> num).
Context {FrameId : Type} `{Countable FrameId}.

Abbreviation Page := (@Page num FrameId _ _).
Abbreviation Event := (@Event num FrameId).
Abbreviation Binding := (@Binding FrameId).

(** *** Counting events *)

Lemma countEvents_app (f : Event -> bool) (es1 es2 : list Event) :
  countEvents f (es1 ++ es2) = countEvents f es1 + countEvents f es2.
Proof. induction es1 as [|e es1 IH]; simpl; [done|]. rewrite IH. lia. Qed.

Lemma countEvents_quiet (f : Event -> bool) (es : list Event) :
  Forall (fun e => f e = false) es -> countEvents f es = 0.
Proof. induction 1 as [|e es He _ IH]; simpl; [done|]. by rewrite He, IH. Qed.

Lemma isBound_quiet b (e : Event) : bindingEvent e = false -> isBound b e = false.
Proof. by destruct e. Qed.

Lemma isUnbound_quiet b (e : Event) : bindingEvent e = false -> isUnbound b e = false.
Proof. by destruct e. Qed.

Lemma boundCalls_quiet b (es es' : list Event) :
  Forall (fun e => bindingEvent e = false) es' ->
  boundCalls b (es ++ es') = boundCalls b es.
Proof.
  intros Hq. unfold boundCalls. rewrite countEvents_app, (countEvents_quiet _ es'); [lia|].
  eapply Forall_impl; [exact Hq|]. intros e. apply isBound_quiet.
Qed.

Lemma unbindCalls_quiet b (es es' : list Event) :
  Forall (fun e => bindingEvent e = false) es' ->
  unbindCalls b (es ++ es') = unbindCalls b es.
Proof.
  intros Hq. unfold unbindCalls. rewrite countEvents_app, (countEvents_quiet _ es'); [lia|].
  eapply Forall_impl; [exact Hq|]. intros e. apply isUnbound_quiet.
Qed.

Lemma unbindCalls_unbound_all b (bs : list Binding) :
  NoDup (map bid bs) ->
  unbindCalls b (map (fun x => BindingUnbound (bid x)) bs : list Event)
  = if bool_decide (b ∈ map bid bs) then 1 else 0.
Proof.
  unfold unbindCalls. induction bs as [|x bs IH]; cbn [map countEvents isUnbound]; intros Hnd.
  - by rewrite bool_decide_eq_false_2 by apply not_elem_of_nil.
  - apply NoDup_cons in Hnd as [Hx Hnd]. rewrite (IH Hnd).
    destruct (Nat.eqb_spec b (bid x)) as [->|Hne]; repeat case_bool_decide;
      try done; exfalso.
    all: repeat match goal with
             | Hin : _ ∈ _ :: _ |- _ => apply elem_of_cons in Hin as [?|?]
             | Hout : _ ∉ _ :: _ |- _ => apply not_elem_of_cons in Hout as [? ?]
             end; try done.
Qed.

(** *** The first loop *)

Lemma bindingExists_tracked (bs : list Binding) (v : VideoElement) :
  bindingExists bs v = true <-> node v ∈ map video bs.
Proof.
  unfold bindingExists. rewrite Nat.ltb_lt.
  induction bs as [|b bs IH]; simpl.
  - split; [lia|]. by intros ?%not_elem_of_nil.
  - rewrite filter_cons. destruct (decide (video b = node v)) as [Heq|Hne]; simpl.
    + split; [|lia]. intros _. rewrite Heq. apply list_elem_of_here.
    + rewrite IH. split; [by apply list_elem_of_further|].
      intros [?|?]%elem_of_cons; [congruence|done].
Qed.

Lemma bindNew_page videoElements (pg : Page) :
  page (bindNew videoElements pg) = page pg
  /\ isParentDocument (bindNew videoElements pg) = isParentDocument pg
  /\ frameInfoBroadcaster (bindNew videoElements pg) = frameInfoBroadcaster pg
  /\ frameInfoListener (bindNew videoElements pg) = frameInfoListener pg
  /\ unbindToggleSidePanel (bindNew videoElements pg) = unbindToggleSidePanel pg
  /\ nextHandle (bindNew videoElements pg) = nextHandle pg
  /\ pendingKeyBindSet (bindNew videoElements pg) = pendingKeyBindSet pg
  /\ videoInterval (bindNew videoElements pg) = videoInterval pg
  /\ listening (bindNew videoElements pg) = listening pg.
Proof.
  revert pg. induction videoElements as [|v rest IH]; intros pg; simpl; [done|].
  destruct (_ && _); [|apply IH].
  specialize (IH (pushBinding v pg)). simpl in IH. exact IH.
Qed.

Lemma bindNew_tracked videoElements (pg : Page) n :
  n ∈ tracked (bindNew videoElements pg) <->
  n ∈ tracked pg
  \/ exists v, v ∈ videoElements /\ node v = n
       /\ hasValidVideoSource v = true /\ notIgnored (page pg) v = true.
Proof.
  revert pg. induction videoElements as [|v rest IH]; intros pg; simpl.
  - split; [by left|]. intros [?|(v & []%not_elem_of_nil & _)]; done.
  - rewrite IH. clear IH.
    destruct (bindingExists (bindings pg) v) eqn:Hex; simpl.
    + apply bindingExists_tracked in Hex.
      split.
      * intros [?|(w & Hw & ?)]; [by left|]. right. exists w.
        split; [by apply list_elem_of_further|done].
      * intros [?|(w & [->|Hw]%elem_of_cons & Hn & ?)]; [by left| |].
        -- left. by rewrite <- Hn.
        -- right. by exists w.
    + destruct (hasValidVideoSource v) eqn:Hvalid; simpl.
      * destruct (notIgnored (page pg) v) eqn:Hign; simpl.
        -- unfold tracked at 1. simpl. rewrite map_app. simpl.
           rewrite elem_of_app, list_elem_of_singleton. fold (tracked pg).
           split.
           ++ intros [[? | ->] | (w & Hw & ?)]; [by left| |].
              ** right. exists v. split; [apply list_elem_of_here|done].
              ** right. exists w. split; [by apply list_elem_of_further|done].
           ++ intros [?|(w & [->|Hw]%elem_of_cons & Hn & ?)].
              ** by left; left.
              ** by left; right.
              ** right. by exists w.
        -- split.
           ++ intros [?|(w & Hw & ?)]; [by left|]. right. exists w.
              split; [by apply list_elem_of_further|done].
           ++ intros [?|(w & [->|Hw]%elem_of_cons & Hn & Hv & Hi)]; [by left| |].
              ** congruence.
              ** right. by exists w.
      * split.
        -- intros [?|(w & Hw & ?)]; [by left|]. right. exists w.
           split; [by apply list_elem_of_further|done].
        -- intros [?|(w & [->|Hw]%elem_of_cons & Hn & Hv & Hi)]; [by left| |].
           ++ congruence.
           ++ right. by exists w.
Qed.

Lemma bindNew_NoDup videoElements (pg : Page) :
  NoDup (tracked pg) -> NoDup (tracked (bindNew videoElements pg)).
Proof.
  revert pg. induction videoElements as [|v rest IH]; intros pg Hnd; simpl; [done|].
  apply IH.
  destruct (bindingExists (bindings pg) v) eqn:Hex; simpl; [done|].
  destruct (_ && _); [|done].
  unfold tracked. simpl. rewrite map_app. simpl.
  apply NoDup_app. split; [done|]. split; [|apply NoDup_singleton].
  intros n Hn ->%list_elem_of_singleton.
  apply bindingExists_tracked in Hn. congruence.
Qed.

(** *** The second loop *)

Lemma videoElementExists_spec videoElements (b : Binding) :
  videoElementExists videoElements b = true <->
  exists v, v ∈ videoElements /\ node v = video b /\ hasValidVideoSource v = true.
Proof.
  induction videoElements as [|v rest IH]; simpl.
  - split; [done|]. by intros (v & []%not_elem_of_nil & _).
  - destruct (bool_decide (node v = video b) && hasValidVideoSource v) eqn:Hv.
    + apply andb_true_iff in Hv as [Hn%bool_decide_eq_true Hs].
      split; [|done]. intros _. exists v. split; [apply list_elem_of_here|done].
    + rewrite IH. split.
      * intros (w & Hw & ?). exists w. split; [by apply list_elem_of_further|done].
      * intros (w & [->|Hw]%elem_of_cons & Hn & Hs); [|by exists w].
        rewrite Hs, bool_decide_eq_true_2 in Hv by done. done.
Qed.

Lemma removeStale_page videoElements n (pg : Page) :
  page (removeStale videoElements n pg) = page pg
  /\ isParentDocument (removeStale videoElements n pg) = isParentDocument pg
  /\ frameInfoBroadcaster (removeStale videoElements n pg) = frameInfoBroadcaster pg
  /\ frameInfoListener (removeStale videoElements n pg) = frameInfoListener pg
  /\ unbindToggleSidePanel (removeStale videoElements n pg) = unbindToggleSidePanel pg
  /\ nextHandle (removeStale videoElements n pg) = nextHandle pg
  /\ pendingKeyBindSet (removeStale videoElements n pg) = pendingKeyBindSet pg
  /\ videoInterval (removeStale videoElements n pg) = videoInterval pg
  /\ listening (removeStale videoElements n pg) = listening pg.
Proof.
  revert pg. induction n as [|i IH]; intros pg; simpl; [done|].
  destruct (bindings pg !! i) as [b|]; [|apply IH].
  destruct (videoElementExists videoElements b); [apply IH|].
  match goal with |- context [removeStale _ _ ?q] => specialize (IH q) end.
  simpl in IH. exact IH.
Qed.

(** The backward loop keeps exactly the bindings whose element is still
    enumerated with a valid source, in their order. *)
Lemma removeStale_bindings videoElements n (pg : Page) :
  n <= length (bindings pg) ->
  bindings (removeStale videoElements n pg)
  = filter (fun b => videoElementExists videoElements b = true) (take n (bindings pg))
    ++ drop n (bindings pg).
Proof.
  revert pg. induction n as [|i IH]; intros pg Hn; simpl.
  - by rewrite ?take_0, ?drop_0.
  - destruct (lookup_lt_is_Some_2 (bindings pg) i ltac:(lia)) as [b Hb].
    rewrite Hb. rewrite (take_S_r _ _ _ Hb), filter_app, filter_cons, filter_nil.
    case_decide as Hex; rewrite ?Hex.
    + rewrite IH by lia.
      rewrite (drop_S _ _ _ Hb). by rewrite <- app_assoc.
    + apply not_true_is_false in Hex. rewrite Hex.
      rewrite IH by (simpl; rewrite length_delete by eauto; lia).
      simpl. rewrite app_nil_r.
      rewrite delete_take_drop.
      rewrite take_app_length' by (rewrite length_take; lia).
      by rewrite drop_app_length' by (rewrite length_take; lia).
Qed.

Lemma bindToVideoElements_bindings videoElements (pg : Page) :
  bindings (bindToVideoElements videoElements pg)
  = filter (fun b => videoElementExists videoElements b = true)
      (bindings (bindNew videoElements pg)).
Proof.
  unfold bindToVideoElements. cbv zeta.
  assert (Hupd : forall q : Page, bindings (updateBroadcaster q) = bindings q).
  { intros q. unfold updateBroadcaster. destruct (frameInfoBroadcaster q); [|done].
    by destruct (_ =? _). }
  rewrite Hupd, removeStale_bindings by done.
  by rewrite firstn_all, drop_all, app_nil_r.
Qed.

(** *** Accounting of [bind()] and [unbind()] calls *)

Lemma accounted_push v (pg : Page) :
  bindingsAccounted pg -> bindingsAccounted (pushBinding v pg).
Proof.
  intros (Hnd & Hlt & Hb & Hu). unfold bindingsAccounted. simpl.
  assert (Hfresh : nextBinding pg ∉ map bid (bindings pg)).
  { intros (b & Hbid & Hin)%list_elem_of_fmap. apply Hlt in Hin. lia. }
  repeat split.
  - rewrite map_app. simpl. apply NoDup_app. split; [done|].
    split; [|apply NoDup_singleton].
    intros i Hi ->%list_elem_of_singleton. done.
  - intros b [Hin| ->%list_elem_of_singleton]%elem_of_app; simpl; [|lia].
    apply Hlt in Hin. lia.
  - intros i. unfold boundCalls in *. rewrite countEvents_app, Hb. simpl.
    destruct (Nat.eqb_spec i (nextBinding pg)); repeat case_bool_decide; lia.
  - intros i. unfold unbindCalls in *. rewrite countEvents_app, Hu. simpl.
    rewrite map_app. simpl.
    assert (Hiff : i < nextBinding pg /\ i ∉ map bid (bindings pg) <->
                   i < S (nextBinding pg)
                   /\ i ∉ map bid (bindings pg) ++ [nextBinding pg]).
    { rewrite not_elem_of_app, list_elem_of_singleton. split.
      - intros [? ?]. repeat split; [lia|done|lia].
      - intros (? & ? & ?). split; [lia|done]. }
    rewrite (bool_decide_ext _ _ Hiff). lia.
Qed.

Lemma accounted_quiet (pg pg' : Page) es :
  bindings pg' = bindings pg ->
  nextBinding pg' = nextBinding pg ->
  log pg' = log pg ++ es ->
  Forall (fun e => bindingEvent e = false) es ->
  bindingsAccounted pg -> bindingsAccounted pg'.
Proof.
  intros Hbs Hnext Hlog Hq (Hnd & Hlt & Hb & Hu). unfold bindingsAccounted.
  rewrite Hbs, Hnext, Hlog. repeat split; [done|done| |].
  - intros i. by rewrite boundCalls_quiet.
  - intros i. by rewrite unbindCalls_quiet.
Qed.

Lemma accounted_bindNew videoElements (pg : Page) :
  bindingsAccounted pg -> bindingsAccounted (bindNew videoElements pg).
Proof.
  revert pg. induction videoElements as [|v rest IH]; intros pg Hacc; simpl; [done|].
  apply IH. destruct (_ && _); [by apply accounted_push|done].
Qed.

Lemma accounted_remove i b (pg : Page) :
  bindings pg !! i = Some b ->
  bindingsAccounted pg ->
  bindingsAccounted (emit [BindingUnbound (bid b)] (setBindings (delete i (bindings pg)) pg)).
Proof.
  intros Hi (Hnd & Hlt & Hb & Hu). unfold bindingsAccounted. simpl.
  rewrite delete_take_drop.
  pose proof (take_drop_middle _ _ _ Hi) as Hmid.
  remember (take i (bindings pg)) as t eqn:Ht.
  remember (drop (S i) (bindings pg)) as d eqn:Hd. clear Ht Hd Hi.
  rewrite <- Hmid in Hnd, Hlt, Hu. clear Hmid.
  rewrite map_app in Hnd. simpl in Hnd.
  apply NoDup_app in Hnd as (Hndt & Hdisj & Hndd).
  apply NoDup_cons in Hndd as [Hbd Hndd].
  assert (Hbt : bid b ∉ map bid t).
  { intros Hin. apply (Hdisj _ Hin). apply list_elem_of_here. }
  repeat split.
  - rewrite map_app. apply NoDup_app. repeat split; [done| |done].
    intros x Hx Hx'. apply (Hdisj _ Hx). by apply list_elem_of_further.
  - intros x [Hx|Hx]%elem_of_app; apply Hlt; rewrite elem_of_app;
      [by left|right; by apply list_elem_of_further].
  - intros x. unfold boundCalls in *. rewrite countEvents_app, Hb. simpl. lia.
  - intros x. unfold unbindCalls in *. rewrite countEvents_app, Hu. simpl.
    rewrite !map_app. simpl.
    assert (Hbnext : bid b < nextBinding pg).
    { apply Hlt. rewrite elem_of_app. right. apply list_elem_of_here. }
    destruct (Nat.eqb_spec x (bid b)) as [->|Hne].
    + rewrite bool_decide_eq_false_2, bool_decide_eq_true_2; [done| |].
      * split; [done|]. rewrite not_elem_of_app. done.
      * intros [_ Hout]. apply Hout. rewrite elem_of_app. right.
        apply list_elem_of_here.
    + assert (Hiff : x < nextBinding pg /\ x ∉ map bid t ++ bid b :: map bid d <->
                     x < nextBinding pg /\ x ∉ map bid t ++ map bid d).
      { rewrite !not_elem_of_app, not_elem_of_cons. tauto. }
      rewrite (bool_decide_ext _ _ Hiff). lia.
Qed.

Lemma accounted_removeStale videoElements n (pg : Page) :
  bindingsAccounted pg -> bindingsAccounted (removeStale videoElements n pg).
Proof.
  revert pg. induction n as [|i IH]; intros pg Hacc; simpl; [done|].
  destruct (bindings pg !! i) as [b|] eqn:Hb; [|by apply IH].
  destruct (videoElementExists videoElements b); [by apply IH|].
  apply IH. by apply accounted_remove.
Qed.

Lemma updateBroadcaster_frame (pg : Page) :
  bindings (updateBroadcaster pg) = bindings pg
  /\ nextBinding (updateBroadcaster pg) = nextBinding pg
  /\ unbindToggleSidePanel (updateBroadcaster pg) = unbindToggleSidePanel pg
  /\ isParentDocument (updateBroadcaster pg) = isParentDocument pg
  /\ videoInterval (updateBroadcaster pg) = videoInterval pg
  /\ exists es, log (updateBroadcaster pg) = log pg ++ es
       /\ Forall (fun e => bindingEvent e = false /\ keyEvent e = false) es.
Proof.
  unfold updateBroadcaster. destruct (frameInfoBroadcaster pg) as [bc|].
  - destruct (_ =? _); simpl; repeat split; eexists; split; try done;
      by repeat constructor.
  - repeat split. exists []. by rewrite app_nil_r.
Qed.

Lemma accounted_tick videoElements (pg : Page) :
  bindingsAccounted pg -> bindingsAccounted (bindToVideoElements videoElements pg).
Proof.
  intros Hacc. unfold bindToVideoElements. cbv zeta.
  match goal with |- bindingsAccounted (updateBroadcaster ?q) =>
    destruct (updateBroadcaster_frame q) as (Hbs & Hnext & _ & _ & _ & es & Hlog & Hq);
    apply (accounted_quiet q _ es Hbs Hnext Hlog)
  end.
  - eapply Forall_impl; [exact Hq|]. by intros e [? _].
  - by apply accounted_removeStale, accounted_bindNew.
Qed.

Lemma accounted_beforeunload (pg : Page) :
  bindingsAccounted pg -> bindingsAccounted (beforeunload pg).
Proof.
  intros (Hnd & Hlt & Hb & Hu). unfold bindingsAccounted, beforeunload. simpl.
  repeat split.
  - constructor.
  - by intros b ?%not_elem_of_nil.
  - intros i. unfold boundCalls in *. rewrite !countEvents_app, Hb.
    rewrite (countEvents_quiet (isBound i) (map _ _)).
    2:{ apply Forall_forall. by intros e (b & -> & _)%list_elem_of_fmap. }
    simpl. destruct (frameInfoListener pg), (frameInfoBroadcaster pg),
      (unbindToggleSidePanel pg); simpl; lia.
  - intros i. unfold unbindCalls in *. rewrite !countEvents_app, Hu.
    pose proof (unbindCalls_unbound_all i (bindings pg) Hnd) as Hall.
    unfold unbindCalls in Hall. rewrite Hall. clear Hall.
    pose proof (not_elem_of_nil (A:=nat) i) as Hnil.
    assert (Hin_lt : i ∈ map bid (bindings pg) -> i < nextBinding pg).
    { intros (b & -> & Hin)%list_elem_of_fmap. by apply Hlt. }
    destruct (frameInfoListener pg), (frameInfoBroadcaster pg),
      (unbindToggleSidePanel pg); simpl;
      repeat case_bool_decide; try lia; exfalso; tauto.
Qed.

(** *** What each operation leaves alone *)

Lemma bindNew_log videoElements (pg : Page) :
  nextHandle (bindNew videoElements pg) = nextHandle pg
  /\ exists es, log (bindNew videoElements pg) = log pg ++ es
       /\ Forall (fun e => keyEvent e = false) es.
Proof.
  revert pg. induction videoElements as [|v rest IH]; intros pg; simpl.
  - split; [done|]. exists []. by rewrite app_nil_r.
  - destruct (_ && _); [|apply IH].
    destruct (IH (pushBinding v pg)) as (Hh & es & Hlog & Hq). simpl in *.
    split; [done|]. eexists. rewrite Hlog, <- app_assoc. split; [done|].
    by constructor.
Qed.

Lemma removeStale_log videoElements n (pg : Page) :
  nextBinding (removeStale videoElements n pg) = nextBinding pg
  /\ exists es, log (removeStale videoElements n pg) = log pg ++ es
       /\ Forall (fun e => keyEvent e = false) es.
Proof.
  revert pg. induction n as [|i IH]; intros pg; simpl.
  - split; [done|]. exists []. by rewrite app_nil_r.
  - destruct (bindings pg !! i) as [b|]; [|apply IH].
    destruct (videoElementExists videoElements b); [apply IH|].
    match goal with |- context [removeStale _ _ ?q] =>
      destruct (IH q) as (Hn & es & Hlog & Hq) end.
    simpl in *. split; [done|]. eexists. rewrite Hlog, <- app_assoc.
    split; [done|]. by constructor.
Qed.

Lemma tick_keys videoElements (pg : Page) :
  unbindToggleSidePanel (bindToVideoElements videoElements pg) = unbindToggleSidePanel pg
  /\ exists es, log (bindToVideoElements videoElements pg) = log pg ++ es
       /\ Forall (fun e => keyEvent e = false) es.
Proof.
  unfold bindToVideoElements. cbv zeta.
  match goal with |- context [updateBroadcaster ?q] =>
    destruct (updateBroadcaster_frame q) as (_ & _ & Hu & _ & _ & es3 & Hlog3 & Hq3) end.
  rewrite Hu, Hlog3.
  match goal with |- context [removeStale ?d ?n ?q] =>
    destruct (removeStale_page d n q) as (_ & _ & _ & _ & Hu2 & _);
    destruct (removeStale_log d n q) as (_ & es2 & Hlog2 & Hq2) end.
  rewrite Hu2, Hlog2.
  destruct (bindNew_page videoElements pg) as (_ & _ & _ & _ & Hu1 & _).
  destruct (bindNew_log videoElements pg) as (_ & es1 & Hlog1 & Hq1).
  rewrite Hu1, Hlog1. split; [done|].
  exists (es1 ++ es2 ++ es3). rewrite <- !app_assoc. split; [done|].
  repeat apply Forall_app_2; try done.
  eapply Forall_impl; [exact Hq3|]. by intros e [_ ?].
Qed.

Lemma floating_copy_quiet (br : Browser (num:=num)) (m : Message (num:=num) (FrameId:=FrameId)) :
  Forall quiet (floating (copyToClipboard br m) : list Event).
Proof.
  unfold copyToClipboard, then_, catch_, floating.
  destruct (fetch br _) as [response| |]; [|by repeat constructor..].
  destruct (response_blob br _) as [blob| |]; [|by repeat constructor..].
  destruct (clipboard_write br _) as [reason|[[]| |]]; by repeat constructor.
Qed.

Lemma messageListener_frame br hp (pg : Page) request r pg' hp' :
  messageListener add br hp pg request = Returns (r, pg', hp') ->
  bindings pg' = bindings pg
  /\ nextBinding pg' = nextBinding pg
  /\ page pg' = page pg
  /\ isParentDocument pg' = isParentDocument pg
  /\ frameInfoListener pg' = frameInfoListener pg
  /\ frameInfoBroadcaster pg' = frameInfoBroadcaster pg
  /\ unbindToggleSidePanel pg' = unbindToggleSidePanel pg
  /\ nextHandle pg' = nextHandle pg
  /\ videoInterval pg' = videoInterval pg
  /\ listening pg' = listening pg
  /\ exists es, log pg' = log pg ++ es /\ Forall quiet es.
Proof.
  unfold messageListener.
  assert (Hsame : forall q : Page, q = pg ->
    bindings q = bindings pg /\ nextBinding q = nextBinding pg /\ page q = page pg
    /\ isParentDocument q = isParentDocument pg
    /\ frameInfoListener q = frameInfoListener pg
    /\ frameInfoBroadcaster q = frameInfoBroadcaster pg
    /\ unbindToggleSidePanel q = unbindToggleSidePanel pg
    /\ nextHandle q = nextHandle pg /\ videoInterval q = videoInterval pg
    /\ listening q = listening pg
    /\ exists es, log q = log pg ++ es /\ Forall quiet es).
  { intros q ->. repeat split. exists []. by rewrite app_nil_r. }
  destruct (negb (isParentDocument pg)); [intros [= _ <- _]; by apply Hsame|].
  destruct (negb (bool_decide _)); [intros [= _ <- _]; by apply Hsame|].
  destruct (String.eqb _ "copy-to-clipboard").
  { intros [= _ <- _]. simpl. repeat split. eexists. split; [done|].
    apply floating_copy_quiet. }
  destruct (String.eqb _ "crop-and-resize").
  { unfold cropAndResizeHandler.
    destruct (captureRect add br hp pg (message request)) as [[l hp1]| |]; simpl;
      [|done..].
    intros [= _ <- _]. simpl. repeat split. eexists. split; [done|].
    unfold then_, floating. destruct (cropAndResize br _ _ _ _);
      by repeat constructor. }
  destruct (String.eqb _ "show-anki-ui").
  { intros [= _ <- _]. destruct (request_src request); [by apply Hsame|].
    simpl. repeat split. eexists. split; [done|]. by repeat constructor. }
  destruct (String.eqb _ "settings-updated").
  { intros [= _ <- _]. simpl. repeat split. eexists.
    rewrite <- app_assoc. split; [done|]. by repeat constructor. }
  intros [= _ <- _]. by apply Hsame.
Qed.

(** *** Key handlers *)

Lemma replayKeys_app (es1 es2 : list Event) active :
  replayKeys (es1 ++ es2) active = replayKeys es2 (replayKeys es1 active).
Proof. revert active. induction es1 as [|e es1 IH]; intros active; simpl; [done|]. apply IH. Qed.

Lemma replayKeys_noinstall (es : list Event) active :
  Forall (fun e => installEvent e = false) es ->
  length (replayKeys es active) <= length active
  /\ forall h, h ∈ replayKeys es active -> h ∈ active.
Proof.
  intros Hq. revert active. induction Hq as [|e es He _ IH]; intros active; simpl.
  - split; [lia|done].
  - destruct (IH (keyEffect e active)) as [Hlen Hsub].
    destruct e; simpl in *; try done.
    split.
    + etrans; [exact Hlen|]. apply length_filter.
    + intros h' Hin. apply Hsub in Hin. by apply list_elem_of_filter in Hin as [_ ?].
Qed.

Lemma disciplined_noinstall (es es' : list Event) release :
  Forall (fun e => installEvent e = false) es' ->
  disciplinedLog es release -> disciplinedLog (es ++ es') release.
Proof.
  intros Hq (Hone & Hinst & Hrel). repeat split.
  - intros n. rewrite take_app. unfold activeKeyBindings. rewrite replayKeys_app.
    etrans; [apply replayKeys_noinstall; by apply Forall_take|]. apply Hone.
  - intros n h keys Hn.
    destruct (decide (n < length es)) as [Hlt|Hge].
    + rewrite lookup_app_l in Hn by done. rewrite take_app_le by lia. eauto.
    + rewrite lookup_app_r in Hn by lia.
      apply list_elem_of_lookup_2 in Hn.
      rewrite Forall_forall in Hq. by apply Hq in Hn.
  - intros h. unfold activeKeyBindings. rewrite replayKeys_app.
    intros Hin. apply replayKeys_noinstall in Hin; [|done]. by apply Hrel.
Qed.

Lemma disciplined_release (es : list Event) release :
  disciplinedLog es release ->
  activeKeyBindings
    (es ++ match release with Some h => [KeyRelease h] | None => [] end) = [].
Proof.
  intros (Hone & _ & Hrel). unfold activeKeyBindings in *.
  rewrite replayKeys_app.
  destruct (replayKeys es []) as [|h0 rest] eqn:Hact.
  { by destruct release. }
  pose proof (Hone (length es)) as Hlen. rewrite firstn_all, Hact in Hlen.
  destruct rest; [|simpl in Hlen; lia].
  rewrite (Hrel h0) by apply list_elem_of_here. simpl.
  rewrite filter_cons, decide_False by (intros Hne; by apply Hne). done.
Qed.

Lemma disciplined_install (es : list Event) release h keys :
  disciplinedLog es release ->
  activeKeyBindings es = [] ->
  disciplinedLog (es ++ [KeyInstall h keys]) (Some h).
Proof.
  intros (Hone & Hinst & Hrel) Hnone.
  assert (Hall : activeKeyBindings (es ++ [KeyInstall h keys]) = [h]).
  { unfold activeKeyBindings in *. rewrite replayKeys_app, Hnone. done. }
  repeat split.
  - intros n. destruct (decide (n <= length es)) as [Hle|Hgt].
    + rewrite take_app_le by done. apply Hone.
    + rewrite take_ge by (rewrite length_app; simpl; lia). by rewrite Hall.
  - intros n h' keys' Hn. destruct (decide (n < length es)) as [Hlt|Hge].
    + rewrite lookup_app_l in Hn by done. rewrite take_app_le by lia. eauto.
    + assert (n = length es) as ->.
      { apply lookup_lt_Some in Hn. rewrite length_app in Hn. simpl in Hn. lia. }
      by rewrite take_app_length.
  - intros h'. rewrite Hall. by intros ->%list_elem_of_singleton.
Qed.

Lemma disciplined_resolved keyBindSet (pg : Page) :
  keysDisciplined pg -> keysDisciplined (keyBindSetResolved keyBindSet pg).
Proof.
  intros Hd. unfold keysDisciplined, keyBindSetResolved in *.
  destruct (pendingKeyBindSet pg); [done|]. simpl.
  rewrite app_assoc. apply disciplined_install with (release := unbindToggleSidePanel pg).
  - apply disciplined_noinstall; [|done]. by destruct (unbindToggleSidePanel pg); repeat constructor.
  - by apply disciplined_release.
Qed.

(** *** Every step keeps the page in order *)

Ltac split_wf := split; [|split; [|split; [|split]]].

Lemma tick_NoDup videoElements (pg : Page) :
  NoDup (tracked pg) -> NoDup (tracked (bindToVideoElements videoElements pg)).
Proof.
  intros Hnd. unfold tracked. rewrite bindToVideoElements_bindings.
  apply (bindNew_NoDup videoElements) in Hnd. unfold tracked in Hnd.
  revert Hnd. generalize (bindings (bindNew videoElements pg)).
  induction l as [|b l IH]; simpl; [done|].
  intros [Hb Hl]%NoDup_cons. rewrite filter_cons. case_decide; [|by apply IH].
  simpl. apply NoDup_cons. split; [|by apply IH].
  intros (b' & Hv & Hin)%list_elem_of_fmap. apply list_elem_of_filter in Hin as [_ Hin].
  apply Hb. apply list_elem_of_fmap. by exists b'.
Qed.

Lemma tick_fields videoElements (pg : Page) :
  isParentDocument (bindToVideoElements videoElements pg) = isParentDocument pg
  /\ videoInterval (bindToVideoElements videoElements pg) = videoInterval pg
  /\ page (bindToVideoElements videoElements pg) = page pg
  /\ (is_Some (frameInfoBroadcaster pg) ->
      is_Some (frameInfoBroadcaster (bindToVideoElements videoElements pg))).
Proof.
  unfold bindToVideoElements. cbv zeta.
  destruct (bindNew_page videoElements pg) as (Hp1 & Hi1 & Hb1 & _ & _ & _ & _ & Hv1 & _).
  match goal with |- context [removeStale ?d ?n ?q] =>
    destruct (removeStale_page d n q) as (Hp2 & Hi2 & Hb2 & _ & _ & _ & _ & Hv2 & _) end.
  unfold updateBroadcaster. rewrite Hb2, Hb1.
  destruct (frameInfoBroadcaster pg) as [bc|].
  - destruct (_ =? _); simpl; rewrite Hi2, Hi1, Hv2, Hv1, Hp2, Hp1; eauto.
  - rewrite Hi2, Hi1, Hv2, Hv1, Hp2, Hp1. repeat split. by intros [? ?].
Qed.

Lemma keyEvent_install (e : Event) : keyEvent e = false -> installEvent e = false.
Proof. by destruct e. Qed.

Lemma quiet_noinstall (es : list Event) :
  Forall quiet es -> Forall (fun e => installEvent e = false) es.
Proof.
  intros Hq. eapply Forall_impl; [exact Hq|]. intros e [_ ?]. by apply keyEvent_install.
Qed.

Lemma quiet_nobinding (es : list Event) :
  Forall quiet es -> Forall (fun e => bindingEvent e = false) es.
Proof. intros Hq. eapply Forall_impl; [exact Hq|]. by intros e [? _]. Qed.

Lemma wellFormed_quiet (pg pg' : Page) es :
  bindings pg' = bindings pg ->
  nextBinding pg' = nextBinding pg ->
  isParentDocument pg' = isParentDocument pg ->
  (is_Some (frameInfoBroadcaster pg) -> is_Some (frameInfoBroadcaster pg')) ->
  videoInterval pg' = videoInterval pg ->
  unbindToggleSidePanel pg' = unbindToggleSidePanel pg ->
  log pg' = log pg ++ es ->
  Forall quiet es ->
  wellFormed pg -> wellFormed pg'.
Proof.
  intros Hbs Hnext Hpar Hbc Hint Hrel Hlog Hq (Hnd & Hacc & Hkeys & Hchild & Hidle).
  unfold wellFormed, tracked, keysDisciplined in *.
  rewrite Hbs, Hpar, Hint, Hrel, Hlog. split_wf; try done.
  - eapply accounted_quiet; eauto using quiet_nobinding.
  - by apply disciplined_noinstall; [apply quiet_noinstall|].
  - eauto.
Qed.

Lemma wellFormed_tick videoElements (pg : Page) :
  videoInterval pg = true ->
  wellFormed pg -> wellFormed (bindToVideoElements videoElements pg).
Proof.
  intros Hon (Hnd & Hacc & Hkeys & Hchild & Hidle).
  destruct (tick_fields videoElements pg) as (Hpar & Hint & _ & Hbc).
  destruct (tick_keys videoElements pg) as (Hrel & es & Hlog & Hq).
  unfold wellFormed, keysDisciplined in *. rewrite Hpar, Hint, Hrel, Hlog.
  split_wf.
  - by apply tick_NoDup.
  - by apply accounted_tick.
  - apply disciplined_noinstall; [|done].
    eapply Forall_impl; [exact Hq|]. apply keyEvent_install.
  - eauto.
  - congruence.
Qed.

Lemma wellFormed_beforeunload (pg : Page) :
  wellFormed pg -> wellFormed (beforeunload pg).
Proof.
  intros (Hnd & Hacc & Hkeys & Hchild & Hidle).
  unfold wellFormed. split_wf.
  - constructor.
  - by apply accounted_beforeunload.
  - unfold keysDisciplined in *. simpl. apply disciplined_noinstall; [|done].
    apply Forall_app_2; [apply Forall_forall; by intros e (b & -> & _)%list_elem_of_fmap|].
    destruct (frameInfoListener pg), (frameInfoBroadcaster pg),
      (unbindToggleSidePanel pg); by repeat constructor.
  - simpl. intros Hc. destruct (Hchild Hc) as [bc ->]. eauto.
  - done.
Qed.

Lemma wellFormed_resolved keyBindSet (pg : Page) :
  wellFormed pg -> wellFormed (keyBindSetResolved keyBindSet pg).
Proof.
  intros Hwf. pose proof Hwf as (Hnd & Hacc & Hkeys & Hchild & Hidle).
  unfold wellFormed. split; [|split; [|split]].
  - unfold keyBindSetResolved. by destruct (pendingKeyBindSet pg).
  - unfold keyBindSetResolved. destruct (pendingKeyBindSet pg); [done|].
    eapply accounted_quiet; [..|exact Hacc]; try done.
    by destruct (unbindToggleSidePanel pg); repeat constructor.
  - by apply disciplined_resolved.
  - unfold keyBindSetResolved. by destruct (pendingKeyBindSet pg).
Qed.

Lemma keyBindSetRejected_frame (pg : Page) :
  bindings (keyBindSetRejected pg) = bindings pg
  /\ nextBinding (keyBindSetRejected pg) = nextBinding pg
  /\ page (keyBindSetRejected pg) = page pg
  /\ isParentDocument (keyBindSetRejected pg) = isParentDocument pg
  /\ frameInfoListener (keyBindSetRejected pg) = frameInfoListener pg
  /\ frameInfoBroadcaster (keyBindSetRejected pg) = frameInfoBroadcaster pg
  /\ unbindToggleSidePanel (keyBindSetRejected pg) = unbindToggleSidePanel pg
  /\ nextHandle (keyBindSetRejected pg) = nextHandle pg
  /\ videoInterval (keyBindSetRejected pg) = videoInterval pg
  /\ listening (keyBindSetRejected pg) = listening pg
  /\ exists es, log (keyBindSetRejected pg) = log pg ++ es /\ Forall quiet es.
Proof.
  unfold keyBindSetRejected. destruct (pendingKeyBindSet pg); simpl.
  - repeat split. exists []. by rewrite app_nil_r.
  - repeat split. eexists. split; [done|]. by repeat constructor.
Qed.

Lemma wellFormed_step (pg : Page) (s : Step (num:=num)) :
  wellFormed pg -> wellFormed (step add pg s).
Proof.
  intros Hwf. destruct s as [videoElements|br hp request|[keyBindSet|]|fid iframe|]; simpl.
  - destruct (videoInterval pg) eqn:Hon; [by apply wellFormed_tick|done].
  - destruct (listening pg); [|done].
    destruct (messageListener add br hp pg request) as [[[r pg'] hp']| |] eqn:Hm;
      [|done..].
    apply messageListener_frame in Hm
      as (Hbs & Hnext & _ & Hpar & _ & Hbc & Hrel & _ & Hint & _ & es & Hlog & Hq).
    eapply wellFormed_quiet; eauto. by rewrite Hbc.
  - by apply wellFormed_resolved.
  - destruct (keyBindSetRejected_frame pg)
      as (Hbs & Hnext & _ & Hpar & _ & Hbc & Hrel & _ & Hint & _ & es & Hlog & Hq).
    eapply wellFormed_quiet; eauto. by rewrite Hbc.
  - unfold frameAnnounced.
    destruct (frameInfoListener pg) as [[[registry|] []]|]; exact Hwf.
  - by apply wellFormed_beforeunload.
Qed.

Lemma wellFormed_run (pg : Page) (steps : list (Step (num:=num))) :
  wellFormed pg -> wellFormed (run add pg steps).
Proof.
  unfold run. revert pg. induction steps as [|s steps IH]; intros pg Hwf; simpl; [done|].
  by apply IH, wellFormed_step.
Qed.

Lemma wellFormed_bind isParent delegate (fid : FrameId) videoElements :
  wellFormed (bind isParent delegate fid videoElements : Page).
Proof.
  unfold bind. cbv zeta.
  set (pg0 := mkPage isParent delegate [] 0 _ _ None 0 0 false false _).
  assert (Hacc0 : bindingsAccounted pg0).
  { unfold bindingsAccounted. simpl. repeat split.
    - constructor.
    - by intros b ?%not_elem_of_nil.
    - intros i. by destruct isParent.
    - intros i. destruct isParent; simpl; try case_bool_decide; try done; lia. }
  destruct (tick_fields videoElements pg0) as (Hpar & Hint & _ & Hbc).
  destruct (tick_keys videoElements pg0) as (Hrel & es & Hlog & Hq).
  pose proof (accounted_tick videoElements pg0 Hacc0) as Hacc.
  assert (Hnd0 : NoDup (tracked pg0)) by (unfold tracked; simpl; constructor).
  pose proof (tick_NoDup videoElements pg0 Hnd0) as Hnd. clear Hnd0.
  revert Hpar Hint Hbc Hrel Hlog Hacc Hnd.
  generalize (bindToVideoElements videoElements pg0). intros pg1 Hpar Hint Hbc Hrel Hlog Hacc Hnd.
  simpl in Hpar, Hrel, Hlog.
  assert (Hq0 : Forall (fun e : Event => installEvent e = false) (log pg1)).
  { rewrite Hlog. apply Forall_app_2.
    - by destruct isParent; repeat constructor.
    - eapply Forall_impl; [exact Hq|]. apply keyEvent_install. }
  unfold wellFormed, keysDisciplined, tracked.
  assert (Hnone : disciplinedLog ([] : list Event) None).
  { split; [|split].
    - intros n. rewrite take_nil. simpl. lia.
    - done.
    - by intros h ?%not_elem_of_nil. }
  destruct isParent; simpl; rewrite ?Hpar, ?Hrel; split_wf; try done.
  - eapply accounted_quiet with (pg := pg1);
      [done|done|simpl; by rewrite <- !app_assoc|by repeat constructor|done].
  - apply (disciplined_noinstall [] _ None); [|done].
    rewrite !Forall_app. repeat split; try done; by repeat constructor.
  - eapply accounted_quiet with (pg := pg1);
      [done|done|simpl; by rewrite <- !app_assoc|by repeat constructor|done].
  - apply (disciplined_noinstall [] _ None); [|done].
    rewrite !Forall_app. repeat split; try done; by repeat constructor.
  - intros _. apply Hbc. simpl. eauto.
Qed.

Lemma step_fields (pg : Page) (s : Step (num:=num)) :
  page (step add pg s) = page pg
  /\ isParentDocument (step add pg s) = isParentDocument pg
  /\ (videoInterval pg = false -> videoInterval (step add pg s) = false).
Proof.
  destruct s as [videoElements|br hp request|[keyBindSet|]|fid iframe|]; simpl;
    try done.
  - destruct (videoInterval pg) eqn:Hon; [|done].
    destruct (tick_fields videoElements pg) as (Hpar & Hint & Hpage & _). done.
  - destruct (listening pg); [|done].
    destruct (messageListener add br hp pg request) as [[[r pg'] hp']| |] eqn:Hm;
      [|done..].
    apply messageListener_frame in Hm
      as (_ & _ & Hpage & Hpar & _ & _ & _ & _ & Hint & _).
    split; [done|]. split; [done|]. congruence.
  - unfold keyBindSetResolved. by destruct (pendingKeyBindSet pg).
  - unfold keyBindSetRejected. by destruct (pendingKeyBindSet pg).
  - unfold frameAnnounced. by destruct (frameInfoListener pg) as [[[registry|] []]|].
Qed.

Lemma run_fields (pg : Page) (steps : list (Step (num:=num))) :
  page (run add pg steps) = page pg
  /\ isParentDocument (run add pg steps) = isParentDocument pg
  /\ (videoInterval pg = false -> videoInterval (run add pg steps) = false).
Proof.
  unfold run. revert pg. induction steps as [|s steps IH]; intros pg; simpl; [done|].
  destruct (IH (step add pg s)) as (Hpage & Hpar & Hidle).
  destruct (step_fields pg s) as (Hpage' & Hpar' & Hidle').
  rewrite Hpage, Hpar. repeat split; [done|done|]. eauto.
Qed.

Lemma bind_fields isParent delegate (fid : FrameId) videoElements :
  page (bind isParent delegate fid videoElements : Page) = delegate
  /\ isParentDocument (bind isParent delegate fid videoElements : Page) = isParent
  /\ bindings (bind isParent delegate fid videoElements : Page)
     = bindings (bindToVideoElements videoElements
         (mkPage isParent delegate [] 0
            (if isParent then Some (mkListener (Some ∅) true) else None)
            (if isParent then None else Some (mkBroadcaster fid false))
            None 0 0 false false
            (if isParent then [ListenerBind] else []) : Page))
  /\ frameInfoBroadcaster (bind isParent delegate fid videoElements : Page)
     = frameInfoBroadcaster (bindToVideoElements videoElements
         (mkPage isParent delegate [] 0
            (if isParent then Some (mkListener (Some ∅) true) else None)
            (if isParent then None else Some (mkBroadcaster fid false))
            None 0 0 false false
            (if isParent then [ListenerBind] else []) : Page)).
Proof.
  unfold bind. cbv zeta.
  match goal with |- context [bindToVideoElements ?d ?q] =>
    destruct (tick_fields d q) as (Hpar & _ & Hpage & _) end.
  simpl in Hpar, Hpage. destruct isParent; simpl; by rewrite ?Hpar, ?Hpage.
Qed.

(** *** Discovery *)

Lemma notIgnored_excluded delegate v :
  notIgnored delegate v = true <-> ~ excludedByPage delegate v.
Proof.
  unfold notIgnored, excludedByPage. destruct delegate as [d|].
  - rewrite negb_true_iff. split.
    + intros Hf (d' & [= <-] & Ht). congruence.
    + intros Hn. destruct (shouldIgnore d v) eqn:Hs; [|done].
      destruct Hn. by exists d.
  - split; [|done]. by intros _ (d & ? & _).
Qed.

Lemma tick_tracks videoElements (pg : Page) :
  NoDup (tracked pg) ->
  tracksValidUnlessIgnored (page pg) videoElements (bindToVideoElements videoElements pg).
Proof.
  intros Hnd. split; [by apply tick_NoDup|]. unfold tracked.
  rewrite bindToVideoElements_bindings. split.
  - intros n (b & -> & Hb)%list_elem_of_fmap.
    apply list_elem_of_filter in Hb as [Hex _].
    by apply videoElementExists_spec.
  - intros v Hv Hvalid Hnot. apply notIgnored_excluded in Hnot.
    assert (Hin : node v ∈ tracked (bindNew videoElements pg)).
    { apply bindNew_tracked. right. by exists v. }
    apply list_elem_of_fmap in Hin as (b & Hnode & Hb).
    apply list_elem_of_fmap. exists b. split; [done|].
    apply list_elem_of_filter. split; [|done].
    apply videoElementExists_spec. exists v. by rewrite <- Hnode.
Qed.

Lemma tracks_exactly_without_delegate videoElements (pg : Page) :
  tracksValidUnlessIgnored None videoElements pg -> tracksExactlyValid videoElements pg.
Proof.
  intros (Hnd & Hsound & Hcomplete). split; [done|]. intros n. split; [apply Hsound|].
  intros (v & Hv & <- & Hvalid). apply Hcomplete; [done|done|].
  by intros (d & ? & _).
Qed.

(** C1 (amended): after the pass at startup and after every discovery tick,
    no node has two bindings, every tracked binding's element is in the
    document and valid, and every valid video element of the document that
    the page delegate's [shouldIgnore] does not exclude is tracked; on a
    page without a delegate the tracked set is exactly the set of valid
    video elements. *)
Theorem discovery_tracks_valid_unless_ignored
    isParent delegate (fid : FrameId) videoElements0 :
  tracksValidUnlessIgnored delegate videoElements0
    (bind isParent delegate fid videoElements0 : Page)
  /\ (forall steps videoElements,
        tracksValidUnlessIgnored delegate videoElements
          (bindToVideoElements videoElements
             (run add (bind isParent delegate fid videoElements0) steps)))
  /\ (forall steps videoElements,
        tracksExactlyValid videoElements
          (bindToVideoElements videoElements
             (run add (bind isParent None fid videoElements0) steps))).
Proof.
  assert (Hticks : forall d steps videoElements,
    tracksValidUnlessIgnored d videoElements
      (bindToVideoElements videoElements
         (run add (bind isParent d fid videoElements0) steps))).
  { intros d steps videoElements.
    pose proof (wellFormed_run _ steps (wellFormed_bind isParent d fid videoElements0))
      as (Hnd & _).
    destruct (run_fields (bind isParent d fid videoElements0) steps) as (Hpage & _).
    destruct (bind_fields isParent d fid videoElements0) as (Hpage0 & _).
    pose proof (tick_tracks videoElements _ Hnd) as Ht.
    by rewrite Hpage, Hpage0 in Ht. }
  split; [|split].
  - destruct (bind_fields isParent delegate fid videoElements0) as (_ & _ & Hbs & _).
    unfold tracksValidUnlessIgnored, tracked. rewrite Hbs.
    apply (tick_tracks videoElements0 (mkPage isParent delegate [] 0 _ _ None 0 0 false false _)).
    unfold tracked. simpl. constructor.
  - apply Hticks.
  - intros steps videoElements. apply tracks_exactly_without_delegate, Hticks.
Qed.

Lemma bindNew_incl videoElements (pg : Page) b :
  b ∈ bindings pg -> b ∈ bindings (bindNew videoElements pg).
Proof.
  revert pg. induction videoElements as [|v rest IH]; intros pg Hin; simpl; [done|].
  apply IH. destruct (_ && _); [|done].
  simpl. apply elem_of_app. by left.
Qed.

Lemma tick_nextBinding videoElements (pg : Page) :
  nextBinding (bindToVideoElements videoElements pg)
  = nextBinding (bindNew videoElements pg).
Proof.
  unfold bindToVideoElements.
  destruct (updateBroadcaster_frame
              (removeStale videoElements (length (bindings (bindNew videoElements pg)))
                 (bindNew videoElements pg))) as (_ & -> & _).
  by destruct (removeStale_log videoElements
                 (length (bindings (bindNew videoElements pg)))
                 (bindNew videoElements pg)) as (-> & _).
Qed.

Lemma bid_determines (bs : list Binding) b b' :
  NoDup (map bid bs) -> b ∈ bs -> b' ∈ bs -> bid b = bid b' -> b = b'.
Proof.
  induction bs as [|x bs IH]; intros Hnd Hb Hb' Heq; [by apply not_elem_of_nil in Hb|].
  apply NoDup_cons in Hnd as [Hx Hnd].
  apply elem_of_cons in Hb as [->|Hb]; apply elem_of_cons in Hb' as [->|Hb']; try done.
  - exfalso. apply Hx. rewrite Heq. apply list_elem_of_fmap. by exists b'.
  - exfalso. apply Hx. rewrite <- Heq. apply list_elem_of_fmap. by exists b.
  - by apply IH.
Qed.

(** A discovery pass unbinds a tracked binding exactly when its element is
    no longer enumerated with a valid source, and then drops it. *)
Lemma tick_unbinds_stale videoElements (pg : Page) b :
  bindingsAccounted pg -> b ∈ bindings pg ->
  ((exists v, v ∈ videoElements /\ node v = video b /\ hasValidVideoSource v = true) ->
     b ∈ bindings (bindToVideoElements videoElements pg)
     /\ unbindCalls (bid b) (log (bindToVideoElements videoElements pg)) = 0)
  /\ (~ (exists v, v ∈ videoElements /\ node v = video b /\ hasValidVideoSource v = true) ->
       (b ∉ bindings (bindToVideoElements videoElements pg))
       /\ unbindCalls (bid b) (log (bindToVideoElements videoElements pg)) = 1).
Proof.
  intros Hacc Hin.
  pose proof (accounted_bindNew videoElements pg Hacc) as (Hnd & Hlt & _).
  pose proof (accounted_tick videoElements pg Hacc) as (_ & _ & _ & Hu).
  pose proof (bindNew_incl videoElements pg b Hin) as Hin'.
  specialize (Hu (bid b)).
  rewrite tick_nextBinding in Hu.
  rewrite bindToVideoElements_bindings in *.
  rewrite <- videoElementExists_spec.
  split.
  - intros Hex.
    assert (Hkept : b ∈ filter (fun b => videoElementExists videoElements b = true)
                          (bindings (bindNew videoElements pg)))
      by by apply list_elem_of_filter.
    split; [done|]. rewrite Hu. rewrite bool_decide_eq_false_2; [done|].
    intros [_ Hout]. apply Hout. apply list_elem_of_fmap. by exists b.
  - intros Hgone. split.
    + by intros [? _]%list_elem_of_filter.
    + rewrite Hu. rewrite bool_decide_eq_true_2; [done|].
      split; [by apply Hlt|].
      intros (b' & Heq & [Hex' Hin'']%list_elem_of_filter)%list_elem_of_fmap.
      by rewrite (bid_determines _ b b' Hnd Hin' Hin'' Heq) in Hgone.
Qed.

Lemma step_log (pg : Page) (s : Step (num:=num)) :
  exists es, log (step add pg s) = log pg ++ es.
Proof.
  assert (Hsame : exists es : list Event, log pg = log pg ++ es)
    by (exists []; by rewrite app_nil_r).
  destruct s as [videoElements|br hp request|[keyBindSet|]|fid iframe|]; simpl.
  - destruct (videoInterval pg); [|done].
    destruct (tick_keys videoElements pg) as (_ & es & Hlog & _). by exists es.
  - destruct (listening pg); [|done].
    destruct (messageListener add br hp pg request) as [[[r pg'] hp']| |] eqn:Hm;
      [|done..].
    apply messageListener_frame in Hm
      as (_ & _ & _ & _ & _ & _ & _ & _ & _ & _ & es & Hlog & _).
    by exists es.
  - unfold keyBindSetResolved. destruct (pendingKeyBindSet pg); [done|].
    simpl. by eexists.
  - unfold keyBindSetRejected. destruct (pendingKeyBindSet pg); [done|].
    simpl. by eexists.
  - unfold frameAnnounced. by destruct (frameInfoListener pg) as [[[registry|] []]|].
  - simpl. by eexists.
Qed.

Lemma run_log (pg : Page) (steps : list (Step (num:=num))) :
  exists es, log (run add pg steps) = log pg ++ es.
Proof.
  unfold run. revert pg. induction steps as [|s steps IH]; intros pg; simpl.
  - exists []. by rewrite app_nil_r.
  - destruct (IH (step add pg s)) as [es ->].
    destruct (step_log pg s) as [es' ->].
    exists (es' ++ es). by rewrite app_assoc.
Qed.

(** C5: a binding the discovery loop made ([bind()] called on it, once) has
    had [unbind()] called exactly once by the time the [beforeunload]
    handler has run, whatever happened before and whatever happens after.
    Before teardown a binding has been unbound not at all while it is
    tracked, and once after it was removed.  The one call comes from the
    discovery pass in which the binding's element is no longer enumerated
    with a valid source, which also drops the binding; a binding whose
    element is still there is kept and not unbound by the pass, and is
    unbound by the [beforeunload] handler if it is still tracked then. *)
Theorem unbind_exactly_once
    isParent delegate (fid : FrameId) videoElements0 steps1 steps2 :
  let before := run add (bind isParent delegate fid videoElements0 : Page) steps1 in
  let after := run add before (BeforeUnload :: steps2) in
  (forall b, boundCalls b (log after) <= 1
             /\ unbindCalls b (log after) = boundCalls b (log after))
  /\ (forall b, unbindCalls b (log before)
               = if bool_decide (b ∈ map bid (bindings before)) then 0
                 else boundCalls b (log before))
  /\ bindings after = []
  /\ (forall videoElements b,
        b ∈ bindings before ->
        let ticked := bindToVideoElements videoElements before in
        unbindCalls (bid b) (log before) = 0
        /\ ((exists v, v ∈ videoElements /\ node v = video b
                       /\ hasValidVideoSource v = true) ->
            b ∈ bindings ticked /\ unbindCalls (bid b) (log ticked) = 0)
        /\ (~ (exists v, v ∈ videoElements /\ node v = video b
                         /\ hasValidVideoSource v = true) ->
            (b ∉ bindings ticked) /\ unbindCalls (bid b) (log ticked) = 1))
  /\ (forall b, b ∈ bindings before ->
        boundCalls (bid b) (log before) = 1
        /\ unbindCalls (bid b) (log after) = 1).
Proof.
  intros before after.
  assert (Hwf1 : wellFormed before)
    by apply wellFormed_run, wellFormed_bind.
  assert (Hwf2 : wellFormed after) by by apply wellFormed_run.
  assert (Hidle : videoInterval after = false).
  { unfold after, run. simpl. by apply run_fields. }
  destruct Hwf2 as (_ & (_ & _ & Hb2 & Hu2) & _ & _ & Hempty).
  specialize (Hempty Hidle).
  pose proof Hwf1 as (_ & Hacc1 & _).
  destruct Hwf1 as (_ & (_ & Hlt1 & Hb1 & Hu1) & _).
  assert (Hin_lt : forall b, b ∈ map bid (bindings before) -> b < nextBinding before).
  { intros b (x & -> & Hin)%list_elem_of_fmap. by apply Hlt1. }
  assert (Hall : forall b, boundCalls b (log after) <= 1
                           /\ unbindCalls b (log after) = boundCalls b (log after)).
  { intros b. rewrite Hu2, Hb2, Hempty. simpl.
    pose proof (not_elem_of_nil (A:=nat) b) as Hnil.
    repeat case_bool_decide; try lia; exfalso; tauto. }
  assert (Htracked : forall b, b ∈ bindings before ->
            unbindCalls (bid b) (log before) = 0
            /\ boundCalls (bid b) (log before) = 1).
  { intros b Hin.
    assert (Hmem : bid b ∈ map bid (bindings before))
      by (apply list_elem_of_fmap; by exists b).
    rewrite Hu1, Hb1. pose proof (Hin_lt _ Hmem).
    repeat case_bool_decide; try lia; try done; exfalso; tauto. }
  split; [exact Hall|]. split; [|split; [done|split]].
  - intros b. rewrite Hu1, Hb1. pose proof (Hin_lt b).
    repeat case_bool_decide; try lia; exfalso; tauto.
  - intros videoElements b Hin ticked.
    split; [by apply Htracked|].
    by apply tick_unbinds_stale.
  - intros b Hin. destruct (Htracked b Hin) as [_ Hbound].
    split; [done|].
    destruct (Hall (bid b)) as [Hle ->].
    destruct (run_log before (BeforeUnload :: steps2)) as [es Hlog].
    fold after in Hlog. rewrite Hlog in *.
    unfold boundCalls in *. rewrite countEvents_app in *. lia.
Qed.

(** C7: in a child document the frame-info broadcaster is broadcasting at
    the end of a discovery pass exactly when the pass ends with a binding:
    the last thing a tick does is [unbind()] it when [bindings] is empty and
    [bind()] it otherwise. *)
Theorem broadcaster_follows_bindings delegate (fid : FrameId) videoElements0 :
  (exists bc,
     frameInfoBroadcaster (bind false delegate fid videoElements0 : Page) = Some bc
     /\ broadcasting bc
        = negb (bool_decide (bindings (bind false delegate fid videoElements0 : Page) = [])))
  /\ forall steps videoElements,
       let pg := bindToVideoElements videoElements
                   (run add (bind false delegate fid videoElements0 : Page) steps) in
       exists bc,
         frameInfoBroadcaster pg = Some bc
         /\ broadcasting bc = negb (bool_decide (bindings pg = []))
         /\ last (log pg)
            = Some (if broadcasting bc then BroadcasterBind else BroadcasterUnbind).
Proof.
  assert (Htick : forall (pg : Page) videoElements,
    is_Some (frameInfoBroadcaster pg) ->
    exists bc,
      frameInfoBroadcaster (bindToVideoElements videoElements pg) = Some bc
      /\ broadcasting bc
         = negb (bool_decide (bindings (bindToVideoElements videoElements pg) = []))
      /\ last (log (bindToVideoElements videoElements pg))
         = Some (if broadcasting bc then BroadcasterBind else BroadcasterUnbind)).
  { intros pg videoElements [bc0 Hbc0]. unfold bindToVideoElements. cbv zeta.
    destruct (bindNew_page videoElements pg) as (_ & _ & Hb1 & _).
    match goal with |- context [removeStale ?d ?n ?q] =>
      destruct (removeStale_page d n q) as (_ & _ & Hb2 & _);
      generalize dependent (removeStale d n q) end.
    intros q Hb2. unfold updateBroadcaster. rewrite Hb2, Hb1, Hbc0.
    destruct (bindings q) as [|b bs] eqn:Hbs; simpl; eexists;
      (split; [done|]); simpl; rewrite Hbs, last_snoc; by split. }
  split.
  - destruct (bind_fields false delegate fid videoElements0) as (_ & _ & Hbs & Hbc).
    rewrite Hbs, Hbc.
    edestruct (Htick (mkPage false delegate [] 0 None (Some (mkBroadcaster fid false))
                        None 0 0 false false []) videoElements0) as (bc & ? & ? & _).
    { simpl. eauto. }
    by exists bc.
  - intros steps videoElements pg. apply Htick.
    pose proof (wellFormed_run _ steps (wellFormed_bind false delegate fid videoElements0))
      as (_ & _ & _ & Hchild & _).
    apply Hchild.
    destruct (run_fields (bind false delegate fid videoElements0) steps) as (_ & -> & _).
    by destruct (bind_fields false delegate fid videoElements0) as (_ & -> & _).
Qed.

(** C6: whatever the order in which settings updates arrive and their
    [getSingle] promises settle, at no point of the page's life are two
    side-panel key handlers installed, a handler is installed only at a
    point where none is installed (the previous one has been released
    before), and an install that completes leaves exactly the new handler
    installed. *)
Theorem at_most_one_key_binding isParent delegate (fid : FrameId) videoElements0 steps :
  let pg := run add (bind isParent delegate fid videoElements0 : Page) steps in
  (forall n, length (activeKeyBindings (take n (log pg))) <= 1)
  /\ (forall n h keys,
        log pg !! n = Some (KeyInstall h keys) ->
        activeKeyBindings (take n (log pg)) = [])
  /\ (forall keyBindSet,
        pendingKeyBindSet pg <> 0 ->
        activeKeyBindings (log (keyBindSetResolved keyBindSet pg)) = [nextHandle pg]
        /\ unbindToggleSidePanel (keyBindSetResolved keyBindSet pg) = Some (nextHandle pg)).
Proof.
  intros pg.
  pose proof (wellFormed_run _ steps (wellFormed_bind isParent delegate fid videoElements0))
    as (_ & _ & Hkeys & _).
  fold pg in Hkeys. pose proof Hkeys as (Hone & Hinst & Hrel).
  split; [done|]. split; [done|].
  intros keyBindSet Hpending. unfold keyBindSetResolved.
  destruct (pendingKeyBindSet pg); [done|]. simpl. split; [|done].
  rewrite app_assoc. unfold activeKeyBindings. rewrite replayKeys_app.
  pose proof (disciplined_release _ _ Hkeys) as Hnone.
  unfold activeKeyBindings in Hnone. by rewrite Hnone.
Qed.

(** *** Command routing *)

Lemma lookupIframe_registered (pg : Page) fid iframe :
  lookupIframe pg fid = Some iframe <-> registered pg fid iframe.
Proof.
  unfold lookupIframe, registered. split.
  - destruct (frameInfoListener pg) as [fl|]; [|done].
    destruct (iframesById fl) as [registry|] eqn:Hreg; [|done]. eauto.
  - by intros (fl & registry & -> & -> & ?).
Qed.

Lemma lookupIframe_unregistered (pg : Page) fid :
  lookupIframe pg fid = None <-> forall iframe, ~ registered pg fid iframe.
Proof.
  split.
  - intros Hnone iframe Hreg%lookupIframe_registered. congruence.
  - intros Hnot. destruct (lookupIframe pg fid) as [iframe|] eqn:Hl; [|done].
    apply lookupIframe_registered in Hl. by destruct (Hnot iframe).
Qed.

Lemma floating_response (call : Event) (settled : Settled string) :
  floating (then_ ([call], settled) (fun url => ([SendResponse url], Fulfilled tt)))
  = call :: match settled with
            | Fulfilled url => [SendResponse url]
            | Rejected reason => [UnhandledRejection reason]
            | Pending => []
            end.
Proof. by destruct settled. Qed.

Lemma messageListener_dispatch br hp (pg : Page) request :
  isParentDocument pg = true ->
  request_sender request = Some "asbplayer-extension-to-video" ->
  messageListener add br hp pg request
  = let m := message request in
    if String.eqb (command m) "copy-to-clipboard"
    then Returns (RetUndefined, emit (floating (copyToClipboard br m)) pg, hp)
    else if String.eqb (command m) "crop-and-resize"
    then cropAndResizeHandler add br hp pg m
    else if String.eqb (command m) "show-anki-ui"
    then Returns (RetUndefined,
                  match request_src request with
                  | None => emit [AnkiShow m] pg
                  | Some _ => pg
                  end, hp)
    else if String.eqb (command m) "settings-updated"
    then Returns (RetUndefined, emit [AnkiUpdateSettings] (bindToggleSidePanel pg), hp)
    else Returns (RetUndefined, pg, hp).
Proof.
  intros Hroot Hsender. unfold messageListener.
  by rewrite Hroot, bool_decide_eq_true_2.
Qed.

Lemma messageListener_crop br hp (pg : Page) request :
  isParentDocument pg = true ->
  request_sender request = Some "asbplayer-extension-to-video" ->
  command (message request) = "crop-and-resize" ->
  messageListener add br hp pg request
  = cropAndResizeHandler add br hp pg (message request).
Proof.
  intros Hroot Hsender Hcmd.
  rewrite (messageListener_dispatch br hp pg request Hroot Hsender). cbv zeta.
  by rewrite Hcmd.
Qed.

Lemma cropAndResizeHandler_unfold br hp (pg : Page) (m : Message (num:=num) (FrameId:=FrameId)) :
  cropAndResizeHandler add br hp pg m
  = match captureRect add br hp pg m with
    | Returns (l, hp') =>
        Returns (RetTrue,
                 emit (CropAndResizeCall (maxWidth m) (maxHeight m) l (dataUrl m)
                       :: match cropAndResize br (maxWidth m) (maxHeight m)
                                  (hp' !! l) (dataUrl m) with
                          | Fulfilled url => [SendResponse url]
                          | Rejected reason => [UnhandledRejection reason]
                          | Pending => []
                          end) pg,
                 hp')
    | Throws => Throws
    | OutOfFuel => OutOfFuel
    end.
Proof.
  unfold cropAndResizeHandler, obind.
  destruct (captureRect add br hp pg m) as [[l hp']| |]; [|done..].
  by rewrite floating_response.
Qed.

(** C3: an envelope whose sender is not ["asbplayer-extension-to-video"],
    and any envelope delivered in a document that is not the root, makes
    the listener return [undefined] with the page and the heap exactly as
    they were: no handler runs and no event is logged. *)
Theorem messageListener_gate br hp (pg : Page) request :
  isParentDocument pg = false
  \/ request_sender request <> Some "asbplayer-extension-to-video" ->
  messageListener add br hp pg request = Returns (RetUndefined, pg, hp).
Proof.
  intros Hgate. unfold messageListener.
  destruct (isParentDocument pg); simpl; [|done].
  destruct Hgate as [|Hsender]; [done|].
  by rewrite bool_decide_eq_false_2.
Qed.

(** C2: a crop-and-resize envelope handled in the root: without a
    [frameId] the rectangle handed to [cropAndResize] is the envelope's
    rectangle; with a registered [frameId] it is that rectangle moved by the
    [left] and [top] of the iframe's bounding rectangle, [width] and
    [height] as they were. *)
Theorem cropAndResize_rect_translation br hp (pg : Page) request r :
  isParentDocument pg = true ->
  request_sender request = Some "asbplayer-extension-to-video" ->
  command (message request) = "crop-and-resize" ->
  hp !! rect (message request) = Some r ->
  (frameId (message request) = None ->
     exists pg' rest,
       messageListener add br hp pg request = Returns (RetTrue, pg', hp)
       /\ log pg' = log pg ++ CropAndResizeCall (maxWidth (message request))
                               (maxHeight (message request)) (rect (message request))
                               (dataUrl (message request)) :: rest
       /\ hp !! rect (message request) = Some r)
  /\ (forall fid iframe,
        frameId (message request) = Some fid ->
        registered pg fid iframe ->
        exists pg' hp' l rest,
          messageListener add br hp pg request = Returns (RetTrue, pg', hp')
          /\ log pg' = log pg ++ CropAndResizeCall (maxWidth (message request))
                                  (maxHeight (message request)) l
                                  (dataUrl (message request)) :: rest
          /\ hp' !! l
             = Some (mkRect (add (left r) (left (getBoundingClientRect br iframe)))
                            (add (top r) (top (getBoundingClientRect br iframe)))
                            (width r) (height r))).
Proof.
  intros Hroot Hsender Hcmd Hrect.
  rewrite (messageListener_crop br hp pg request Hroot Hsender Hcmd).
  rewrite cropAndResizeHandler_unfold. unfold captureRect. split.
  - intros ->. eexists _, _. split; [done|]. simpl. split; [done|exact Hrect].
  - intros fid iframe -> Hreg%lookupIframe_registered. rewrite Hreg, Hrect.
    eexists _, _, _, _. split; [done|]. simpl.
    split; [done|by rewrite lookup_insert_eq].
Qed.

(** C4: a crop-and-resize envelope whose [frameId] is not registered (the
    listener or its registry may even be missing) is handled as if it had no
    [frameId]: [cropAndResize] gets the envelope's own rectangle, the
    listener returns [true], and the response is sent when the transform
    fulfils. *)
Theorem unregistered_frame_falls_back br hp (pg : Page) request fid :
  isParentDocument pg = true ->
  request_sender request = Some "asbplayer-extension-to-video" ->
  command (message request) = "crop-and-resize" ->
  frameId (message request) = Some fid ->
  (forall iframe, ~ registered pg fid iframe) ->
  let m := message request in
  let settled := cropAndResize br (maxWidth m) (maxHeight m) (hp !! rect m) (dataUrl m) in
  messageListener add br hp pg request
  = Returns (RetTrue,
             emit (CropAndResizeCall (maxWidth m) (maxHeight m) (rect m) (dataUrl m)
                   :: match settled with
                      | Fulfilled url => [SendResponse url]
                      | Rejected reason => [UnhandledRejection reason]
                      | Pending => []
                      end) pg,
             hp)
  /\ messageListener add br hp pg request
     = messageListener add br hp pg
         (mkRequest (request_sender request)
            (mkMessage (command m) (dataUrl m) (maxWidth m) (maxHeight m) (rect m) None)
            (request_src request)).
Proof.
  intros Hroot Hsender Hcmd Hfid Hnot%lookupIframe_unregistered m settled.
  subst m settled.
  rewrite !messageListener_crop by done.
  rewrite !cropAndResizeHandler_unfold. unfold captureRect. simpl.
  by rewrite Hfid, Hnot.
Qed.

(** C9: handling an envelope leaves every rectangle object that existed
    before as it was, the envelope's own [rect] among them: the translated
    rectangle is a new object. *)
Theorem cropAndResize_keeps_envelope br hp (pg : Page) request ret pg' hp' :
  messageListener add br hp pg request = Returns (ret, pg', hp') ->
  hp' !! rect (message request) = hp !! rect (message request)
  /\ (forall l r, hp !! l = Some r -> hp' !! l = Some r)
  /\ (forall l, hp !! l = None -> hp' !! l <> None ->
        command (message request) = "crop-and-resize"
        /\ exists fid iframe, frameId (message request) = Some fid
                              /\ registered pg fid iframe).
Proof.
  unfold messageListener.
  destruct (negb (isParentDocument pg)); [by intros [= _ _ <-]|].
  destruct (negb (bool_decide _)); [by intros [= _ _ <-]|].
  destruct (String.eqb _ "copy-to-clipboard"); [by intros [= _ _ <-]|].
  destruct (String.eqb_spec (command (message request)) "crop-and-resize") as [Hcmd|_].
  2:{ destruct (String.eqb _ "show-anki-ui"); [by intros [= _ _ <-]|].
      destruct (String.eqb _ "settings-updated"); by intros [= _ _ <-]. }
  unfold cropAndResizeHandler, captureRect.
  destruct (frameId (message request)) as [fid|]; [|by intros [= _ _ <-]].
  destruct (lookupIframe pg fid) as [iframe|] eqn:Hreg; [|by intros [= _ _ <-]].
  destruct (hp !! rect (message request)) as [r0|] eqn:Hrect; [|done].
  simpl. intros [= _ _ <-].
  pose proof (is_fresh (dom hp)) as Hfresh. apply not_elem_of_dom in Hfresh.
  split; [|split].
  - rewrite lookup_insert_ne; [done|]. intros Heq. rewrite Heq in Hfresh. congruence.
  - intros l r Hl. rewrite lookup_insert_ne; [done|]. intros Heq. congruence.
  - intros l _ _. split; [done|]. exists fid, iframe. split; [done|].
    by apply lookupIframe_registered.
Qed.

Lemma copyToClipboard_fetch_rejected (br : Browser (num:=num))
    (m : Message (num:=num) (FrameId:=FrameId)) reason :
  fetch br (dataUrl m) = Rejected reason ->
  floating (copyToClipboard br m)
  = [FetchCall (dataUrl m); UnhandledRejection reason].
Proof. intros Hf. unfold copyToClipboard, then_, floating. by rewrite Hf. Qed.

(** C8 (amended): a copy-to-clipboard envelope handled in the root makes
    the listener return [undefined] at once, nothing is thrown to its
    caller.  When the fetch and the blob read succeed and the write call
    gives its promise, no rejection escapes the chain: a failing write is
    caught and passed to [console.error].  A write call that throws before
    there is a promise, a rejected fetch and a rejected blob read have no
    handler: each ends the chain with an unhandled rejection. *)
Theorem copyToClipboard_write_failure_logged br hp (pg : Page) request :
  isParentDocument pg = true ->
  request_sender request = Some "asbplayer-extension-to-video" ->
  command (message request) = "copy-to-clipboard" ->
  messageListener add br hp pg request
  = Returns (RetUndefined, emit (floating (copyToClipboard br (message request))) pg, hp)
  /\ (forall response blob,
        fetch br (dataUrl (message request)) = Fulfilled response ->
        response_blob br response = Fulfilled blob ->
        (forall promise,
           clipboard_write br [(blob_type blob, blob)] = Gave promise ->
           noRejectionEscapes br (message request)
           /\ forall reason,
                promise = Rejected reason ->
                floating (copyToClipboard br (message request))
                = [FetchCall (dataUrl (message request));
                   ClipboardWrite [(blob_type blob, blob)];
                   ConsoleError reason])
        /\ (forall reason,
              clipboard_write br [(blob_type blob, blob)] = Threw reason ->
              floating (copyToClipboard br (message request))
              = [FetchCall (dataUrl (message request));
                 UnhandledRejection reason]))
  /\ (forall reason,
        fetch br (dataUrl (message request)) = Rejected reason ->
        floating (copyToClipboard br (message request))
        = [FetchCall (dataUrl (message request)); UnhandledRejection reason])
  /\ (forall response reason,
        fetch br (dataUrl (message request)) = Fulfilled response ->
        response_blob br response = Rejected reason ->
        floating (copyToClipboard br (message request))
        = [FetchCall (dataUrl (message request)); UnhandledRejection reason]).
Proof.
  intros Hroot Hsender Hcmd.
  rewrite (messageListener_dispatch br hp pg request Hroot Hsender). cbv zeta.
  rewrite Hcmd. simpl. split; [done|]. split; [|split].
  - intros response blob Hfetch Hblob.
    unfold noRejectionEscapes, copyToClipboard, then_, catch_, floating.
    rewrite Hfetch, Hblob. simpl. split.
    + intros promise ->. split.
      * intros reason.
        destruct promise as [[]| |]; simpl; intros Hin;
          repeat (apply elem_of_cons in Hin as [Hin|Hin]; [discriminate|]);
          inversion Hin.
      * by intros reason ->.
    + by intros reason ->.
  - intros reason Hfetch. by apply copyToClipboard_fetch_rejected.
  - intros response reason Hfetch Hblob.
    unfold copyToClipboard, then_, floating. by rewrite Hfetch, Hblob.
Qed.

End ContentScriptProperties.

(** * The model at work: concrete pages *)

Definition movie : VideoElement :=
  mkVideo 1 "https://media.example/movie.mp4" [].

Definition trailer : VideoElement :=
  mkVideo 2 "" [mkChild "TRACK" "subs.vtt"; mkChild "SOURCE" "trailer.webm"].

Definition placeholder : VideoElement := mkVideo 3 "" [mkChild "SOURCE" ""].

(** A page delegate that excludes every video element. *)
Definition ignoreAll : PageDelegate := mkDelegate (fun _ => true).

(** A browser whose network is down and whose image transformer answers. *)
Definition offlineBrowser : @Browser Z :=
  mkBrowser (fun _ => mkRect 100%Z 50%Z 640%Z 360%Z)
    (fun _ => Rejected "TypeError: Failed to fetch")
    (fun _ => Pending)
    (fun _ => Gave Pending)
    (fun _ _ _ _ => Fulfilled "data:image/jpeg;base64,AAAA").

(** A browser that fetches, and whose clipboard refuses the write. *)
Definition lockedClipboardBrowser : @Browser Z :=
  mkBrowser (fun _ => mkRect 100%Z 50%Z 640%Z 360%Z)
    (fun url => Fulfilled (mkResponse url))
    (fun response => Fulfilled (mkBlob "image/png" (response_body response)))
    (fun _ => Gave (Rejected "NotAllowedError: Document is not focused"))
    (fun _ _ _ _ => Pending).

(** A browser that fetches, on a page outside a secure context:
    [navigator.clipboard] is undefined. *)
Definition insecureBrowser : @Browser Z :=
  mkBrowser (fun _ => mkRect 100%Z 50%Z 640%Z 360%Z)
    (fun url => Fulfilled (mkResponse url))
    (fun response => Fulfilled (mkBlob "image/png" (response_body response)))
    (fun _ => Threw "TypeError: Cannot read properties of undefined")
    (fun _ _ _ _ => Pending).

(** The root document of a page with one video, after the child frame [7]
    announced itself from the iframe element [3]. *)
Definition rootPage : @Page Z nat _ _ :=
  run Z.add (bind true None 0 [movie]) [FrameAnnounced 7 3].

(** A child document with one video. *)
Definition childPage : @Page Z nat _ _ := bind false None 7 [movie].

Definition envelopeHeap : gmap loc (@Rect Z) :=
  {[ 1%positive := mkRect 10%Z 20%Z 300%Z 200%Z ]}.

Definition cropRequest (fid : option nat) : @Request Z nat :=
  mkRequest (Some "asbplayer-extension-to-video")
    (mkMessage "crop-and-resize" "data:image/png;base64,BBBB" 320%Z 240%Z
       1%positive fid)
    None.

Definition copyRequest : @Request Z nat :=
  mkRequest (Some "asbplayer-extension-to-video")
    (mkMessage "copy-to-clipboard" "data:image/png;base64,BBBB" 0%Z 0%Z
       1%positive None)
    None.

Example hasValidVideoSource_examples :
  hasValidVideoSource movie = true
  /\ hasValidVideoSource trailer = true
  /\ hasValidVideoSource placeholder = false.
Proof. by vm_compute. Qed.

Example discovery_demo :
  let pg := run Z.add (bind (FrameId:=nat) false None 7 [movie; placeholder])
              [Tick [movie; trailer]; Tick [trailer]; Tick []] in
  tracked pg = []
  /\ log pg
     = [BindingBound 0; BroadcasterBind; SetInterval; SelectControllerBind;
        AddMessageListener;
        BindingBound 1; BroadcasterBind;
        BindingUnbound 0; BroadcasterBind;
        BindingUnbound 1; BroadcasterUnbind].
Proof. by vm_compute. Qed.

Example teardown_demo :
  let pg := run Z.add (bind (FrameId:=nat) true None 0 [movie; trailer])
              [Tick [trailer]; BeforeUnload; Tick [movie]; BeforeUnload] in
  bindings pg = []
  /\ (boundCalls 0 (log pg), unbindCalls 0 (log pg)) = (1, 1)
  /\ (boundCalls 1 (log pg), unbindCalls 1 (log pg)) = (1, 1)
  /\ (boundCalls 2 (log pg), unbindCalls 2 (log pg)) = (0, 0).
Proof. by vm_compute. Qed.

Example key_binding_demo :
  let pg := run Z.add rootPage
              [Deliver offlineBrowser ∅
                 (mkRequest (Some "asbplayer-extension-to-video")
                    (mkMessage "settings-updated" "" 0%Z 0%Z 1%positive None) None);
               KeyBindSetSettled (Some "ctrl+b");
               KeyBindSetSettled (Some "ctrl+m")] in
  activeKeyBindings (log pg) = [1]
  /\ filter (fun e => keyEvent e = true) (log pg)
     = [KeyInstall 0 "ctrl+b"; KeyRelease 0; KeyInstall 1 "ctrl+m"].
Proof. by vm_compute. Qed.

Example key_setting_rejected_demo :
  let pg := run Z.add rootPage [KeyBindSetSettled None; KeyBindSetSettled None] in
  log pg = log rootPage ++ [UnhandledRejection "keyBindSet"]
  /\ activeKeyBindings (log pg) = []
  /\ pendingKeyBindSet pg = 0.
Proof. by vm_compute. Qed.

Example messageListenerAny_demo :
  messageListenerAny Z.add offlineBrowser envelopeHeap rootPage RequestNullish
  = Throws
  /\ messageListenerAny Z.add offlineBrowser envelopeHeap childPage RequestNullish
     = Returns (RetUndefined, childPage, envelopeHeap)
  /\ messageListenerAny Z.add offlineBrowser envelopeHeap rootPage RequestPrimitive
     = Returns (RetUndefined, rootPage, envelopeHeap)
  /\ messageListenerAny Z.add offlineBrowser envelopeHeap rootPage
       (RequestObject (Some "asbplayer-extension-to-video") MessageNullish None)
     = Throws
  /\ messageListenerAny Z.add offlineBrowser envelopeHeap rootPage
       (RequestObject (Some "someone-else") MessageNullish None)
     = Returns (RetUndefined, rootPage, envelopeHeap)
  /\ messageListenerAny Z.add offlineBrowser envelopeHeap rootPage
       (RequestObject (Some "asbplayer-extension-to-video") MessagePrimitive None)
     = Returns (RetUndefined, rootPage, envelopeHeap)
  /\ messageListenerAny Z.add offlineBrowser ∅ rootPage
       (RequestObject (request_sender (cropRequest (Some 7)))
          (MessageObject (message (cropRequest (Some 7)))) None)
     = Throws.
Proof. by vm_compute. Qed.

(** C1, as stated, fails: on a page whose delegate excludes the video, the
    startup pass tracks nothing although the document holds a valid video
    element. *)
Lemma tracksExactlyValid_counterexample :
  ~ tracksExactlyValid [movie] (@bind Z nat _ _ true (Some ignoreAll) 0 [movie]).
Proof.
  intros [_ Hiff].
  assert (Hin : 1 ∈ tracked (@bind Z nat _ _ true (Some ignoreAll) 0 [movie])).
  { apply Hiff. exists movie. split; [apply list_elem_of_here|]. by split. }
  vm_compute in Hin. inversion Hin.
Qed.

(** C8, as stated, fails: when the fetch of the data URL rejects, the
    rejection reaches the end of the chain with no handler. *)
Lemma noRejectionEscapes_counterexample :
  ~ noRejectionEscapes offlineBrowser (message copyRequest).
Proof.
  intros Hnone. apply (Hnone "TypeError: Failed to fetch").
  vm_compute. apply list_elem_of_further, list_elem_of_here.
Qed.

Example copyToClipboard_offline :
  messageListener Z.add offlineBrowser envelopeHeap rootPage copyRequest
  = Returns (RetUndefined,
             emit [FetchCall "data:image/png;base64,BBBB";
                   UnhandledRejection "TypeError: Failed to fetch"] rootPage,
             envelopeHeap).
Proof. by vm_compute. Qed.

Lemma messageListener_gate_witness :
  messageListener Z.add offlineBrowser envelopeHeap childPage (cropRequest None)
  = Returns (RetUndefined, childPage, envelopeHeap).
Proof.
  apply (messageListener_gate Z.add offlineBrowser envelopeHeap childPage (cropRequest None)).
  left. reflexivity.
Defined.

Lemma cropAndResize_rect_translation_witness :
  exists pg' hp' l rest,
    messageListener Z.add offlineBrowser envelopeHeap rootPage (cropRequest (Some 7))
    = Returns (RetTrue, pg', hp')
    /\ log pg' = log rootPage
                 ++ CropAndResizeCall 320%Z 240%Z l "data:image/png;base64,BBBB" :: rest
    /\ hp' !! l = Some (mkRect 110%Z 70%Z 300%Z 200%Z).
Proof.
  destruct (cropAndResize_rect_translation Z.add offlineBrowser envelopeHeap rootPage
              (cropRequest (Some 7)) (mkRect 10%Z 20%Z 300%Z 200%Z))
    as [_ Hregistered]; [reflexivity..|].
  apply (Hregistered 7 3); [reflexivity|].
  eexists _, _. repeat split; reflexivity.
Defined.

Lemma unregistered_frame_falls_back_witness :
  messageListener Z.add offlineBrowser envelopeHeap rootPage (cropRequest (Some 9))
  = Returns (RetTrue,
             emit [CropAndResizeCall 320%Z 240%Z 1%positive "data:image/png;base64,BBBB";
                   SendResponse "data:image/jpeg;base64,AAAA"] rootPage,
             envelopeHeap)
  /\ messageListener Z.add offlineBrowser envelopeHeap rootPage (cropRequest (Some 9))
     = messageListener Z.add offlineBrowser envelopeHeap rootPage (cropRequest None).
Proof.
  apply (unregistered_frame_falls_back Z.add offlineBrowser envelopeHeap rootPage
           (cropRequest (Some 9)) 9); try reflexivity.
  intros iframe (fl & registry & Hfl & Hregistry & Hlookup).
  vm_compute in Hfl. injection Hfl as <-.
  vm_compute in Hregistry. injection Hregistry as <-.
  vm_compute in Hlookup. discriminate.
Defined.

Lemma cropAndResize_keeps_envelope_witness :
  exists ret pg' hp',
    messageListener Z.add offlineBrowser envelopeHeap rootPage (cropRequest (Some 7))
    = Returns (ret, pg', hp')
    /\ hp' !! 1%positive = Some (mkRect 10%Z 20%Z 300%Z 200%Z)
    /\ hp' !! 2%positive = Some (mkRect 110%Z 70%Z 300%Z 200%Z).
Proof.
  destruct (messageListener Z.add offlineBrowser envelopeHeap rootPage (cropRequest (Some 7)))
    as [[[ret pg'] hp']| |] eqn:Hm; [|vm_compute in Hm; discriminate..].
  exists ret, pg', hp'. split; [reflexivity|].
  destruct (cropAndResize_keeps_envelope Z.add offlineBrowser envelopeHeap rootPage
              (cropRequest (Some 7)) ret pg' hp' Hm) as (Hrect & _ & _).
  split; [exact Hrect|].
  vm_compute in Hm. injection Hm as _ _ <-. reflexivity.
Defined.

Lemma copyToClipboard_write_failure_logged_witness :
  messageListener Z.add lockedClipboardBrowser envelopeHeap rootPage copyRequest
  = Returns (RetUndefined,
             emit [FetchCall "data:image/png;base64,BBBB";
                   ClipboardWrite
                     [("image/png", mkBlob "image/png" "data:image/png;base64,BBBB")];
                   ConsoleError "NotAllowedError: Document is not focused"] rootPage,
             envelopeHeap)
  /\ noRejectionEscapes lockedClipboardBrowser (message copyRequest).
Proof.
  destruct (copyToClipboard_write_failure_logged Z.add lockedClipboardBrowser
              envelopeHeap rootPage copyRequest) as (Hret & Hchain & _);
    [reflexivity..|].
  destruct (Hchain (mkResponse "data:image/png;base64,BBBB")
              (mkBlob "image/png" "data:image/png;base64,BBBB"))
    as [Hgave _]; [reflexivity..|].
  destruct (Hgave (Rejected "NotAllowedError: Document is not focused"))
    as [Hnone Hlogged]; [reflexivity|].
  split; [|exact Hnone].
  rewrite Hret. by rewrite (Hlogged "NotAllowedError: Document is not focused").
Defined.

Example copyToClipboard_insecure :
  messageListener Z.add insecureBrowser envelopeHeap rootPage copyRequest
  = Returns (RetUndefined,
             emit [FetchCall "data:image/png;base64,BBBB";
                   UnhandledRejection
                     "TypeError: Cannot read properties of undefined"] rootPage,
             envelopeHeap).
Proof. by vm_compute. Qed.

(** * Further properties of the content script *)

Section ContentScriptFurther.

Context {num : Type} (add : num -> num -> num).
Context {FrameId : Type} `{Countable FrameId}.

Abbreviation Page := (@Page num FrameId _ _).
Abbreviation Event := (@Event num FrameId).
Abbreviation Binding := (@Binding FrameId).

(** *** Valid sources *)

Lemma truthy_spec (s : string) : truthy s = true <-> s <> "".
Proof.
  unfold truthy. rewrite negb_true_iff.
  destruct (String.eqb_spec s ""); split; congruence.
Qed.

Lemma anySourceChild_spec (elms : list ChildElement) :
  anySourceChild elms = true <->
  exists elm, elm ∈ elms /\ tagName elm = "SOURCE" /\ source_src elm <> "".
Proof.
  induction elms as [|elm rest IH]; cbn [anySourceChild].
  - split; [done|]. by intros (elm & []%not_elem_of_nil & _).
  - destruct (String.eqb_spec "SOURCE" (tagName elm)) as [Htag|Htag]; cbn [andb].
    + destruct (truthy (source_src elm)) eqn:Hsrc.
      * split; [|done]. intros _. exists elm.
        split; [apply list_elem_of_here|]. split; [done|]. by apply truthy_spec.
      * rewrite IH. split.
        -- intros (c & Hc & ?). exists c. split; [by apply list_elem_of_further|done].
        -- intros (c & [->|Hc]%elem_of_cons & Ht & Hs); [|by exists c].
           apply truthy_spec in Hs. congruence.
    + rewrite IH. split.
      * intros (c & Hc & ?). exists c. split; [by apply list_elem_of_further|done].
      * intros (c & [->|Hc]%elem_of_cons & Ht & Hs); [congruence|by exists c].
Qed.

(** X1: [hasValidVideoSource] holds exactly for a video element with a
    non-empty [src], or with some child whose tag is [SOURCE] and whose
    [src] is non-empty; other children and the order of the children do not
    matter. *)
Theorem hasValidVideoSource_spec (videoElement : VideoElement) :
  hasValidVideoSource videoElement = true <->
  src videoElement <> ""
  \/ exists elm, elm ∈ children videoElement
                 /\ tagName elm = "SOURCE" /\ source_src elm <> "".
Proof.
  unfold hasValidVideoSource. destruct (truthy (src videoElement)) eqn:Hsrc.
  - split; [|done]. intros _. left. by apply truthy_spec.
  - rewrite anySourceChild_spec. split; [by right|].
    intros [Hs|?]; [|done]. apply truthy_spec in Hs. congruence.
Qed.

(** *** What a discovery pass does to the bindings it finds *)

Lemma bindNew_noop videoElements (pg : Page) :
  (forall v, v ∈ videoElements -> hasValidVideoSource v = true ->
             notIgnored (page pg) v = true -> node v ∈ tracked pg) ->
  bindNew videoElements pg = pg.
Proof.
  induction videoElements as [|v rest IH]; intros Hall; simpl; [done|].
  destruct (bindingExists (bindings pg) v) eqn:Hex; simpl.
  - apply IH. intros w Hw. apply Hall. by apply list_elem_of_further.
  - destruct (hasValidVideoSource v) eqn:Hvalid; simpl.
    + destruct (notIgnored (page pg) v) eqn:Hign; simpl.
      * assert (Hin : node v ∈ tracked pg)
          by (apply Hall; [apply list_elem_of_here|done..]).
        apply bindingExists_tracked in Hin. congruence.
      * apply IH. intros w Hw. apply Hall. by apply list_elem_of_further.
    + apply IH. intros w Hw. apply Hall. by apply list_elem_of_further.
Qed.

Lemma removeStale_noop videoElements n (pg : Page) :
  (forall b, b ∈ bindings pg -> videoElementExists videoElements b = true) ->
  removeStale videoElements n pg = pg.
Proof.
  intros Hall. induction n as [|i IH]; simpl; [done|].
  destruct (bindings pg !! i) as [b|] eqn:Hb; [|done].
  by rewrite (Hall b) by by eapply list_elem_of_lookup_2.
Qed.

(** The bindings the first loop appends: new instances, for nodes that had
    no binding, each valid and not excluded by the page delegate. *)
Lemma bindNew_bindings videoElements (pg : Page) :
  exists created,
    bindings (bindNew videoElements pg) = bindings pg ++ created
    /\ forall b, b ∈ created ->
         (nextBinding pg <= bid b)
         /\ (video b ∉ tracked pg)
         /\ binding_frameId b = (broadcaster_frameId <$> frameInfoBroadcaster pg)
         /\ subSyncAvailable b = match page pg with Some _ => true | None => false end
         /\ exists v, v ∈ videoElements /\ node v = video b
                      /\ hasValidVideoSource v = true
                      /\ notIgnored (page pg) v = true.
Proof.
  revert pg. induction videoElements as [|v rest IH]; intros pg; simpl.
  - exists []. split; [by rewrite app_nil_r|]. by intros b ?%not_elem_of_nil.
  - destruct (bindingExists (bindings pg) v) eqn:Hex; simpl.
    { destruct (IH pg) as (created & Hbs & Hcr). exists created. split; [done|].
      intros b Hb. destruct (Hcr b Hb) as (? & ? & ? & ? & w & ? & ?).
      repeat split; try done. exists w. split; [by apply list_elem_of_further|done]. }
    destruct (hasValidVideoSource v) eqn:Hvalid; simpl.
    2:{ destruct (IH pg) as (created & Hbs & Hcr). exists created. split; [done|].
        intros b Hb. destruct (Hcr b Hb) as (? & ? & ? & ? & w & ? & ?).
        repeat split; try done. exists w. split; [by apply list_elem_of_further|done]. }
    destruct (notIgnored (page pg) v) eqn:Hign; simpl.
    2:{ destruct (IH pg) as (created & Hbs & Hcr). exists created. split; [done|].
        intros b Hb. destruct (Hcr b Hb) as (? & ? & ? & ? & w & ? & ?).
        repeat split; try done. exists w. split; [by apply list_elem_of_further|done]. }
    destruct (IH (pushBinding v pg)) as (created & Hbs & Hcr). simpl in Hbs.
    eexists (_ :: created). split; [by rewrite Hbs, <- app_assoc|].
    intros b [->|Hb]%elem_of_cons.
    + simpl. repeat split; try done.
      * intros Hin. apply bindingExists_tracked in Hin. congruence.
      * exists v. split; [apply list_elem_of_here|done].
    + destruct (Hcr b Hb) as (Hge & Hnew & Hfid & Hsync & w & Hw & Hrest).
      simpl in Hge, Hnew, Hfid, Hsync, Hrest. repeat split; try done.
      * lia.
      * intros Hin. apply Hnew. unfold tracked. simpl. rewrite map_app.
        apply elem_of_app. by left.
      * exists w. split; [by apply list_elem_of_further|done].
Qed.

Lemma filter_all {A : Type} (P : A -> Prop) `{forall x, Decision (P x)} (l : list A) :
  (forall x, x ∈ l -> P x) -> filter P l = l.
Proof.
  induction l as [|x l IH]; intros Hall; [done|].
  rewrite filter_cons, decide_True by (apply Hall, list_elem_of_here).
  f_equal. apply IH. intros y Hy. by apply Hall, list_elem_of_further.
Qed.

Lemma filter_agree {A : Type} (P Q : A -> Prop)
    `{forall x, Decision (P x)} `{forall x, Decision (Q x)} (l : list A) :
  (forall x, x ∈ l -> P x <-> Q x) -> filter P l = filter Q l.
Proof.
  induction l as [|x l IH]; intros Hall; [done|].
  rewrite !filter_cons.
  assert (Hx : P x <-> Q x) by apply Hall, list_elem_of_here.
  rewrite IH by (intros y Hy; by apply Hall, list_elem_of_further).
  destruct (decide (P x)), (decide (Q x)); tauto.
Qed.

Lemma tick_sound videoElements (pg : Page) b :
  b ∈ bindings (bindToVideoElements videoElements pg) ->
  videoElementExists videoElements b = true.
Proof.
  rewrite bindToVideoElements_bindings. by intros [? _]%list_elem_of_filter.
Qed.

Lemma tick_complete videoElements (pg : Page) v :
  v ∈ videoElements -> hasValidVideoSource v = true ->
  notIgnored (page pg) v = true ->
  node v ∈ tracked (bindToVideoElements videoElements pg).
Proof.
  intros Hv Hvalid Hnot.
  assert (Hin : node v ∈ tracked (bindNew videoElements pg)).
  { apply bindNew_tracked. right. by exists v. }
  unfold tracked in *. rewrite bindToVideoElements_bindings.
  apply list_elem_of_fmap in Hin as (b & Hnode & Hb).
  apply list_elem_of_fmap. exists b. split; [done|].
  apply list_elem_of_filter. split; [|done].
  apply videoElementExists_spec. exists v. by rewrite <- Hnode.
Qed.

(** X2: a discovery pass over a document it has just reconciled creates
    and destroys nothing: the second pass only repeats the broadcaster
    call. *)
Theorem tick_idempotent videoElements (pg : Page) :
  bindToVideoElements videoElements (bindToVideoElements videoElements pg)
  = updateBroadcaster (bindToVideoElements videoElements pg).
Proof.
  destruct (tick_fields videoElements pg) as (_ & _ & Hpage & _).
  set (pg1 := bindToVideoElements videoElements pg) in *.
  unfold bindToVideoElements at 1. cbv zeta.
  rewrite (bindNew_noop videoElements pg1).
  - by rewrite removeStale_noop by apply tick_sound.
  - intros v Hv Hvalid Hnot. rewrite Hpage in Hnot. by apply tick_complete.
Qed.

(** X3: a discovery pass keeps, in their order and as the same instances,
    exactly the bindings whose element is still enumerated with a valid
    source, and appends the bindings it creates, which are new instances for
    nodes that had no binding. *)
Theorem tick_keeps_valid_bindings videoElements (pg : Page) :
  exists created,
    bindings (bindToVideoElements videoElements pg)
    = filter (fun b => videoElementExists videoElements b = true) (bindings pg)
      ++ created
    /\ (forall b, b ∈ created ->
          nextBinding pg <= bid b /\ video b ∉ tracked pg)
    /\ (forall b, b ∈ bindings pg ->
          b ∈ bindings (bindToVideoElements videoElements pg) <->
          exists v, v ∈ videoElements /\ node v = video b
                    /\ hasValidVideoSource v = true).
Proof.
  destruct (bindNew_bindings videoElements pg) as (created & Hbs & Hcr).
  assert (Heq : bindings (bindToVideoElements videoElements pg)
                = filter (fun b => videoElementExists videoElements b = true) (bindings pg)
                  ++ created).
  { rewrite bindToVideoElements_bindings, Hbs, filter_app. f_equal.
    apply filter_all. intros b Hb.
    destruct (Hcr b Hb) as (_ & _ & _ & _ & v & Hv & Hnode & Hvalid & _).
    apply videoElementExists_spec. by exists v. }
  exists created. split; [done|]. split.
  - intros b Hb. by destruct (Hcr b Hb) as (? & ? & _).
  - intros b Hb. rewrite Heq, elem_of_app, list_elem_of_filter,
      <- videoElementExists_spec.
    split; [|by left].
    intros [[? _]|Hin]; [done|].
    destruct (Hcr b Hin) as (_ & Hnew & _). destruct Hnew.
    apply list_elem_of_fmap. by exists b.
Qed.

Lemma bindNew_order videoElements (pg : Page) :
  NoDup (map node videoElements) ->
  tracked (bindNew videoElements pg)
  = tracked pg
    ++ map node
         (filter (fun v => (node v ∉ tracked pg) /\ hasValidVideoSource v = true
                           /\ notIgnored (page pg) v = true) videoElements).
Proof.
  revert pg. induction videoElements as [|v rest IH]; intros pg Hnd; simpl.
  - by rewrite app_nil_r.
  - apply NoDup_cons in Hnd as [Hv Hnd]. rewrite filter_cons.
    destruct (bindingExists (bindings pg) v) eqn:Hex; simpl.
    { apply bindingExists_tracked in Hex. rewrite decide_False by tauto. by apply IH. }
    assert (Hnew : node v ∉ tracked pg).
    { intros Hin. apply bindingExists_tracked in Hin. congruence. }
    destruct (hasValidVideoSource v) eqn:Hvalid; simpl.
    2:{ rewrite ?decide_False by (intros (_ & ? & _); done). by apply IH. }
    destruct (notIgnored (page pg) v) eqn:Hign; simpl.
    2:{ rewrite ?decide_False by (intros (_ & _ & ?); done). by apply IH. }
    rewrite ?decide_True by done. rewrite IH by done.
    assert (Htr : tracked (pushBinding v pg) = tracked pg ++ [node v])
      by (unfold tracked; simpl; by rewrite map_app).
    rewrite Htr. simpl. rewrite <- app_assoc. simpl. do 3 f_equal.
    apply filter_agree. intros w Hw.
    rewrite not_elem_of_app, list_elem_of_singleton.
    assert (node w <> node v).
    { intros Heq. apply Hv. rewrite <- Heq. apply list_elem_of_fmap. by exists w. }
    tauto.
Qed.

(** X4: at startup the bindings are made in document order, one for each
    video element that is valid and not excluded by the page delegate. *)
Theorem bind_tracks_in_document_order
    isParent delegate (fid : FrameId) videoElements :
  NoDup (map node videoElements) ->
  tracked (bind isParent delegate fid videoElements : Page)
  = map node
      (filter (fun v => hasValidVideoSource v = true /\ notIgnored delegate v = true)
         videoElements).
Proof.
  intros Hnd.
  destruct (bind_fields (num:=num) isParent delegate fid videoElements)
    as (_ & _ & Hbs & _).
  unfold tracked at 1. rewrite Hbs.
  set (pg0 := mkPage isParent delegate [] 0 _ _ None 0 0 false false _).
  rewrite bindToVideoElements_bindings.
  rewrite filter_all.
  2:{ intros b Hb. apply (tick_sound videoElements pg0).
      rewrite bindToVideoElements_bindings. apply list_elem_of_filter. split; [|done].
      destruct (bindNew_bindings videoElements pg0) as (created & Hcr & Hprops).
      simpl in Hcr. rewrite Hcr in Hb.
      destruct (Hprops b Hb) as (_ & _ & _ & _ & v & ? & ? & ? & _).
      apply videoElementExists_spec. by exists v. }
  fold (tracked (bindNew videoElements pg0)). rewrite bindNew_order by done.
  simpl. f_equal. apply filter_agree. intros v _. split; [tauto|].
  intros [? ?]. split; [apply not_elem_of_nil|done].
Qed.

(** *** Root and child documents keep to their roles *)

Definition broadcasterEvent (e : Event) : bool :=
  match e with
  | BroadcasterBind | BroadcasterUnbind => true
  | _ => false
  end.

(** Events only the root document can cause: the frame-info listener, the
    side-panel key binding and everything a command handler does. *)
Definition rootOnlyEvent (e : Event) : bool :=
  match e with
  | ListenerBind | ListenerUnbind | GetSingleKeyBindSet | KeyInstall _ _
  | KeyRelease _ | FetchCall _ | ClipboardWrite _ | ConsoleError _
  | CropAndResizeCall _ _ _ _ | SendResponse _ | AnkiShow _
  | AnkiUpdateSettings | UnhandledRejection _ => true
  | _ => false
  end.

Definition roleEvent (isParent : bool) (e : Event) : Prop :=
  if isParent then broadcasterEvent e = false else rootOnlyEvent e = false.

(** What [bind()] fixes for the life of the page. *)
Definition keepsRole (isParent : bool) (delegate : option PageDelegate)
    (fid : FrameId) (pg : Page) : Prop :=
  isParentDocument pg = isParent
  /\ page pg = delegate
  /\ (broadcaster_frameId <$> frameInfoBroadcaster pg)
     = (if isParent then None else Some fid)
  /\ (isParent = false ->
      frameInfoListener pg = None /\ unbindToggleSidePanel pg = None
      /\ pendingKeyBindSet pg = 0)
  /\ (forall b, b ∈ bindings pg ->
        binding_frameId b = (if isParent then None else Some fid)
        /\ subSyncAvailable b = match delegate with Some _ => true | None => false end)
  /\ Forall (roleEvent isParent) (log pg).

Lemma bindNew_events videoElements (pg : Page) :
  exists es, log (bindNew videoElements pg) = log pg ++ es
             /\ Forall (fun e => bindingEvent e = true) es.
Proof.
  revert pg. induction videoElements as [|v rest IH]; intros pg; simpl.
  - exists []. by rewrite app_nil_r.
  - destruct (_ && _); [|apply IH].
    destruct (IH (pushBinding v pg)) as (es & Hlog & Hq). simpl in Hlog.
    eexists. rewrite Hlog, <- app_assoc. split; [done|]. by constructor.
Qed.

Lemma removeStale_events videoElements n (pg : Page) :
  exists es, log (removeStale videoElements n pg) = log pg ++ es
             /\ Forall (fun e => bindingEvent e = true) es.
Proof.
  revert pg. induction n as [|i IH]; intros pg; simpl.
  - exists []. by rewrite app_nil_r.
  - destruct (bindings pg !! i) as [b|]; [|apply IH].
    destruct (videoElementExists videoElements b); [apply IH|].
    match goal with |- context [removeStale _ _ ?q] =>
      destruct (IH q) as (es & Hlog & Hq) end.
    simpl in Hlog. eexists. rewrite Hlog, <- app_assoc. split; [done|]. by constructor.
Qed.

Lemma tick_events videoElements (pg : Page) :
  frameInfoListener (bindToVideoElements videoElements pg) = frameInfoListener pg
  /\ pendingKeyBindSet (bindToVideoElements videoElements pg) = pendingKeyBindSet pg
  /\ (broadcaster_frameId <$> frameInfoBroadcaster (bindToVideoElements videoElements pg))
     = (broadcaster_frameId <$> frameInfoBroadcaster pg)
  /\ exists es,
       log (bindToVideoElements videoElements pg) = log pg ++ es
       /\ Forall (fun e => bindingEvent e = true
                           \/ (broadcasterEvent e = true
                               /\ is_Some (frameInfoBroadcaster pg))) es.
Proof.
  unfold bindToVideoElements. cbv zeta.
  destruct (bindNew_page videoElements pg) as (_ & _ & Hb1 & Hl1 & _ & _ & Hp1 & _).
  destruct (bindNew_events videoElements pg) as (es1 & Hlog1 & Hq1).
  match goal with |- context [removeStale ?d ?n ?q] =>
    destruct (removeStale_page d n q) as (_ & _ & Hb2 & Hl2 & _ & _ & Hp2 & _);
    destruct (removeStale_events d n q) as (es2 & Hlog2 & Hq2);
    generalize dependent (removeStale d n q) end.
  intros q Hb2 Hl2 Hp2 Hlog2. unfold updateBroadcaster.
  rewrite Hb2, Hb1. rewrite Hlog1 in Hlog2.
  assert (Hlift : forall es : list Event,
    Forall (fun e => bindingEvent e = true) es ->
    Forall (fun e : Event => bindingEvent e = true
              \/ (broadcasterEvent e = true /\ is_Some (frameInfoBroadcaster pg))) es).
  { intros es Hq. eapply Forall_impl; [exact Hq|]. by left. }
  apply Hlift in Hq1, Hq2.
  destruct (frameInfoBroadcaster pg) as [bc|] eqn:Hbc.
  - destruct (_ =? _); simpl; rewrite Hl2, Hl1, Hp2, Hp1, Hlog2;
      (split; [done|]); (split; [done|]); (split; [done|]);
      eexists; (split; [by rewrite <- !app_assoc|]);
      repeat (apply Forall_app_2; [done|]);
      (constructor; [right; split; eauto|constructor]).
  - rewrite Hl2, Hl1, Hp2, Hp1, Hlog2.
    split; [done|]. split; [done|]. split; [by rewrite ?Hb2, ?Hb1, ?Hbc|].
    exists (es1 ++ es2). rewrite app_assoc.
    split; [done|]. by apply Forall_app_2.
Qed.

Lemma messageListener_events br hp (pg : Page) request r pg' hp' :
  messageListener add br hp pg request = Returns (r, pg', hp') ->
  pendingKeyBindSet pg <= pendingKeyBindSet pg'
  /\ exists es, log pg' = log pg ++ es
                /\ Forall (fun e => rootOnlyEvent e = true) es
                /\ (isParentDocument pg = false -> pg' = pg).
Proof.
  unfold messageListener.
  assert (Hsame : forall q : Page, q = pg ->
    pendingKeyBindSet pg <= pendingKeyBindSet q
    /\ exists es, log q = log pg ++ es
                  /\ Forall (fun e => rootOnlyEvent e = true) es
                  /\ (isParentDocument pg = false -> q = pg)).
  { intros q ->. split; [done|]. exists []. by rewrite app_nil_r. }
  destruct (isParentDocument pg); simpl; [|intros [= _ <- _]; by apply Hsame].
  destruct (negb (bool_decide _)); [intros [= _ <- _]; by apply Hsame|].
  destruct (String.eqb _ "copy-to-clipboard").
  { intros [= _ <- _]. simpl. split; [done|]. eexists. split; [done|].
    split; [|done].
    unfold copyToClipboard, then_, catch_, floating.
    destruct (fetch br _) as [response| |]; [|by repeat constructor..].
    destruct (response_blob br _) as [blob| |]; [|by repeat constructor..].
    destruct (clipboard_write br _) as [reason|[[]| |]]; by repeat constructor. }
  destruct (String.eqb _ "crop-and-resize").
  { rewrite cropAndResizeHandler_unfold.
    destruct (captureRect add br hp pg (message request)) as [[l hp1]| |]; [|done..].
    intros [= _ <- _]. simpl. split; [done|]. eexists. split; [done|].
    split; [|done]. destruct (cropAndResize br _ _ _ _); by repeat constructor. }
  destruct (String.eqb _ "show-anki-ui").
  { intros [= _ <- _]. destruct (request_src request); [by apply Hsame|].
    simpl. split; [done|]. eexists. split; [done|]. split; [|done].
    by repeat constructor. }
  destruct (String.eqb _ "settings-updated").
  { intros [= _ <- _]. simpl. split; [lia|]. eexists.
    rewrite <- app_assoc. split; [done|]. split; [|done]. by repeat constructor. }
  intros [= _ <- _]. by apply Hsame.
Qed.

Lemma rootOnly_not_broadcaster (e : Event) :
  rootOnlyEvent e = true -> broadcasterEvent e = false.
Proof. by destruct e. Qed.

Lemma binding_not_role (isParent : bool) (e : Event) :
  bindingEvent e = true -> roleEvent isParent e.
Proof. destruct e, isParent; done. Qed.

Lemma keepsRole_ext isParent delegate (fid : FrameId) (pg pg' : Page) es :
  isParentDocument pg' = isParentDocument pg ->
  page pg' = page pg ->
  (broadcaster_frameId <$> frameInfoBroadcaster pg')
  = (broadcaster_frameId <$> frameInfoBroadcaster pg) ->
  (isParent = false ->
   frameInfoListener pg' = frameInfoListener pg
   /\ unbindToggleSidePanel pg' = unbindToggleSidePanel pg
   /\ pendingKeyBindSet pg' = pendingKeyBindSet pg) ->
  (forall b, b ∈ bindings pg' -> b ∈ bindings pg) ->
  log pg' = log pg ++ es ->
  Forall (roleEvent isParent) es ->
  keepsRole isParent delegate fid pg -> keepsRole isParent delegate fid pg'.
Proof.
  intros Hpar Hpage Hbc Hchild Hbs Hlog Hes (Hp & Hd & Hf & Hc & Hb & Hl).
  unfold keepsRole. rewrite Hpar, Hpage, Hbc, Hlog.
  split; [done|]. split; [done|]. split; [done|]. split; [|split].
  - intros Hi. destruct (Hchild Hi) as (-> & -> & ->). by apply Hc.
  - intros b Hin. by apply Hb, Hbs.
  - by apply Forall_app_2.
Qed.

Lemma keepsRole_tick isParent delegate (fid : FrameId) videoElements (pg : Page) :
  keepsRole isParent delegate fid pg ->
  keepsRole isParent delegate fid (bindToVideoElements videoElements pg).
Proof.
  intros (Hp & Hd & Hf & Hc & Hb & Hl).
  destruct (tick_fields videoElements pg) as (Hpar & _ & Hpage & _).
  destruct (tick_keys videoElements pg) as (Hrel & _).
  destruct (tick_events videoElements pg) as (Hlis & Hpend & Hfid & es & Hlog & Hes).
  unfold keepsRole. rewrite Hpar, Hpage, Hfid, Hlis, Hrel, Hpend, Hlog.
  split; [done|]. split; [done|]. split; [done|]. split; [done|]. split.
  - intros b Hin. rewrite bindToVideoElements_bindings in Hin.
    apply list_elem_of_filter in Hin as [_ Hin].
    destruct (bindNew_bindings videoElements pg) as (created & Hbs & Hcr).
    rewrite Hbs in Hin. apply elem_of_app in Hin as [Hin|Hin]; [by apply Hb|].
    destruct (Hcr b Hin) as (_ & _ & Hbf & Hsync & _).
    rewrite Hbf, Hsync, Hf, Hd. done.
  - apply Forall_app_2; [done|]. eapply Forall_impl; [exact Hes|].
    intros e [Hbind|[Hbroad Hsome]]; [by apply binding_not_role|].
    destruct isParent; simpl.
    + destruct Hsome as [bc Hbc]. rewrite Hbc in Hf. done.
    + by destruct e.
Qed.

Lemma keepsRole_step isParent delegate (fid : FrameId) (pg : Page)
    (s : Step (num:=num)) :
  keepsRole isParent delegate fid pg ->
  keepsRole isParent delegate fid (step add pg s).
Proof.
  intros Hk. pose proof Hk as (Hp & Hd & Hf & Hc & Hb & Hl).
  destruct s as [videoElements|br hp request|[keyBindSet|]|fid' iframe|]; simpl.
  - destruct (videoInterval pg); [by apply keepsRole_tick|done].
  - destruct (listening pg); [|done].
    destruct (messageListener add br hp pg request) as [[[r pg'] hp']| |] eqn:Hm;
      [|done..].
    pose proof (messageListener_events _ _ _ _ _ _ _ Hm) as (_ & es & Hlog & Hes & Hchild).
    apply messageListener_frame in Hm
      as (Hbs & _ & Hpage & Hpar & _ & Hbc & _).
    destruct isParent.
    + eapply keepsRole_ext; eauto; [by rewrite Hbc|done|by intros b; rewrite Hbs|].
      eapply Forall_impl; [exact Hes|]. intros e. apply rootOnly_not_broadcaster.
    + by rewrite (Hchild Hp).
  - unfold keyBindSetResolved. destruct (pendingKeyBindSet pg) as [|n] eqn:Hpend; [done|].
    destruct isParent; [|destruct (Hc eq_refl) as (_ & _ & ?); congruence].
    eapply (keepsRole_ext true); [..|exact Hk]; try done.
    simpl. by destruct (unbindToggleSidePanel pg); repeat constructor.
  - unfold keyBindSetRejected. destruct (pendingKeyBindSet pg) as [|n] eqn:Hpend; [done|].
    destruct isParent; [|destruct (Hc eq_refl) as (_ & _ & ?); congruence].
    eapply (keepsRole_ext true); [..|exact Hk]; try done.
    simpl. by repeat constructor.
  - unfold frameAnnounced.
    destruct (frameInfoListener pg) as [[[registry|] []]|] eqn:Hfl; try done.
    eapply (keepsRole_ext _ _ _ pg _ []); [..|exact Hk]; try done.
    + intros Hi. destruct (Hc Hi) as (? & _). congruence.
    + simpl. by rewrite app_nil_r.
  - eapply keepsRole_ext; [..|exact Hk]; try done.
    + simpl. by destruct (frameInfoBroadcaster pg).
    + intros Hi. simpl. destruct (Hc Hi) as (-> & _). done.
    + by intros b ?%not_elem_of_nil.
    + simpl. apply Forall_app_2.
      * apply Forall_forall. intros e (b & -> & _)%list_elem_of_fmap.
        by apply binding_not_role.
      * destruct isParent; simpl.
        -- destruct (frameInfoBroadcaster pg); [done|].
           destruct (frameInfoListener pg), (unbindToggleSidePanel pg);
             by repeat constructor.
        -- destruct (Hc eq_refl) as (-> & -> & _).
           destruct (frameInfoBroadcaster pg); by repeat constructor.
Qed.

Lemma keepsRole_run isParent delegate (fid : FrameId) (pg : Page)
    (steps : list (Step (num:=num))) :
  keepsRole isParent delegate fid pg ->
  keepsRole isParent delegate fid (run add pg steps).
Proof.
  unfold run. revert pg. induction steps as [|s steps IH]; intros pg Hk; simpl; [done|].
  by apply IH, keepsRole_step.
Qed.

Lemma keepsRole_bind isParent delegate (fid : FrameId) videoElements :
  keepsRole isParent delegate fid (bind isParent delegate fid videoElements : Page).
Proof.
  unfold bind. cbv zeta.
  set (pg0 := mkPage isParent delegate [] 0 _ _ None 0 0 false false _).
  assert (Hk0 : keepsRole isParent delegate fid pg0).
  { unfold keepsRole. simpl. split; [done|]. split; [done|].
    split; [by destruct isParent|]. split; [by intros ->|]. split.
    - by intros b ?%not_elem_of_nil.
    - destruct isParent; by repeat constructor. }
  apply (keepsRole_tick _ _ _ videoElements) in Hk0.
  revert Hk0. generalize (bindToVideoElements videoElements pg0). intros pg1 Hk1.
  pose proof Hk1 as (Hp & Hd & Hf & Hc & Hb & Hl).
  destruct isParent.
  - eapply (keepsRole_ext _ _ _ pg1 _
              [SetInterval; SelectControllerBind; GetSingleKeyBindSet; AddMessageListener]);
      [..|exact Hk1]; try done.
    + simpl. by rewrite <- !app_assoc.
    + by repeat constructor.
  - eapply (keepsRole_ext _ _ _ pg1 _
              [SetInterval; SelectControllerBind; AddMessageListener]);
      [..|exact Hk1]; try done.
    + simpl. by rewrite <- !app_assoc.
    + by repeat constructor.
Qed.

(** X5: every binding a page ever tracks carries the frame id of the
    page's own broadcaster (none in the root document) and the
    [subSyncAvailable] flag that says whether a page delegate exists. *)
Theorem bindings_carry_role (isParent : bool) (delegate : option PageDelegate)
    (fid : FrameId) videoElements0 steps :
  Forall (fun b : Binding =>
            binding_frameId b = (if isParent then @None FrameId else Some fid)
            /\ subSyncAvailable b
               = match delegate with Some _ => true | None => false end)
    (bindings (run add (bind isParent delegate fid videoElements0) steps)).
Proof.
  pose proof (keepsRole_run _ _ _ _ steps
                (keepsRole_bind isParent delegate fid videoElements0))
    as (_ & _ & _ & _ & Hb & _).
  by apply Forall_forall.
Qed.

(** X6: the root document never has a frame-info broadcaster and never
    calls [bind()] or [unbind()] on one. *)
Theorem root_never_broadcasts delegate (fid : FrameId) videoElements0 steps :
  let pg := run add (bind true delegate fid videoElements0 : Page) steps in
  frameInfoBroadcaster pg = None
  /\ Forall (fun e => broadcasterEvent e = false) (log pg).
Proof.
  intros pg.
  pose proof (keepsRole_run _ _ _ _ steps
                (keepsRole_bind true delegate fid videoElements0))
    as (_ & _ & Hf & _ & _ & Hl).
  fold pg in Hf, Hl. split; [|done].
  by destruct (frameInfoBroadcaster pg).
Qed.

(** X7: a child document never acts on a command and never touches the
    side-panel key binding: its log holds no event of a command handler, of
    the key binder or of a frame-info listener, [unbindToggleSidePanel]
    stays undefined and no key handler is ever installed. *)
Theorem child_never_dispatches delegate (fid : FrameId) videoElements0 steps :
  let pg := run add (bind false delegate fid videoElements0 : Page) steps in
  Forall (fun e => rootOnlyEvent e = false) (log pg)
  /\ unbindToggleSidePanel pg = None
  /\ frameInfoListener pg = None
  /\ activeKeyBindings (log pg) = [].
Proof.
  intros pg.
  pose proof (keepsRole_run _ _ _ _ steps
                (keepsRole_bind false delegate fid videoElements0))
    as (_ & _ & _ & Hc & _ & Hl).
  fold pg in Hc, Hl. destruct (Hc eq_refl) as (Hfl & Hrel & _).
  simpl in Hl. split; [done|]. split; [done|]. split; [done|].
  unfold activeKeyBindings. generalize (@nil Handle).
  induction Hl as [|e es He _ IH]; intros active; simpl; [done|].
  rewrite IH. by destruct e.
Qed.

(** *** The listener, command by command *)

(** X8: the listener answers [true], which keeps the response channel
    open, exactly when it dispatches a crop-and-resize envelope; for every
    other envelope it answers [undefined]. *)
Theorem listener_answers_true_only_for_crop br hp (pg : Page) request ret pg' hp' :
  messageListener add br hp pg request = Returns (ret, pg', hp') ->
  ret = RetTrue <->
  isParentDocument pg = true
  /\ request_sender request = Some "asbplayer-extension-to-video"
  /\ command (message request) = "crop-and-resize".
Proof.
  unfold messageListener.
  destruct (isParentDocument pg); simpl; [|intros [= <- _ _]; by split; [|intros (? & _)]].
  destruct (decide (request_sender request = Some "asbplayer-extension-to-video"))
    as [Hs|Hs].
  2:{ rewrite bool_decide_eq_false_2 by done. simpl.
      intros [= <- _ _]. by split; [|intros (_ & ? & _)]. }
  rewrite bool_decide_eq_true_2 by done. simpl.
  destruct (String.eqb_spec (command (message request)) "copy-to-clipboard") as [Hc|_].
  { intros [= <- _ _]. split; [done|]. intros (_ & _ & Hcmd). by rewrite Hc in Hcmd. }
  destruct (String.eqb_spec (command (message request)) "crop-and-resize") as [Hc|Hc].
  { rewrite cropAndResizeHandler_unfold.
    destruct (captureRect _ _ _ _ _) as [[l hp1]| |]; [|done..].
    by intros [= <- _ _]. }
  destruct (String.eqb _ "show-anki-ui");
    [intros [= <- _ _]; by split; [|intros (_ & _ & ?)]|].
  destruct (String.eqb _ "settings-updated");
    intros [= <- _ _]; by split; [|intros (_ & _ & ?)].
Qed.

Lemma messageListener_throws br hp (pg : Page) request :
  messageListener add br hp pg request = Throws <->
  isParentDocument pg = true
  /\ request_sender request = Some "asbplayer-extension-to-video"
  /\ command (message request) = "crop-and-resize"
  /\ hp !! rect (message request) = None
  /\ exists fid iframe,
       frameId (message request) = Some fid /\ registered pg fid iframe.
Proof.
  unfold messageListener.
  destruct (isParentDocument pg); simpl; [|by split; [|intros (? & _)]].
  destruct (decide (request_sender request = Some "asbplayer-extension-to-video"))
    as [Hs|Hs].
  2:{ rewrite bool_decide_eq_false_2 by done. simpl. by split; [|intros (_ & ? & _)]. }
  rewrite bool_decide_eq_true_2 by done. simpl.
  destruct (String.eqb_spec (command (message request)) "copy-to-clipboard") as [Hc|_].
  { split; [done|]. intros (_ & _ & Hcmd & _). by rewrite Hc in Hcmd. }
  destruct (String.eqb_spec (command (message request)) "crop-and-resize") as [Hc|Hc].
  2:{ destruct (String.eqb _ "show-anki-ui"); [by split; [|intros (_ & _ & ? & _)]|].
      destruct (String.eqb _ "settings-updated"); by split; [|intros (_ & _ & ? & _)]. }
  rewrite cropAndResizeHandler_unfold. unfold captureRect.
  destruct (frameId (message request)) as [fid|].
  2:{ split; [done|]. by intros (_ & _ & _ & _ & fid & iframe & ? & _). }
  destruct (lookupIframe pg fid) as [iframe|] eqn:Hl.
  2:{ split; [done|]. intros (_ & _ & _ & _ & fid' & iframe & [= <-] & Hreg).
      apply lookupIframe_registered in Hreg. congruence. }
  apply lookupIframe_registered in Hl.
  destruct (hp !! rect (message request)) as [r|].
  - split; [done|]. by intros (_ & _ & _ & ? & _).
  - split; [|done]. intros _. repeat split; try done. by exists fid, iframe.
Qed.

(** X9: as far as its own code goes (the calls it makes are taken to
    return), the listener throws in the root document only, and there for
    exactly three kinds of request: [undefined] or [null] (reading
    [.sender]); a request of the expected sender whose [message] is absent
    (reading [.command]); a dispatched crop-and-resize message that names a
    registered frame and carries no [rect] (reading [rect.left]). *)
Theorem listener_throws_exactly_when br hp (pg : Page) (request : AnyRequest) :
  messageListenerAny add br hp pg request = Throws <->
  isParentDocument pg = true
  /\ (request = RequestNullish
      \/ (exists src,
            request
            = RequestObject (Some "asbplayer-extension-to-video") MessageNullish src)
      \/ (exists m src,
            request
            = RequestObject (Some "asbplayer-extension-to-video") (MessageObject m) src
            /\ command m = "crop-and-resize"
            /\ hp !! rect m = None
            /\ exists fid iframe, frameId m = Some fid /\ registered pg fid iframe)).
Proof.
  unfold messageListenerAny.
  destruct (isParentDocument pg) eqn:Hroot; simpl; [|by split; [|intros (? & _)]].
  destruct request as [| |sender [| |m] src].
  - split; [by eauto|done].
  - split; [done|]. by intros (_ & [?|[(? & ?)|(? & ? & ? & _)]]).
  - destruct (decide (sender = Some "asbplayer-extension-to-video")) as [->|Hs].
    + rewrite bool_decide_eq_true_2 by done. simpl. split; [by eauto 6|done].
    + rewrite bool_decide_eq_false_2 by done. simpl. split; [done|].
      intros (_ & [?|[(? & ?)|(? & ? & ? & _)]]); congruence.
  - destruct (decide (sender = Some "asbplayer-extension-to-video")) as [->|Hs].
    + rewrite bool_decide_eq_true_2 by done. simpl. split; [done|].
      by intros (_ & [?|[(? & ?)|(? & ? & ? & _)]]).
    + rewrite bool_decide_eq_false_2 by done. simpl. split; [done|].
      by intros (_ & [?|[(? & ?)|(? & ? & ? & _)]]).
  - destruct (decide (sender = Some "asbplayer-extension-to-video")) as [->|Hs].
    + rewrite bool_decide_eq_true_2 by done. simpl.
      rewrite messageListener_throws. simpl. split.
      * intros (_ & _ & Hcmd & Hrect & Hreg). split; [done|].
        right. right. by exists m, src.
      * intros (_ & [?|[(? & ?)|(m' & src' & [= <- <-] & Hcmd & Hrect & Hreg)]]);
          try done.
    + rewrite bool_decide_eq_false_2 by done. simpl. split; [done|].
      intros (_ & [?|[(? & ?)|(? & ? & ? & _)]]); congruence.
Qed.

(** On an envelope the listener for any value is [messageListener]; any
    other value leaves the page and the heap as they were. *)
Lemma messageListenerAny_envelope br hp (pg : Page) request :
  messageListenerAny add br hp pg
    (RequestObject (request_sender request) (MessageObject (message request))
       (request_src request))
  = messageListener add br hp pg request.
Proof.
  unfold messageListenerAny, messageListener. destruct request as [sender m src].
  simpl. destruct (negb (isParentDocument pg)); [done|].
  by destruct (negb (bool_decide _)).
Qed.

Lemma messageListenerAny_other br hp (pg : Page) request ret pg' hp' :
  (forall sender m src, request <> RequestObject sender (MessageObject m) src) ->
  messageListenerAny add br hp pg request = Returns (ret, pg', hp') ->
  ret = RetUndefined /\ pg' = pg /\ hp' = hp.
Proof.
  intros Hother. unfold messageListenerAny.
  destruct (negb (isParentDocument pg)); [by intros [= <- <- <-]|].
  destruct request as [| |sender [| |m] src]; try done.
  - by intros [= <- <- <-].
  - by destruct (negb (bool_decide _)); intros [= <- <- <-].
  - by destruct (negb (bool_decide _)); intros [= <- <- <-].
  - by destruct (Hother sender m src).
Qed.

Definition isAnkiShow (e : Event) : bool :=
  match e with AnkiShow _ => true | _ => false end.

(** X10: the tab-level UI controller is shown exactly for a dispatched
    show-anki-ui envelope without [src], once and with the envelope's
    message; an envelope addressed to a binding ([src] present) and every
    other envelope never reach it. *)
Theorem anki_ui_shown_only_without_src br hp (pg : Page) request ret pg' hp' :
  messageListener add br hp pg request = Returns (ret, pg', hp') ->
  exists es,
    log pg' = log pg ++ es
    /\ (isParentDocument pg = true
        /\ request_sender request = Some "asbplayer-extension-to-video"
        /\ command (message request) = "show-anki-ui"
        /\ request_src request = None ->
        es = [AnkiShow (message request)])
    /\ (~ (isParentDocument pg = true
           /\ request_sender request = Some "asbplayer-extension-to-video"
           /\ command (message request) = "show-anki-ui"
           /\ request_src request = None) ->
        Forall (fun e => isAnkiShow e = false) es).
Proof.
  unfold messageListener.
  assert (Hsame : forall P : Prop, ~ P -> exists es : list Event,
    log pg = log pg ++ es /\ (P -> es = [AnkiShow (message request)])
    /\ (~ P -> Forall (fun e => isAnkiShow e = false) es)).
  { intros P HP. exists []. rewrite app_nil_r. by repeat split. }
  destruct (isParentDocument pg); simpl;
    [|intros [= _ <- _]; apply Hsame; by intros (? & _)].
  destruct (decide (request_sender request = Some "asbplayer-extension-to-video"))
    as [Hs|Hs].
  2:{ rewrite bool_decide_eq_false_2 by done. simpl.
      intros [= _ <- _]. apply Hsame. by intros (_ & ? & _). }
  rewrite bool_decide_eq_true_2 by done. simpl.
  destruct (String.eqb_spec (command (message request)) "copy-to-clipboard") as [Hc|_].
  { intros [= _ <- _]. simpl. eexists. split; [done|]. split.
    - intros (_ & _ & Hcmd & _). by rewrite Hc in Hcmd.
    - intros _. unfold copyToClipboard, then_, catch_, floating.
      destruct (fetch br _) as [response| |]; [|by repeat constructor..].
      destruct (response_blob br _) as [blob| |]; [|by repeat constructor..].
      destruct (clipboard_write br _) as [reason|[[]| |]]; by repeat constructor. }
  destruct (String.eqb_spec (command (message request)) "crop-and-resize") as [Hc|_].
  { rewrite cropAndResizeHandler_unfold.
    destruct (captureRect _ _ _ _ _) as [[l hp1]| |]; [|done..].
    intros [= _ <- _]. simpl. eexists. split; [done|]. split.
    - intros (_ & _ & Hcmd & _). by rewrite Hc in Hcmd.
    - intros _. destruct (cropAndResize br _ _ _ _); by repeat constructor. }
  destruct (String.eqb_spec (command (message request)) "show-anki-ui") as [Hc|Hc].
  { intros [= _ <- _]. destruct (request_src request) as [src0|].
    - apply Hsame. by intros (_ & _ & _ & ?).
    - simpl. exists [AnkiShow (message request)]. split; [done|]. split; [done|].
      intros Hn. by destruct Hn. }
  destruct (String.eqb _ "settings-updated").
  { intros [= _ <- _]. simpl. eexists. rewrite <- app_assoc. split; [done|]. split.
    - by intros (_ & _ & ? & _).
    - intros _. by repeat constructor. }
  intros [= _ <- _]. apply Hsame. by intros (_ & _ & ? & _).
Qed.

(** X11: whatever the envelope, handling it never creates or destroys a
    binding, never changes the frame registry or the broadcaster, never
    installs or releases a key handler and never stops the timer or the
    listener. *)
Theorem messages_leave_discovery_alone br hp (pg : Page) request ret pg' hp' :
  messageListener add br hp pg request = Returns (ret, pg', hp') ->
  bindings pg' = bindings pg
  /\ frameInfoListener pg' = frameInfoListener pg
  /\ frameInfoBroadcaster pg' = frameInfoBroadcaster pg
  /\ unbindToggleSidePanel pg' = unbindToggleSidePanel pg
  /\ videoInterval pg' = videoInterval pg
  /\ listening pg' = listening pg
  /\ activeKeyBindings (log pg') = activeKeyBindings (log pg)
  /\ forall b, boundCalls b (log pg') = boundCalls b (log pg)
               /\ unbindCalls b (log pg') = unbindCalls b (log pg).
Proof.
  intros Hm. apply messageListener_frame in Hm
    as (Hbs & _ & _ & _ & Hfl & Hbc & Hrel & _ & Hint & Hlis & es & Hlog & Hq).
  repeat (split; [done|]). rewrite Hlog. split.
  - unfold activeKeyBindings. rewrite replayKeys_app.
    generalize (replayKeys (log pg) []). clear Hlog.
    induction Hq as [|e es [_ He] _ IH]; intros active; simpl; [done|].
    rewrite IH. by destruct e.
  - intros b. rewrite boundCalls_quiet, unbindCalls_quiet by by apply quiet_nobinding.
    done.
Qed.

(** *** Settings updates and teardown over whole runs *)

(** X12: in the root document, a settings-updated envelope followed by the
    answer of the settings provider leaves exactly one key handler
    installed, the new one, bound to the key set just read; the bindings
    are not touched. *)
Theorem settings_update_installs_new_keys
    delegate (fid : FrameId) videoElements0 steps br hp request keyBindSet :
  let pg := run add (bind true delegate fid videoElements0 : Page) steps in
  listening pg = true ->
  request_sender request = Some "asbplayer-extension-to-video" ->
  command (message request) = "settings-updated" ->
  let pg' := run add pg [Deliver br hp request; KeyBindSetSettled (Some keyBindSet)] in
  activeKeyBindings (log pg') = [nextHandle pg]
  /\ last (log pg') = Some (KeyInstall (nextHandle pg) keyBindSet)
  /\ unbindToggleSidePanel pg' = Some (nextHandle pg)
  /\ bindings pg' = bindings pg.
Proof.
  intros pg Hlis Hsender Hcmd pg'.
  assert (Hroot : isParentDocument pg = true).
  { unfold pg. destruct (run_fields (num:=num) add
      (bind true delegate fid videoElements0) steps) as (_ & -> & _).
    by destruct (bind_fields (num:=num) true delegate fid videoElements0) as (_ & -> & _). }
  assert (Hwf : wellFormed pg) by apply wellFormed_run, wellFormed_bind.
  unfold pg', run. simpl. rewrite Hlis.
  rewrite (messageListener_dispatch add br hp pg request Hroot Hsender). cbv zeta.
  rewrite Hcmd. simpl.
  destruct Hwf as (_ & _ & Hkeys & _). unfold keysDisciplined in Hkeys.
  pose proof (disciplined_noinstall (log pg) [GetSingleKeyBindSet; AnkiUpdateSettings]
                _ ltac:(by repeat constructor) Hkeys) as Hkeys'.
  pose proof (disciplined_release _ _ Hkeys') as Hnone.
  unfold keyBindSetResolved. simpl.
  rewrite <- !app_assoc in *. simpl in *.
  split; [|split; [|done]].
  - unfold activeKeyBindings in *.
    replace (log pg ++ GetSingleKeyBindSet :: AnkiUpdateSettings ::
               match unbindToggleSidePanel pg with
               | Some h => [KeyRelease h]
               | None => []
               end ++ [KeyInstall (nextHandle pg) keyBindSet])
      with ((log pg ++ GetSingleKeyBindSet :: AnkiUpdateSettings ::
               match unbindToggleSidePanel pg with
               | Some h => [KeyRelease h]
               | None => []
               end) ++ [KeyInstall (nextHandle pg) keyBindSet])
      by (by rewrite <- app_assoc).
    by rewrite replayKeys_app, Hnone.
  - destruct (unbindToggleSidePanel pg); simpl;
      rewrite last_app; simpl; done.
Qed.

Lemma idle_step (pg : Page) (s : Step (num:=num)) :
  videoInterval pg = false -> bindings pg = [] ->
  videoInterval (step add pg s) = false
  /\ bindings (step add pg s) = []
  /\ exists es, log (step add pg s) = log pg ++ es
                /\ Forall (fun e => bindingEvent e = false) es.
Proof.
  intros Hidle Hnone.
  assert (Hsame : videoInterval pg = false /\ bindings pg = []
                  /\ exists es : list Event, log pg = log pg ++ es
                       /\ Forall (fun e => bindingEvent e = false) es).
  { repeat split; try done. exists []. by rewrite app_nil_r. }
  destruct s as [videoElements|br hp request|[keyBindSet|]|fid iframe|]; simpl.
  - by rewrite Hidle.
  - destruct (listening pg); [|done].
    destruct (messageListener add br hp pg request) as [[[r pg'] hp']| |] eqn:Hm;
      [|done..].
    apply messageListener_frame in Hm
      as (Hbs & _ & _ & _ & _ & _ & _ & _ & Hint & _ & es & Hlog & Hq).
    rewrite Hint, Hbs. repeat split; try done. exists es. split; [done|].
    by apply quiet_nobinding.
  - unfold keyBindSetResolved. destruct (pendingKeyBindSet pg); [done|]. simpl.
    repeat split; try done. eexists. split; [done|].
    by destruct (unbindToggleSidePanel pg); repeat constructor.
  - unfold keyBindSetRejected. destruct (pendingKeyBindSet pg); [done|]. simpl.
    repeat split; try done. eexists. split; [done|]. by repeat constructor.
  - unfold frameAnnounced. by destruct (frameInfoListener pg) as [[[registry|] []]|].
  - simpl. repeat split; try done. rewrite Hnone. simpl. eexists. split; [done|].
    by destruct (frameInfoListener pg), (frameInfoBroadcaster pg),
      (unbindToggleSidePanel pg); repeat constructor.
Qed.

(** X13: once the [beforeunload] handler has run, nothing that happens to
    the page creates or unbinds a binding again: the binding list stays
    empty and the count of [bind()] and [unbind()] calls of every binding
    stays what it was. *)
Theorem nothing_bound_after_teardown (pg : Page) (steps : list (Step (num:=num))) :
  let torn := beforeunload pg in
  bindings (run add torn steps) = []
  /\ videoInterval (run add torn steps) = false
  /\ forall b, boundCalls b (log (run add torn steps)) = boundCalls b (log torn)
               /\ unbindCalls b (log (run add torn steps)) = unbindCalls b (log torn).
Proof.
  intros torn.
  assert (Hgen : forall (steps : list (Step (num:=num))) (q : Page),
    videoInterval q = false -> bindings q = [] ->
    bindings (run add q steps) = []
    /\ videoInterval (run add q steps) = false
    /\ forall b, boundCalls b (log (run add q steps)) = boundCalls b (log q)
                 /\ unbindCalls b (log (run add q steps)) = unbindCalls b (log q)).
  { clear. unfold run. induction steps as [|s steps IH]; intros q Hidle Hnone; simpl;
      [done|].
    destruct (idle_step q s Hidle Hnone) as (Hidle' & Hnone' & es & Hlog & Hq).
    destruct (IH _ Hidle' Hnone') as (Hbs & Hint & Hcalls).
    split; [done|]. split; [done|]. intros b.
    destruct (Hcalls b) as [-> ->]. rewrite Hlog.
    by rewrite boundCalls_quiet, unbindCalls_quiet. }
  by apply Hgen.
Qed.

End ContentScriptFurther.

(** * Further properties of the subtitle window *)

Lemma atBoundary_before subtitles j index countRadius timeRadius :
  j < length subtitles -> index < length subtitles -> 0 < j ->
  exists p s0,
    subtitles !! (j - 1) = Some p /\ subtitles !! index = Some s0
    /\ atBoundary subtitles j index countRadius timeRadius false
       = Returns (atLeast (Z.abs (Z.of_nat index - Z.of_nat j)) countRadius
                  && atLeast (Z.abs (start p - start s0)) timeRadius).
Proof.
  intros Hj Hindex Hpos.
  destruct (lookup_lt_is_Some_2 subtitles (j - 1) ltac:(lia)) as [p Hp].
  destruct (lookup_lt_is_Some_2 subtitles index Hindex) as [s0 Hs0].
  exists p, s0. split; [done|]. split; [done|].
  unfold atBoundary. rewrite Hp, Hs0.
  destruct (Z.leb_spec 0 (Z.of_nat j - 1)); [|lia].
  by destruct (atLeast _ countRadius).
Qed.

Lemma atBoundary_after subtitles j index countRadius timeRadius :
  j + 1 < length subtitles -> index < length subtitles ->
  exists n s0,
    subtitles !! (j + 1) = Some n /\ subtitles !! index = Some s0
    /\ atBoundary subtitles j index countRadius timeRadius true
       = Returns (atLeast (Z.abs (Z.of_nat index - Z.of_nat j)) countRadius
                  && atLeast (Z.abs (start n - start s0)) timeRadius).
Proof.
  intros Hj Hindex.
  destruct (lookup_lt_is_Some_2 subtitles (j + 1) Hj) as [n Hn].
  destruct (lookup_lt_is_Some_2 subtitles index Hindex) as [s0 Hs0].
  exists n, s0. split; [done|]. split; [done|].
  unfold atBoundary. rewrite Hn, Hs0.
  destruct (Z.ltb_spec (Z.of_nat j + 1) (Z.of_nat (length subtitles))); [|lia].
  by destruct (atLeast _ countRadius).
Qed.

Lemma atBoundary_edge subtitles index countRadius timeRadius :
  atBoundary subtitles 0 index countRadius timeRadius false
  = Returns (atLeast (Z.abs (Z.of_nat index - 0)) countRadius)
  /\ (0 < length subtitles ->
      atBoundary subtitles (length subtitles - 1) index countRadius timeRadius true
      = Returns (atLeast (Z.abs (Z.of_nat index - Z.of_nat (length subtitles - 1)))
                   countRadius)).
Proof.
  unfold atBoundary. split.
  - simpl. by destruct (atLeast _ countRadius).
  - intros Hlen.
    destruct (Z.ltb_spec (Z.of_nat (length subtitles - 1) + 1)
                (Z.of_nat (length subtitles))); [lia|].
    by destruct (atLeast _ countRadius).
Qed.

(** The subtitle before [j] lies beyond both radii of [subtitles[index]]. *)
Definition beyondBefore (subtitles : list Subtitle) (index : nat)
    (countRadius timeRadius : Radius) (j : nat) : Prop :=
  atLeast (Z.abs (Z.of_nat index - Z.of_nat j)) countRadius = true
  /\ exists p s0, subtitles !! (j - 1) = Some p /\ subtitles !! index = Some s0
                  /\ atLeast (Z.abs (start p - start s0)) timeRadius = true.

(** The subtitle after [j] lies beyond both radii of [subtitles[index]]. *)
Definition beyondAfter (subtitles : list Subtitle) (index : nat)
    (countRadius timeRadius : Radius) (j : nat) : Prop :=
  atLeast (Z.abs (Z.of_nat index - Z.of_nat j)) countRadius = true
  /\ exists n s0, subtitles !! (j + 1) = Some n /\ subtitles !! index = Some s0
                  /\ atLeast (Z.abs (start n - start s0)) timeRadius = true.

Lemma scanStart_bounds subtitles index countRadius timeRadius i :
  index < length subtitles -> i <= index ->
  exists s,
    scanStart subtitles index countRadius timeRadius i = Returns s
    /\ s <= i
    /\ (0 < s -> beyondBefore subtitles index countRadius timeRadius s)
    /\ (forall j, s < j <= i ->
          ~ beyondBefore subtitles index countRadius timeRadius j).
Proof.
  intros Hindex. induction i as [|i IH]; intros Hi.
  - exists 0. simpl. destruct (atBoundary_edge subtitles index countRadius timeRadius)
      as [-> _]. simpl. split; [by destruct (atLeast _ _)|].
    split; [done|]. split; [lia|]. intros j ?. lia.
  - destruct (atBoundary_before subtitles (S i) index countRadius timeRadius)
      as (p & s0 & Hp & Hs0 & Hb); [lia..|].
    simpl. rewrite Hb. simpl.
    destruct (atLeast (Z.abs (Z.of_nat index - Z.of_nat (S i))) countRadius) eqn:Hc;
      [destruct (atLeast (Z.abs (start p - start s0)) timeRadius) eqn:Ht|]; simpl.
    + exists (S i). split; [done|]. split; [done|]. split; [|intros j ?; lia].
      intros _. split; [done|]. by exists p, s0.
    + destruct IH as (s & -> & Hle & Hout & Hin); [lia|].
      exists s. split; [done|]. split; [lia|]. split; [done|].
      intros j Hj. destruct (decide (j = S i)) as [->|]; [|apply Hin; lia].
      intros (_ & p' & s0' & Hp' & Hs0' & Ht'). congruence.
    + destruct IH as (s & -> & Hle & Hout & Hin); [lia|].
      exists s. split; [done|]. split; [lia|]. split; [done|].
      intros j Hj. destruct (decide (j = S i)) as [->|]; [|apply Hin; lia].
      intros (Hc' & _). congruence.
Qed.

Lemma scanEnd_bounds subtitles index countRadius timeRadius fuel i prev :
  index < length subtitles -> i < length subtitles ->
  length subtitles - i <= fuel ->
  exists e,
    scanEnd subtitles index countRadius timeRadius fuel i prev = Returns (Some e)
    /\ i <= e /\ e < length subtitles
    /\ (e + 1 < length subtitles ->
        beyondAfter subtitles index countRadius timeRadius e)
    /\ (forall j, i <= j < e ->
          ~ beyondAfter subtitles index countRadius timeRadius j).
Proof.
  intros Hindex. revert i prev.
  induction fuel as [|fuel IH]; intros i prev Hi Hfuel; [lia|].
  simpl. destruct (Z.leb_spec (Z.of_nat i) (Z.of_nat (length subtitles) - 1)); [|lia].
  destruct (decide (i + 1 < length subtitles)) as [Hnext|Hlast].
  - destruct (atBoundary_after subtitles i index countRadius timeRadius Hnext Hindex)
      as (n & s0 & Hn & Hs0 & Hb).
    rewrite Hb. simpl.
    destruct (atLeast (Z.abs (Z.of_nat index - Z.of_nat i)) countRadius) eqn:Hc;
      [destruct (atLeast (Z.abs (start n - start s0)) timeRadius) eqn:Ht|]; simpl.
    + exists i. split; [done|]. split; [done|]. split; [done|].
      split; [|intros j ?; lia]. intros _. split; [done|]. by exists n, s0.
    + destruct (IH (S i) (Some i)) as (e & -> & Hle & Hub & Hout & Hin); [lia..|].
      exists e. split; [done|]. split; [lia|]. split; [done|]. split; [done|].
      intros j Hj. destruct (decide (j = i)) as [->|]; [|apply Hin; lia].
      intros (_ & n' & s0' & Hn' & Hs0' & Ht'). congruence.
    + destruct (IH (S i) (Some i)) as (e & -> & Hle & Hub & Hout & Hin); [lia..|].
      exists e. split; [done|]. split; [lia|]. split; [done|]. split; [done|].
      intros j Hj. destruct (decide (j = i)) as [->|]; [|apply Hin; lia].
      intros (Hc' & _). congruence.
  - assert (i = length subtitles - 1) as -> by lia.
    destruct (atBoundary_edge subtitles index countRadius timeRadius) as [_ Hedge].
    rewrite Hedge by lia. simpl.
    exists (length subtitles - 1).
    assert (Hstop : forall q, scanEnd subtitles index countRadius timeRadius fuel
                      (S (length subtitles - 1)) q = Returns q).
    { intros q. destruct fuel; simpl;
        destruct (Z.leb_spec (Z.of_nat (S (length subtitles - 1)))
                    (Z.of_nat (length subtitles) - 1)); try lia; done. }
    destruct (atLeast _ countRadius); rewrite ?Hstop;
      (split; [done|]); (split; [done|]); (split; [lia|]);
      (split; [lia|]); intros j ?; lia.
Qed.

Lemma window_bounds subtitles index countRadius timeRadius :
  index < length subtitles ->
  exists startIndex endIndex,
    surroundingSubtitles subtitles index countRadius timeRadius
    = Returns (slice subtitles startIndex (endIndex + 1))
    /\ startIndex <= index /\ index <= endIndex /\ endIndex < length subtitles
    /\ (0 < startIndex ->
        beyondBefore subtitles index countRadius timeRadius startIndex)
    /\ (endIndex + 1 < length subtitles ->
        beyondAfter subtitles index countRadius timeRadius endIndex)
    /\ (forall j, startIndex < j <= index ->
          ~ beyondBefore subtitles index countRadius timeRadius j)
    /\ (forall j, index <= j < endIndex ->
          ~ beyondAfter subtitles index countRadius timeRadius j).
Proof.
  intros Hindex. unfold surroundingSubtitles.
  destruct (scanStart_bounds subtitles index countRadius timeRadius index Hindex
              ltac:(lia)) as (s & -> & Hs & Hsout & Hsin).
  destruct (scanEnd_bounds subtitles index countRadius timeRadius (length subtitles)
              index None Hindex Hindex ltac:(lia)) as (e & -> & He & Hub & Heout & Hein).
  simpl. exists s, e.
  split; [done|]. split; [lia|]. split; [done|]. split; [done|].
  split; [done|]. split; [done|]. split; [|done].
  intros j Hj. apply Hsin. lia.
Qed.

(** X14: the window stops at the first boundary on each side: when a
    subtitle is left out just before (after) the window, the window already
    spans the count radius on that side and that subtitle starts at least
    the time radius away from [subtitles[index]]; and no position nearer to
    [index] was such a boundary. *)
Theorem window_stops_at_first_boundary subtitles index countRadius timeRadius :
  index < length subtitles ->
  exists startIndex endIndex,
    surroundingSubtitles subtitles index countRadius timeRadius
    = Returns (slice subtitles startIndex (endIndex + 1))
    /\ startIndex <= index /\ index <= endIndex /\ endIndex < length subtitles
    /\ (0 < startIndex ->
        beyondBefore subtitles index countRadius timeRadius startIndex)
    /\ (endIndex + 1 < length subtitles ->
        beyondAfter subtitles index countRadius timeRadius endIndex)
    /\ (forall j, startIndex < j <= index ->
          ~ beyondBefore subtitles index countRadius timeRadius j)
    /\ (forall j, index <= j < endIndex ->
          ~ beyondAfter subtitles index countRadius timeRadius j).
Proof. apply window_bounds. Qed.

(** X15: with a finite count radius [c >= 0] the window reaches at least
    [c] subtitles before [subtitles[index]] and at least [c] after it, or
    to the end of the array on that side: every position from
    [index - min(index, c)] to [index + min(length - 1 - index, c)] lies in
    the returned slice, in its place. *)
Theorem window_holds_count_radius subtitles index (c : nat) timeRadius :
  index < length subtitles ->
  exists startIndex endIndex,
    surroundingSubtitles subtitles index (Finite (Z.of_nat c)) timeRadius
    = Returns (slice subtitles startIndex (endIndex + 1))
    /\ startIndex <= index - Nat.min index c
    /\ index + Nat.min (length subtitles - 1 - index) c <= endIndex
    /\ endIndex < length subtitles
    /\ forall j,
         index - Nat.min index c <= j
         <= index + Nat.min (length subtitles - 1 - index) c ->
         slice subtitles startIndex (endIndex + 1) !! (j - startIndex)
         = subtitles !! j.
Proof.
  intros Hindex.
  destruct (window_bounds subtitles index (Finite (Z.of_nat c)) timeRadius Hindex)
    as (s & e & Heq & Hs & He & Hub & Hsout & Heout & _).
  exists s, e. split; [exact Heq|].
  assert (Hleft : s = 0 \/ c <= index - s).
  { destruct (decide (s = 0)) as [|Hpos]; [by left|right].
    destruct (Hsout ltac:(lia)) as [Hc _]. simpl in Hc. apply Z.leb_le in Hc. lia. }
  assert (Hright : e = length subtitles - 1 \/ c <= e - index).
  { destruct (decide (e + 1 < length subtitles)) as [Hin|]; [right|left; lia].
    destruct (Heout Hin) as [Hc _]. simpl in Hc. apply Z.leb_le in Hc. lia. }
  split; [lia|]. split; [lia|]. split; [done|].
  intros j Hj. rewrite slice_lookup by lia. f_equal. lia.
Qed.

(** X16: a radius that is [undefined], [NaN] or [Infinity] is never
    reached: the window is the whole array. *)
Theorem window_whole_array_without_radius subtitles index countRadius timeRadius :
  index < length subtitles ->
  countRadius = NaN \/ countRadius = PosInfinity
  \/ timeRadius = NaN \/ timeRadius = PosInfinity ->
  surroundingSubtitles subtitles index countRadius timeRadius = Returns subtitles.
Proof.
  intros Hindex Hrad.
  destruct (window_bounds subtitles index countRadius timeRadius Hindex)
    as (s & e & -> & Hs & He & Hub & Hsout & Heout & _).
  assert (Hnever : forall x y, atLeast x countRadius = true ->
                               atLeast y timeRadius = true -> False).
  { intros x y. destruct Hrad as [Hr|[Hr|[Hr|Hr]]]; rewrite Hr; simpl;
      try done; by destruct (atLeast x countRadius). }
  assert (s = 0) as ->.
  { destruct (decide (s = 0)) as [|Hpos]; [done|].
    destruct (Hsout ltac:(lia)) as (Hc & p & s0 & _ & _ & Ht).
    by destruct (Hnever _ _ Hc Ht). }
  assert (e + 1 = length subtitles) as ->.
  { destruct (decide (e + 1 < length subtitles)) as [Hin|]; [|lia].
    destruct (Heout Hin) as (Hc & n & s0 & _ & _ & Ht).
    by destruct (Hnever _ _ Hc Ht). }
  unfold slice. by rewrite drop_0, Nat.sub_0_r, firstn_all.
Qed.

(** X17: with both radii zero or negative the window is the one subtitle
    at [index]. *)
Theorem window_single_subtitle subtitles index (c t : Z) subtitle :
  subtitles !! index = Some subtitle ->
  (c <= 0)%Z -> (t <= 0)%Z ->
  surroundingSubtitles subtitles index (Finite c) (Finite t) = Returns [subtitle].
Proof.
  intros Hsub Hc Ht.
  assert (Hindex : index < length subtitles) by by eapply lookup_lt_Some.
  destruct (window_bounds subtitles index (Finite c) (Finite t) Hindex)
    as (s & e & -> & Hs & He & Hub & _ & _ & Hsin & Hein).
  assert (s = index) as ->.
  { destruct (decide (s = index)) as [|Hne]; [done|]. exfalso.
    apply (Hsin index); [lia|]. split; [simpl; apply Z.leb_le; lia|].
    destruct (lookup_lt_is_Some_2 subtitles (index - 1) ltac:(lia)) as [p Hp].
    exists p, subtitle. repeat split; try done. simpl. apply Z.leb_le. lia. }
  assert (e = index) as ->.
  { destruct (decide (e = index)) as [|Hne]; [done|]. exfalso.
    apply (Hein index); [lia|]. split; [simpl; apply Z.leb_le; lia|].
    destruct (lookup_lt_is_Some_2 subtitles (index + 1) ltac:(lia)) as [n Hn].
    exists n, subtitle. repeat split; try done. simpl. apply Z.leb_le. lia. }
  f_equal. unfold slice. replace (index + 1 - index) with 1 by lia.
  by rewrite (drop_S _ _ _ Hsub).
Qed.

(** X18: an index past the end of the array never yields a subtitle: the
    call throws (reading [.start] of [undefined]) or returns the empty
    array. *)
Theorem window_of_index_out_of_range subtitles index countRadius timeRadius :
  length subtitles <= index ->
  surroundingSubtitles subtitles index countRadius timeRadius = Throws
  \/ surroundingSubtitles subtitles index countRadius timeRadius = Returns [].
Proof.
  intros Hout.
  pose proof (surroundingSubtitles_total subtitles index countRadius timeRadius) as Htotal.
  unfold surroundingSubtitles in *.
  destruct (scanStart _ _ _ _ _) as [s| |]; simpl in *; [|by left|done].
  assert (Hend : scanEnd subtitles index countRadius timeRadius (length subtitles)
                   index None = Returns None).
  { generalize (length subtitles) at 1. intros fuel.
    destruct fuel; simpl;
      destruct (Z.leb_spec (Z.of_nat index) (Z.of_nat (length subtitles) - 1));
      done || lia. }
  rewrite Hend. simpl. right. unfold slice. simpl. by rewrite take_0.
Qed.

(** * Rendering a timestamp: [humanReadableTime] *)

From Stdlib Require Import Ascii Decimal DecimalString DecimalZ DecimalPos.

(** [Number.MAX_SAFE_INTEGER], [2^53 - 1]: up to it every integer is a
    double. *)
Definition maxSafeInteger : Z := 9007199254740991.

(** [String(z)] for an integer [z] in the range where JavaScript prints a
    number in plain decimal notation (below [1e21]). *)
Definition numberToString (z : Z) : string := NilZero.string_of_int (Z.to_int z).

(** [s.padStart(targetLength, pad)] for a one-character [pad]. *)
Definition padStart (targetLength : nat) (pad : ascii) (s : string) : string :=
  String.append
    (String.string_of_list_ascii (replicate (targetLength - String.length s) pad)) s.

(** [humanReadableTime(timestamp)] for an integer [timestamp] of absolute
    value up to [maxSafeInteger]: [Math.floor(x / n)] is the floor division
    of [Z], [%] is the remainder that takes the sign of the dividend.  The
    source computes in double precision; on this range the quotient
    [timestamp / 1000] is below [2^44], where rounding to a double moves a
    number by at most [2^-10], less than the [1/1000] that separates an
    inexact quotient from the next integer, so the rounded quotient has the
    floor of the exact one; the later quotients, by 60 and 3600, are of
    smaller integers.  Beyond the range doubles round further and this
    definition no longer follows the source; the properties below are
    stated on the range. *)
Definition humanReadableTime (timestamp : Z) : string :=
  let totalSeconds := (timestamp / 1000)%Z in
  let seconds := Z.rem totalSeconds 60 in
  let minutes := Z.rem (totalSeconds / 60) 60 in
  let hours := (totalSeconds / 3600)%Z in
  if (0 <? hours)%Z
  then String.append (numberToString hours)
         (String.append "h"
            (String.append (padStart 2 "0" (numberToString minutes))
               (String.append "m"
                  (String.append (padStart 2 "0" (numberToString seconds)) "s"))))
  else String.append (numberToString minutes)
         (String.append "m"
            (String.append (padStart 2 "0" (numberToString seconds)) "s")).

Example humanReadableTime_examples :
  humanReadableTime 0 = "0m00s"
  /\ humanReadableTime 59999 = "0m59s"
  /\ humanReadableTime 754000 = "12m34s"
  /\ humanReadableTime 3600000 = "1h00m00s"
  /\ humanReadableTime 360000000 = "100h00m00s"
  /\ humanReadableTime (-1) = "-1m-1s".
Proof. by vm_compute. Qed.

Definition isDigit (a : ascii) : bool :=
  (48 <=? nat_of_ascii a) && (nat_of_ascii a <=? 57).

Fixpoint allDigits (s : string) : bool :=
  match s with
  | EmptyString => true
  | String a rest => isDigit a && allDigits rest
  end.

Lemma split_at_nondigit a a' c c' rest rest' :
  allDigits a = true -> allDigits a' = true ->
  isDigit c = false -> isDigit c' = false ->
  String.append a (String c rest) = String.append a' (String c' rest') ->
  a = a' /\ c = c' /\ rest = rest'.
Proof.
  revert a'. induction a as [|x a IH]; intros [|x' a']; simpl;
    intros Ha Ha' Hc Hc' Heq.
  - by injection Heq as -> ->.
  - injection Heq as -> _. apply andb_true_iff in Ha' as [Hx _]. congruence.
  - injection Heq as -> _. apply andb_true_iff in Ha as [Hx _]. congruence.
  - injection Heq as -> Heq.
    apply andb_true_iff in Ha as [_ Ha]. apply andb_true_iff in Ha' as [_ Ha'].
    destruct (IH a' Ha Ha' Hc Hc' Heq) as (-> & -> & ->). done.
Qed.

Lemma allDigits_app a b :
  allDigits a = true -> allDigits b = true -> allDigits (String.append a b) = true.
Proof.
  induction a as [|x a IH]; simpl; [done|].
  intros [Hx Ha]%andb_true_iff Hb. by rewrite Hx, IH.
Qed.

Lemma allDigits_uint d : allDigits (NilZero.string_of_uint d) = true.
Proof.
  assert (Hne : forall d, allDigits (NilEmpty.string_of_uint d) = true)
    by (induction d0; simpl; auto).
  destruct d; try apply Hne. done.
Qed.

Lemma allDigits_number z : (0 <= z)%Z -> allDigits (numberToString z) = true.
Proof.
  intros Hz. unfold numberToString. destruct z as [|p|p]; [done| |lia].
  simpl. apply allDigits_uint.
Qed.

Lemma allDigits_padStart n s :
  allDigits s = true -> allDigits (padStart n "0" s) = true.
Proof.
  intros Hs. unfold padStart. apply allDigits_app; [|done].
  induction (n - String.length s) as [|k IH]; simpl; [done|]. by rewrite IH.
Qed.

Lemma numberToString_inj z z' : numberToString z = numberToString z' -> z = z'.
Proof.
  unfold numberToString. intros Heq. apply DecimalZ.to_int_inj.
  assert (Hnonnil : forall z, Z.to_int z <> Pos Nil /\ Z.to_int z <> Neg Nil).
  { intros [|p|p]; simpl; split; try done;
      intros [= Hp]; by apply DecimalPos.Unsigned.to_uint_nonnil in Hp. }
  destruct (Hnonnil z) as [Hp Hn], (Hnonnil z') as [Hp' Hn'].
  pose proof (NilZero.isi _ Hp Hn) as Hz.
  pose proof (NilZero.isi _ Hp' Hn') as Hz'.
  rewrite Heq in Hz. congruence.
Qed.

Lemma padded_below_sixty_inj (m m' : nat) :
  m < 60 -> m' < 60 ->
  padStart 2 "0" (numberToString (Z.of_nat m))
  = padStart 2 "0" (numberToString (Z.of_nat m')) ->
  m = m'.
Proof.
  assert (Htable :
    forallb (fun a => forallb (fun b =>
      implb (String.eqb (padStart 2 "0" (numberToString (Z.of_nat a)))
                        (padStart 2 "0" (numberToString (Z.of_nat b))))
            (a =? b)) (seq 0 60)) (seq 0 60) = true) by by vm_compute.
  intros Hm Hm' Heq.
  rewrite forallb_forall in Htable.
  specialize (Htable m ltac:(apply in_seq; lia)).
  rewrite forallb_forall in Htable.
  specialize (Htable m' ltac:(apply in_seq; lia)).
  rewrite Heq, String.eqb_refl in Htable. simpl in Htable.
  by apply Nat.eqb_eq.
Qed.

Lemma humanReadableTime_fields (timestamp : Z) :
  (0 <= timestamp)%Z ->
  let total := (timestamp / 1000)%Z in
  exists h m s : nat,
    (total = 3600 * Z.of_nat h + 60 * Z.of_nat m + Z.of_nat s)%Z
    /\ m < 60 /\ s < 60
    /\ humanReadableTime timestamp
       = if (0 <? Z.of_nat h)%Z
         then String.append (numberToString (Z.of_nat h))
                (String.append "h"
                   (String.append (padStart 2 "0" (numberToString (Z.of_nat m)))
                      (String.append "m"
                         (String.append
                            (padStart 2 "0" (numberToString (Z.of_nat s))) "s"))))
         else String.append (numberToString (Z.of_nat m))
                (String.append "m"
                   (String.append (padStart 2 "0" (numberToString (Z.of_nat s))) "s")).
Proof.
  intros Ht total.
  assert (Htotal : (0 <= total)%Z) by (unfold total; apply Z.div_pos; lia).
  exists (Z.to_nat (total / 3600)), (Z.to_nat (Z.rem (total / 60) 60)),
         (Z.to_nat (Z.rem total 60)).
  assert (H60 : (0 <= total / 60)%Z) by (apply Z.div_pos; lia).
  rewrite !Z.rem_mod_nonneg by lia.
  pose proof (Z.mod_pos_bound (total / 60) 60 ltac:(lia)).
  pose proof (Z.mod_pos_bound total 60 ltac:(lia)).
  assert (H3600 : (0 <= total / 3600)%Z) by (apply Z.div_pos; lia).
  rewrite !Z2Nat.id by lia.
  split; [|split; [lia|split; [lia|]]].
  - pose proof (Z.div_mod total 60 ltac:(lia)).
    pose proof (Z.div_mod (total / 60) 60 ltac:(lia)).
    assert ((total / 60 / 60 = total / 3600)%Z) by (rewrite Z.div_div by lia; done).
    lia.
  - unfold humanReadableTime. fold total. cbv zeta.
    by rewrite !Z.rem_mod_nonneg by lia.
Qed.

(** X19: two timestamps that are integers from [0] to [maxSafeInteger]
    are rendered the same exactly when they fall into the same second: the
    text determines the hours, minutes and seconds. *)
Theorem humanReadableTime_same_iff_same_second (t1 t2 : Z) :
  (0 <= t1 <= maxSafeInteger)%Z -> (0 <= t2 <= maxSafeInteger)%Z ->
  humanReadableTime t1 = humanReadableTime t2 <-> (t1 / 1000 = t2 / 1000)%Z.
Proof.
  intros [H1 _] [H2 _]. split.
  2:{ intros Heq. unfold humanReadableTime. by rewrite Heq. }
  destruct (humanReadableTime_fields t1 H1) as (h1 & m1 & s1 & -> & Hm1 & Hs1 & ->).
  destruct (humanReadableTime_fields t2 H2) as (h2 & m2 & s2 & -> & Hm2 & Hs2 & ->).
  assert (Hnum : forall n, allDigits (numberToString (Z.of_nat n)) = true)
    by (intros n; apply allDigits_number; lia).
  assert (Hpad : forall n, allDigits (padStart 2 "0" (numberToString (Z.of_nat n))) = true)
    by (intros n; apply allDigits_padStart, Hnum).
  destruct (Z.ltb_spec 0 (Z.of_nat h1)), (Z.ltb_spec 0 (Z.of_nat h2)); intros Heq.
  - apply split_at_nondigit in Heq as (Hh & _ & Heq); try done.
    apply numberToString_inj in Hh.
    apply split_at_nondigit in Heq as (Hm & _ & Heq); try done.
    apply padded_below_sixty_inj in Hm; [|done..].
    apply split_at_nondigit in Heq as (Hs & _ & _); try done.
    apply padded_below_sixty_inj in Hs; [|done..]. lia.
  - apply split_at_nondigit in Heq as (_ & Hc & _); try done.
  - apply split_at_nondigit in Heq as (_ & Hc & _); try done.
  - apply split_at_nondigit in Heq as (Hm & _ & Heq); try done.
    apply numberToString_inj in Hm.
    apply split_at_nondigit in Heq as (Hs & _ & _); try done.
    apply padded_below_sixty_inj in Hs; [|done..]. lia.
Qed.

Lemma humanReadableTime_same_iff_same_second_witness :
  humanReadableTime 754000 = humanReadableTime 754999 <->
  (754000 / 1000 = 754999 / 1000)%Z.
Proof.
  apply humanReadableTime_same_iff_same_second; unfold maxSafeInteger; lia.
Defined.

(** * The further properties at concrete inputs *)

Definition episode : list Subtitle :=
  [mkSubtitle 0 "a"; mkSubtitle 1000 "b"; mkSubtitle 2000 "c";
   mkSubtitle 9000 "d"].

Definition ankiRequest : @Request Z nat :=
  mkRequest (Some "asbplayer-extension-to-video")
    (mkMessage "show-anki-ui" "" 0%Z 0%Z 1%positive None)
    None.

Definition settingsRequest : @Request Z nat :=
  mkRequest (Some "asbplayer-extension-to-video")
    (mkMessage "settings-updated" "" 0%Z 0%Z 1%positive None)
    None.

Lemma bind_tracks_in_document_order_witness :
  tracked (bind (num:=Z) (FrameId:=nat) true None 0 [movie; placeholder; trailer])
  = [1; 2].
Proof.
  rewrite (bind_tracks_in_document_order (num:=Z) true None 0
             [movie; placeholder; trailer]).
  - reflexivity.
  - apply (bool_decide_unpack _). vm_compute. exact I.
Defined.

Lemma listener_answers_true_only_for_crop_witness :
  RetTrue = RetTrue
  <-> isParentDocument rootPage = true
      /\ request_sender (cropRequest (Some 7))
         = Some "asbplayer-extension-to-video"
      /\ command (message (cropRequest (Some 7))) = "crop-and-resize".
Proof.
  destruct (messageListener Z.add offlineBrowser envelopeHeap rootPage
              (cropRequest (Some 7))) as [[[ret pg'] hp']| |] eqn:Hm;
    [|vm_compute in Hm; discriminate..].
  assert (Hret : ret = RetTrue).
  { vm_compute in Hm. by injection Hm as <- _ _. }
  subst ret.
  exact (listener_answers_true_only_for_crop Z.add offlineBrowser envelopeHeap
           rootPage (cropRequest (Some 7)) RetTrue pg' hp' Hm).
Defined.

Lemma anki_ui_shown_only_without_src_witness :
  exists pg' es,
    messageListener Z.add offlineBrowser envelopeHeap rootPage ankiRequest
    = Returns (RetUndefined, pg', envelopeHeap)
    /\ log pg' = log rootPage ++ es
    /\ es = [AnkiShow (message ankiRequest)].
Proof.
  destruct (messageListener Z.add offlineBrowser envelopeHeap rootPage
              ankiRequest) as [[[ret pg'] hp']| |] eqn:Hm;
    [|vm_compute in Hm; discriminate..].
  destruct (anki_ui_shown_only_without_src Z.add offlineBrowser envelopeHeap
              rootPage ankiRequest ret pg' hp' Hm) as (es & Hlog & Hshown & _).
  exists pg', es. split; [|split; [exact Hlog|]].
  - vm_compute in Hm. injection Hm as <- <- <-. reflexivity.
  - apply Hshown. repeat split; reflexivity.
Defined.

Lemma messages_leave_discovery_alone_witness :
  exists pg',
    messageListener Z.add offlineBrowser envelopeHeap rootPage copyRequest
    = Returns (RetUndefined, pg', envelopeHeap)
    /\ bindings pg' = bindings rootPage
    /\ activeKeyBindings (log pg') = activeKeyBindings (log rootPage).
Proof.
  destruct (messageListener Z.add offlineBrowser envelopeHeap rootPage
              copyRequest) as [[[ret pg'] hp']| |] eqn:Hm;
    [|vm_compute in Hm; discriminate..].
  destruct (messages_leave_discovery_alone Z.add offlineBrowser envelopeHeap
              rootPage copyRequest ret pg' hp' Hm)
    as (Hb & _ & _ & _ & _ & _ & Hk & _).
  exists pg'. split; [|split; [exact Hb|exact Hk]].
  vm_compute in Hm. injection Hm as <- <- <-. reflexivity.
Defined.

Lemma settings_update_installs_new_keys_witness :
  activeKeyBindings
    (log (run Z.add (bind (FrameId:=nat) true None 0 [movie])
            [Deliver offlineBrowser envelopeHeap settingsRequest;
             KeyBindSetSettled (Some "Ctrl+Shift+X")]))
  = [nextHandle (bind (num:=Z) (FrameId:=nat) true None 0 [movie])].
Proof.
  pose proof (settings_update_installs_new_keys Z.add None 0 [movie] []
                offlineBrowser envelopeHeap settingsRequest "Ctrl+Shift+X")
    as Hkeys.
  cbv zeta in Hkeys.
  destruct Hkeys as (Hactive & _); [reflexivity..|].
  exact Hactive.
Defined.

Lemma window_stops_at_first_boundary_witness :
  exists startIndex endIndex,
    surroundingSubtitles episode 1 (Finite 1) (Finite 1500)
    = Returns (slice episode startIndex (endIndex + 1))
    /\ startIndex <= 1 /\ 1 <= endIndex /\ endIndex < length episode
    /\ (0 < startIndex ->
        beyondBefore episode 1 (Finite 1) (Finite 1500) startIndex)
    /\ (endIndex + 1 < length episode ->
        beyondAfter episode 1 (Finite 1) (Finite 1500) endIndex)
    /\ (forall j, startIndex < j <= 1 ->
          ~ beyondBefore episode 1 (Finite 1) (Finite 1500) j)
    /\ (forall j, 1 <= j < endIndex ->
          ~ beyondAfter episode 1 (Finite 1) (Finite 1500) j).
Proof.
  apply (window_stops_at_first_boundary episode 1 (Finite 1) (Finite 1500)).
  simpl. lia.
Defined.

Lemma window_holds_count_radius_witness :
  exists startIndex endIndex,
    surroundingSubtitles episode 1 (Finite (Z.of_nat 1)) (Finite 1500)
    = Returns (slice episode startIndex (endIndex + 1))
    /\ startIndex <= 1 - Nat.min 1 1
    /\ 1 + Nat.min (length episode - 1 - 1) 1 <= endIndex
    /\ endIndex < length episode
    /\ forall j,
         1 - Nat.min 1 1 <= j <= 1 + Nat.min (length episode - 1 - 1) 1 ->
         slice episode startIndex (endIndex + 1) !! (j - startIndex)
         = episode !! j.
Proof.
  apply (window_holds_count_radius episode 1 1 (Finite 1500)).
  simpl. lia.
Defined.

Lemma window_whole_array_without_radius_witness :
  surroundingSubtitles episode 1 (Finite 1) NaN = Returns episode.
Proof.
  apply (window_whole_array_without_radius episode 1 (Finite 1) NaN).
  - simpl. lia.
  - right. right. left. reflexivity.
Defined.

Lemma window_single_subtitle_witness :
  surroundingSubtitles episode 1 (Finite 0) (Finite (-5))
  = Returns [mkSubtitle 1000 "b"].
Proof.
  apply (window_single_subtitle episode 1 0 (-5)); [reflexivity|lia|lia].
Defined.

Lemma window_of_index_out_of_range_witness :
  surroundingSubtitles episode 4 (Finite 1) (Finite 1500) = Throws
  \/ surroundingSubtitles episode 4 (Finite 1) (Finite 1500) = Returns [].
Proof.
  apply (window_of_index_out_of_range episode 4 (Finite 1) (Finite 1500)).
  simpl. lia.
Defined.

(** * The standalone player: [client/src/App.js] *)

Module App.

(** A JavaScript value that may be [undefined] or [null]. *)
Inductive Nullable (A : Type) : Type :=
| Undefined
| Null
| Value (a : A).

Arguments Undefined {A}.
Arguments Null {A}.
Arguments Value {A} a.

(** Truthiness of an object reference or of an object URL (a non-empty
    string). *)
Definition truthy {A : Type} (x : Nullable A) : bool :=
  match x with
  | Value _ => true
  | _ => false
  end.

(** [x || y]. *)
Definition orElse {A : Type} (x y : Nullable A) : Nullable A :=
  if truthy x then x else y.

(** A call that returns, or throws an [Error] with a message. *)
Inductive Result (A : Type) : Type :=
| Ok (a : A)
| Error (message : string).

Arguments Ok {A} a.
Arguments Error {A} message.

(** A dropped [File]: its name and the identity of the object. *)
Record File : Type := mkFile {
  name : string;
  fileId : nat
}.

(** An object URL of [URL.createObjectURL]. *)
Definition Url : Type := nat.

(** The [sources] state, also the shape of what [extractSources] returns
    (which has no URL fields: they read as [undefined]). *)
Record Sources : Type := mkSources {
  subtitleFile : Nullable File;
  audioFile : Nullable File;
  audioFileUrl : Nullable Url;
  videoFile : Nullable File;
  videoFileUrl : Nullable Url
}.

(** [s.lastIndexOf(c)] for a one-character search string: [-1] when [c]
    does not occur. *)
Fixpoint lastIndexOf (c : ascii) (s : string) : Z :=
  match s with
  | EmptyString => (-1)%Z
  | String a rest =>
      let r := lastIndexOf c rest in
      if (0 <=? r)%Z then (r + 1)%Z
      else if Ascii.eqb a c then 0%Z else (-1)%Z
  end.

(** [s.substring(from, to)] for [0 <= from <= to]. *)
Definition substring (s : string) (from to : nat) : string :=
  String.substring from (to - from) s.

(** The loop of [extractSources], with its three variables. *)
Fixpoint extractLoop (files : list File)
    (subtitleFile audioFile videoFile : Nullable File) : Result Sources :=
  match files with
  | [] =>
      if truthy videoFile && truthy audioFile
      then Error "Cannot load both an audio and video file simultaneously"
      else Ok (mkSources subtitleFile audioFile Undefined videoFile Undefined)
  | f :: rest =>
      let extensionStartIndex := lastIndexOf "." (name f) in
      if (extensionStartIndex =? -1)%Z
      then Error (String.append "Unable to determine extension of " (name f))
      else
        let extension :=
          substring (name f) (Z.to_nat (extensionStartIndex + 1))
            (String.length (name f)) in
        if String.eqb extension "ass" || String.eqb extension "srt"
        then if truthy subtitleFile
             then Error "Cannot open two subtitle files simultaneously"
             else extractLoop rest (Value f) audioFile videoFile
        else if String.eqb extension "mkv"
        then if truthy videoFile
             then Error "Cannot open two video files simultaneously"
             else extractLoop rest subtitleFile audioFile (Value f)
        else if String.eqb extension "mp3"
        then if truthy audioFile
             then Error "Cannot open two audio files simultaneously"
             else extractLoop rest subtitleFile (Value f) videoFile
        else Error (String.append "Unsupported extension " extension)
  end.

(** [extractSources(files)]. *)
Definition extractSources (files : list File) : Result Sources :=
  extractLoop files Null Null Null.

Example extractSources_examples :
  extractSources [mkFile "show.e01.srt" 1; mkFile "show.e01.mkv" 2]
  = Ok (mkSources (Value (mkFile "show.e01.srt" 1)) Null Undefined
          (Value (mkFile "show.e01.mkv" 2)) Undefined)
  /\ extractSources [mkFile "README" 1]
     = Error "Unable to determine extension of README"
  /\ extractSources [mkFile "a.mp3" 1; mkFile "b.mkv" 2]
     = Error "Cannot load both an audio and video file simultaneously"
  /\ extractSources [mkFile "a.SRT" 1] = Error "Unsupported extension SRT"
  /\ extractSources [mkFile "a.srt" 1; mkFile "b.ass" 2]
     = Error "Cannot open two subtitle files simultaneously"
  /\ extractSources [mkFile ".mp3" 1]
     = Ok (mkSources Null (Value (mkFile ".mp3" 1)) Undefined Null Undefined)
  /\ extractSources [] = Ok (mkSources Null Null Undefined Null Undefined).
Proof. by vm_compute. Qed.

(** ** What [extractSources] reads off a file name *)

Inductive Kind : Type :=
| SubtitleKind
| VideoKind
| AudioKind.

#[global] Instance Kind_eq_dec : EqDecision Kind.
Proof. solve_decision. Defined.

(** The extension the loop computes for a name, if it finds one. *)
Definition extensionOf (n : string) : option string :=
  let extensionStartIndex := lastIndexOf "." n in
  if (extensionStartIndex =? -1)%Z then None
  else Some (substring n (Z.to_nat (extensionStartIndex + 1)) (String.length n)).

(** The [case] of the [switch] an extension selects. *)
Definition kindOfExtension (extension : string) : option Kind :=
  if String.eqb extension "ass" || String.eqb extension "srt"
  then Some SubtitleKind
  else if String.eqb extension "mkv" then Some VideoKind
  else if String.eqb extension "mp3" then Some AudioKind
  else None.

Definition kindOf (f : File) : option Kind :=
  extensionOf (name f) ≫= kindOfExtension.

(** The files of one kind, in the order of the drop. *)
Definition ofKind (k : Kind) (files : list File) : list File :=
  filter (fun f => kindOf f = Some k) files.

(** A variable of the loop that starts as [acc] and is assigned the files
    [found] ends as [res]; a second assignment throws. *)
Definition slot (acc : Nullable File) (found : list File)
    (res : Nullable File) : Prop :=
  match found with
  | [] => res = acc
  | [f] => truthy acc = false /\ res = Value f
  | _ => False
  end.

Definition occursIn (c : ascii) (s : string) : Prop :=
  c ∈ String.list_ascii_of_string s.

(** ** Properties of [extractSources] *)

Lemma lastIndexOf_range (c : ascii) (s : string) :
  (-1 <= lastIndexOf c s < Z.of_nat (String.length s))%Z.
Proof.
  induction s as [|a s IH]; simpl; [lia|].
  destruct (Z.leb_spec 0 (lastIndexOf c s)); [lia|].
  destruct (Ascii.eqb a c); lia.
Qed.

Lemma lastIndexOf_absent (c : ascii) (s : string) :
  lastIndexOf c s = (-1)%Z <-> ~ occursIn c s.
Proof.
  unfold occursIn. induction s as [|a s IH]; simpl.
  - split; [intros _; apply not_elem_of_nil|done].
  - pose proof (lastIndexOf_range c s) as Hr.
    rewrite elem_of_cons.
    destruct (Z.leb_spec 0 (lastIndexOf c s)) as [Hle|Hlt].
    + split; [lia|]. intros Hno. exfalso. apply Hno. right.
      destruct (decide (c ∈ String.list_ascii_of_string s)) as [|Hn]; [done|].
      apply IH in Hn. lia.
    + assert (Hs : lastIndexOf c s = (-1)%Z) by lia.
      apply IH in Hs.
      destruct (Ascii.eqb_spec a c) as [->|Hne].
      * split; [lia|]. intros Hno. exfalso. apply Hno. by left.
      * split; [|done]. intros _ [Heq|Hin]; [by subst|done].
Qed.

Lemma lastIndexOf_split (c : ascii) (base ext : string) :
  ~ occursIn c ext ->
  lastIndexOf c (String.append base (String c ext))
  = Z.of_nat (String.length base).
Proof.
  intros Hno. apply lastIndexOf_absent in Hno.
  induction base as [|a base IH]; simpl.
  - rewrite Hno. simpl. by rewrite Ascii.eqb_refl.
  - rewrite IH.
    destruct (Z.leb_spec 0 (Z.of_nat (String.length base))); lia.
Qed.

Lemma lastIndexOf_found (c : ascii) (s : string) :
  (0 <= lastIndexOf c s)%Z ->
  exists base ext,
    s = String.append base (String c ext) /\ ~ occursIn c ext.
Proof.
  induction s as [|a s IH]; simpl; [lia|].
  destruct (Z.leb_spec 0 (lastIndexOf c s)) as [Hle|Hlt].
  - intros _. destruct (IH Hle) as (base & ext & -> & Hno).
    by exists (String a base), ext.
  - destruct (Ascii.eqb_spec a c) as [->|Hne]; [|lia].
    intros _. exists EmptyString, s. split; [done|].
    apply lastIndexOf_absent. pose proof (lastIndexOf_range c s). lia.
Qed.

Lemma substring_whole (s : string) :
  String.substring 0 (String.length s) s = s.
Proof. induction s as [|a s IH]; simpl; [done|by rewrite IH]. Qed.

Lemma substring_suffix (base ext : string) (c : ascii) :
  substring (String.append base (String c ext))
    (Z.to_nat (Z.of_nat (String.length base) + 1))
    (String.length (String.append base (String c ext)))
  = ext.
Proof.
  unfold substring.
  replace (Z.to_nat (Z.of_nat (String.length base) + 1))
    with (S (String.length base)) by lia.
  induction base as [|a base IH].
  - change (String.append EmptyString (String c ext)) with (String c ext).
    cbn [String.length].
    replace (S (String.length ext) - 1) with (String.length ext) by lia.
    cbn [String.substring]. apply substring_whole.
  - change (String.append (String a base) (String c ext))
      with (String a (String.append base (String c ext))).
    cbn [String.length String.substring].
    replace (S (String.length (String.append base (String c ext)))
             - S (S (String.length base)))
      with (String.length (String.append base (String c ext))
            - S (String.length base)) by lia.
    exact IH.
Qed.

Lemma extensionOf_split (base ext : string) :
  ~ occursIn "." ext ->
  extensionOf (String.append base (String "." ext)) = Some ext.
Proof.
  intros Hno. unfold extensionOf.
  rewrite (lastIndexOf_split _ _ _ Hno).
  destruct (Z.eqb_spec (Z.of_nat (String.length base)) (-1)); [lia|].
  by rewrite substring_suffix.
Qed.

Lemma extractLoop_cons (f : File) (rest : list File)
    (sub aud vid : Nullable File) :
  extractLoop (f :: rest) sub aud vid
  = match extensionOf (name f) with
    | None => Error (String.append "Unable to determine extension of " (name f))
    | Some extension =>
        match kindOfExtension extension with
        | Some SubtitleKind =>
            if truthy sub
            then Error "Cannot open two subtitle files simultaneously"
            else extractLoop rest (Value f) aud vid
        | Some VideoKind =>
            if truthy vid
            then Error "Cannot open two video files simultaneously"
            else extractLoop rest sub aud (Value f)
        | Some AudioKind =>
            if truthy aud
            then Error "Cannot open two audio files simultaneously"
            else extractLoop rest sub (Value f) vid
        | None => Error (String.append "Unsupported extension " extension)
        end
    end.
Proof.
  cbn [extractLoop]. unfold extensionOf, kindOfExtension.
  destruct (lastIndexOf "." (name f) =? -1)%Z; [done|].
  destruct (_ || _); [done|].
  destruct (String.eqb _ "mkv"); [done|].
  by destruct (String.eqb _ "mp3").
Qed.

Lemma extractLoop_known (f : File) (rest : list File)
    (sub aud vid : Nullable File) (k : Kind) :
  kindOf f = Some k ->
  extractLoop (f :: rest) sub aud vid
  = match k with
    | SubtitleKind =>
        if truthy sub
        then Error "Cannot open two subtitle files simultaneously"
        else extractLoop rest (Value f) aud vid
    | VideoKind =>
        if truthy vid
        then Error "Cannot open two video files simultaneously"
        else extractLoop rest sub aud (Value f)
    | AudioKind =>
        if truthy aud
        then Error "Cannot open two audio files simultaneously"
        else extractLoop rest sub (Value f) vid
    end.
Proof.
  rewrite extractLoop_cons. unfold kindOf.
  destruct (extensionOf (name f)) as [e|]; cbn [mbind option_bind]; [|done].
  by intros ->.
Qed.

Lemma extractLoop_unknown (f : File) (rest : list File)
    (sub aud vid : Nullable File) :
  kindOf f = None ->
  exists message, extractLoop (f :: rest) sub aud vid = Error message.
Proof.
  rewrite extractLoop_cons. unfold kindOf.
  destruct (extensionOf (name f)) as [e|]; cbn [mbind option_bind];
    [|by eauto].
  intros ->. by eauto.
Qed.

Lemma ofKind_cons_same (k : Kind) (f : File) (rest : list File) :
  kindOf f = Some k -> ofKind k (f :: rest) = f :: ofKind k rest.
Proof. intros Hk. unfold ofKind. rewrite filter_cons. by rewrite decide_True. Qed.

Lemma ofKind_cons_other (k : Kind) (f : File) (rest : list File) :
  kindOf f <> Some k -> ofKind k (f :: rest) = ofKind k rest.
Proof. intros Hk. unfold ofKind. rewrite filter_cons. by rewrite decide_False. Qed.

(** The loop returns exactly when every file has a known extension and no
    variable is assigned twice, and then each variable holds what was
    assigned to it. *)
Lemma extractLoop_ok_iff (files : list File) (sub aud vid : Nullable File)
    (s : Sources) :
  extractLoop files sub aud vid = Ok s
  <-> Forall (fun f => is_Some (kindOf f)) files
      /\ slot sub (ofKind SubtitleKind files) (subtitleFile s)
      /\ slot aud (ofKind AudioKind files) (audioFile s)
      /\ slot vid (ofKind VideoKind files) (videoFile s)
      /\ truthy (videoFile s) && truthy (audioFile s) = false
      /\ audioFileUrl s = Undefined
      /\ videoFileUrl s = Undefined.
Proof.
  revert sub aud vid.
  induction files as [|f rest IH]; intros sub aud vid.
  - cbn [extractLoop ofKind slot]. cbn [slot].
    destruct s as [s1 s2 s3 s4 s5]; cbn.
    destruct (truthy vid && truthy aud) eqn:Hb.
    + split; [done|]. intros (_ & -> & -> & -> & Hf & _). congruence.
    + split.
      * intros [= <- <- <- <- <-]. by repeat split.
      * intros (_ & -> & -> & -> & _ & -> & ->). done.
  - rewrite Forall_cons.
    destruct (kindOf f) as [k|] eqn:Hk.
    2:{ destruct (extractLoop_unknown f rest sub aud vid Hk) as [m ->].
        split; [done|]. by intros ([[? [=]] _] & _). }
    rewrite (extractLoop_known _ _ _ _ _ _ Hk).
    destruct k.
    + rewrite (ofKind_cons_same SubtitleKind) by done.
      rewrite !ofKind_cons_other by congruence.
      destruct (truthy sub) eqn:Hs.
      * split; [done|]. intros (_ & Hsl & _).
        cbn [slot] in Hsl. destruct (ofKind SubtitleKind rest) as [|? ?];
          [destruct Hsl; congruence|done].
      * rewrite IH. cbn [slot].
        destruct (ofKind SubtitleKind rest) as [|g [|h l]]; cbn [slot truthy];
          clear IH; intuition (try discriminate; eauto).
    + rewrite (ofKind_cons_same VideoKind) by done.
      rewrite !ofKind_cons_other by congruence.
      destruct (truthy vid) eqn:Hs.
      * split; [done|]. intros (_ & _ & _ & Hsl & _).
        cbn [slot] in Hsl. destruct (ofKind VideoKind rest) as [|? ?];
          [destruct Hsl; congruence|done].
      * rewrite IH. cbn [slot].
        destruct (ofKind VideoKind rest) as [|g [|h l]]; cbn [slot truthy];
          clear IH; intuition (try discriminate; eauto).
    + rewrite (ofKind_cons_same AudioKind) by done.
      rewrite !ofKind_cons_other by congruence.
      destruct (truthy aud) eqn:Hs.
      * split; [done|]. intros (_ & _ & Hsl & _).
        cbn [slot] in Hsl. destruct (ofKind AudioKind rest) as [|? ?];
          [destruct Hsl; congruence|done].
      * rewrite IH. cbn [slot].
        destruct (ofKind AudioKind rest) as [|g [|h l]]; cbn [slot truthy];
          clear IH; intuition (try discriminate; eauto).
Qed.

Lemma extractSources_ok_iff (files : list File) (s : Sources) :
  extractSources files = Ok s
  <-> Forall (fun f => is_Some (kindOf f)) files
      /\ slot Null (ofKind SubtitleKind files) (subtitleFile s)
      /\ slot Null (ofKind AudioKind files) (audioFile s)
      /\ slot Null (ofKind VideoKind files) (videoFile s)
      /\ truthy (videoFile s) && truthy (audioFile s) = false
      /\ audioFileUrl s = Undefined
      /\ videoFileUrl s = Undefined.
Proof. apply extractLoop_ok_iff. Qed.

Lemma slot_Null (found : list File) (res : Nullable File) :
  slot Null found res
  <-> (found = [] /\ res = Null) \/ (exists f, found = [f] /\ res = Value f).
Proof.
  destruct found as [|f [|g l]]; cbn [slot truthy].
  - split; [by left|]. by intros [[_ ?]|(? & [=] & _)].
  - split; [intros [_ ->]; right; by eauto|].
    by intros [[[=] _]|(? & [= <-] & ->)].
  - split; [done|]. by intros [[[=] _]|(? & [=] & _)].
Qed.

Lemma slot_Permutation (acc : Nullable File) (found found' : list File)
    (res : Nullable File) :
  found ≡ₚ found' -> slot acc found res -> slot acc found' res.
Proof.
  intros Hp. destruct found as [|f [|g l]]; cbn [slot]; [| |done].
  - apply Permutation_nil_l in Hp. by subst.
  - apply Permutation_singleton_l in Hp. by subst.
Qed.

Lemma elem_of_ofKind (k : Kind) (files : list File) (f : File) :
  f ∈ ofKind k files <-> f ∈ files /\ kindOf f = Some k.
Proof. unfold ofKind. rewrite list_elem_of_filter. tauto. Qed.

(** The kind read off a name is the case the text after its last dot
    selects. *)
Lemma kindOf_reads_last_extension (f : File) (k : Kind) :
  kindOf f = Some k
  <-> exists base ext,
        name f = String.append base (String "." ext)
        /\ ~ occursIn "." ext
        /\ kindOfExtension ext = Some k.
Proof.
  unfold kindOf. split.
  - destruct (extensionOf (name f)) as [e|] eqn:He; cbn [mbind option_bind];
      [|done].
    intros Hk. unfold extensionOf in He.
    destruct (Z.eqb_spec (lastIndexOf "." (name f)) (-1)) as [|Hne]; [done|].
    pose proof (lastIndexOf_range "." (name f)) as Hr.
    destruct (lastIndexOf_found "." (name f)) as (base & ext & Hn & Hno);
      [lia|].
    exists base, ext.
    pose proof (extensionOf_split base ext Hno) as Hsplit.
    rewrite <- Hn in Hsplit. unfold extensionOf in Hsplit.
    destruct (Z.eqb_spec (lastIndexOf "." (name f)) (-1)); [done|].
    rewrite He in Hsplit. injection Hsplit as ->. done.
  - intros (base & ext & -> & Hno & Hk).
    by rewrite (extensionOf_split base ext Hno).
Qed.

(** What a variable of the loop holds at the end, given the files assigned
    to it. *)
Definition held (found : list File) : Nullable File :=
  match found with
  | [f] => Value f
  | _ => Null
  end.

Lemma slot_held (found : list File) :
  length found <= 1 -> slot Null found (held found).
Proof. destruct found as [|f [|g l]]; cbn; [done|done|lia]. Qed.

Lemma slot_length (found : list File) (res : Nullable File) :
  slot Null found res -> length found <= 1 /\ truthy res = bool_decide (found <> []).
Proof.
  rewrite slot_Null. intros [[-> ->]|(f & -> & ->)]; cbn; split; try lia; done.
Qed.

(** X21: [extractSources] returns, instead of throwing, exactly when every
    dropped file has one of the known extensions, at most one of them is a
    subtitle file and at most one is a media file, audio or video. *)
Theorem extractSources_accepts_iff (files : list File) :
  (exists s, extractSources files = Ok s)
  <-> Forall (fun f => is_Some (kindOf f)) files
      /\ length (ofKind SubtitleKind files) <= 1
      /\ length (ofKind VideoKind files) + length (ofKind AudioKind files) <= 1.
Proof.
  split.
  - intros [s Hs]. apply extractSources_ok_iff in Hs.
    destruct Hs as (Hall & Hsub & Haud & Hvid & Hboth & _).
    apply slot_length in Hsub, Haud, Hvid.
    destruct Hsub as [Hsub _], Haud as [Haud Ha], Hvid as [Hvid Hv].
    split; [done|]. split; [done|].
    rewrite Ha, Hv in Hboth.
    destruct (ofKind VideoKind files) as [|? ?]; [simpl; lia|].
    destruct (ofKind AudioKind files) as [|? ?]; [simpl in *; lia|].
    rewrite !bool_decide_eq_true_2 in Hboth by done. done.
  - intros (Hall & Hsub & Hmedia).
    exists (mkSources (held (ofKind SubtitleKind files))
              (held (ofKind AudioKind files)) Undefined
              (held (ofKind VideoKind files)) Undefined).
    apply extractSources_ok_iff. cbn.
    split; [done|].
    split; [by apply slot_held|].
    split; [apply slot_held; lia|].
    split; [apply slot_held; lia|].
    split; [|done].
    destruct (ofKind VideoKind files) as [|? [|? ?]]; [done| |done].
    destruct (ofKind AudioKind files) as [|? [|? ?]]; [done| |done].
    simpl in Hmedia. lia.
Qed.

(** X22: what [extractSources] returns holds exactly the dropped files,
    each in the field of its kind, and never an audio and a video file
    together. *)
Theorem extractSources_returns_the_files (files : list File) (s : Sources) :
  extractSources files = Ok s ->
  (forall f, f ∈ files
             <-> subtitleFile s = Value f \/ audioFile s = Value f
                 \/ videoFile s = Value f)
  /\ (forall f, subtitleFile s = Value f -> kindOf f = Some SubtitleKind)
  /\ (forall f, audioFile s = Value f -> kindOf f = Some AudioKind)
  /\ (forall f, videoFile s = Value f -> kindOf f = Some VideoKind)
  /\ truthy (audioFile s) && truthy (videoFile s) = false.
Proof.
  intros Hs. apply extractSources_ok_iff in Hs.
  destruct Hs as (Hall & Hsub & Haud & Hvid & Hboth & _).
  rewrite slot_Null in Hsub, Haud, Hvid.
  assert (Hin : forall k res, 
    (ofKind k files = [] /\ res = Null
     \/ exists f, ofKind k files = [f] /\ res = Value f) ->
    forall f, res = Value f <-> f ∈ files /\ kindOf f = Some k).
  { intros k res Hk f. rewrite <- elem_of_ofKind.
    destruct Hk as [[-> ->]|(g & -> & ->)].
    - split; [done|]. by intros ?%not_elem_of_nil.
    - rewrite list_elem_of_singleton. split; congruence. }
  pose proof (Hin _ _ Hsub) as Hs. pose proof (Hin _ _ Haud) as Ha.
  pose proof (Hin _ _ Hvid) as Hv.
  split; [|split; [|split; [|split]]].
  - intros f. rewrite Hs, Ha, Hv. split.
    + intros Hf. rewrite Forall_forall in Hall.
      destruct (Hall f Hf) as [[] Hk]; by eauto.
    + by intros [[? _]|[[? _]|[? _]]].
  - intros f Hf. by apply Hs in Hf as [_ ?].
  - intros f Hf. by apply Ha in Hf as [_ ?].
  - intros f Hf. by apply Hv in Hf as [_ ?].
  - by rewrite andb_comm.
Qed.

Lemma name_shape (n : string) :
  ~ occursIn "." n
  \/ exists base ext, n = String.append base (String "." ext) /\ ~ occursIn "." ext.
Proof.
  destruct (Z.leb_spec 0 (lastIndexOf "." n)) as [Hle|Hlt].
  - right. by apply lastIndexOf_found.
  - left. apply lastIndexOf_absent. pose proof (lastIndexOf_range "." n). lia.
Qed.

Lemma extensionOf_dotless (n : string) :
  ~ occursIn "." n -> extensionOf n = None.
Proof.
  intros Hno%lastIndexOf_absent. unfold extensionOf. by rewrite Hno.
Qed.

(** X20: [extractSources] decides by the text after the last dot of the
    file name, compared as it is written.  Dropped alone, a file whose name
    has no dot is refused with 'Unable to determine extension of' and its
    name; a file named [base.ext], with no dot in [ext], is returned as the
    subtitle file for [ext] 'ass' or 'srt', as the video file for 'mkv', as
    the audio file for 'mp3', and refused with 'Unsupported extension' and
    [ext] otherwise.  In every accepted drop the file sits in the field its
    extension selects. *)
Theorem extractSources_reads_last_extension (f : File) :
  ((~ occursIn "." (name f)
    /\ extractSources [f]
       = Error (String.append "Unable to determine extension of " (name f)))
   \/ exists base ext,
        name f = String.append base (String "." ext)
        /\ ~ occursIn "." ext
        /\ extractSources [f]
           = if String.eqb ext "ass" || String.eqb ext "srt"
             then Ok (mkSources (Value f) Null Undefined Null Undefined)
             else if String.eqb ext "mkv"
             then Ok (mkSources Null Null Undefined (Value f) Undefined)
             else if String.eqb ext "mp3"
             then Ok (mkSources Null (Value f) Undefined Null Undefined)
             else Error (String.append "Unsupported extension " ext))
  /\ forall files s base ext,
       f ∈ files ->
       extractSources files = Ok s ->
       name f = String.append base (String "." ext) ->
       ~ occursIn "." ext ->
       ((ext = "ass" \/ ext = "srt") /\ subtitleFile s = Value f)
       \/ (ext = "mkv" /\ videoFile s = Value f)
       \/ (ext = "mp3" /\ audioFile s = Value f).
Proof.
  split.
  - unfold extractSources. rewrite extractLoop_cons.
    destruct (name_shape (name f)) as [Hno|(base & ext & Hname & Hno)].
    + left. split; [done|]. by rewrite (extensionOf_dotless _ Hno).
    + right. exists base, ext. split; [done|]. split; [done|].
      rewrite Hname, (extensionOf_split base ext Hno). unfold kindOfExtension.
      destruct (String.eqb ext "ass" || String.eqb ext "srt"); [done|].
      destruct (String.eqb ext "mkv"); [done|].
      by destruct (String.eqb ext "mp3").
  - intros files s base ext Hin Hok Hname Hno.
    apply extractSources_ok_iff in Hok as (Hall & Hsub & Haud & Hvid & _).
    rewrite slot_Null in Hsub, Haud, Hvid.
    assert (Hfield : forall k res,
      kindOf f = Some k ->
      (ofKind k files = [] /\ res = Null
       \/ exists g, ofKind k files = [g] /\ res = Value g) ->
      res = Value f).
    { intros k res Hk Hslot.
      assert (Hmem : f ∈ ofKind k files) by by apply elem_of_ofKind.
      destruct Hslot as [[Hnil _]|(g & Hone & ->)].
      - rewrite Hnil in Hmem. by apply not_elem_of_nil in Hmem.
      - rewrite Hone in Hmem. apply list_elem_of_singleton in Hmem. by subst. }
    rewrite Forall_forall in Hall. destruct (Hall f Hin) as [k Hk].
    pose proof Hk as Hkind. unfold kindOf in Hkind.
    rewrite Hname, (extensionOf_split base ext Hno) in Hkind.
    cbn [mbind option_bind] in Hkind. unfold kindOfExtension in Hkind.
    destruct (String.eqb_spec ext "ass") as [->|_].
    { injection Hkind as <-. left. split; [by left|]. by eapply Hfield. }
    destruct (String.eqb_spec ext "srt") as [->|_].
    { injection Hkind as <-. left. split; [by right|]. by eapply Hfield. }
    destruct (String.eqb_spec ext "mkv") as [->|_].
    { injection Hkind as <-. right. left. split; [done|]. by eapply Hfield. }
    destruct (String.eqb_spec ext "mp3") as [->|_]; [|done].
    injection Hkind as <-. right. right. split; [done|]. by eapply Hfield.
Qed.

(** X23: the order of the files in a drop does not matter to what
    [extractSources] returns. *)
Theorem extractSources_order_irrelevant (files files' : list File)
    (s : Sources) :
  files ≡ₚ files' ->
  extractSources files = Ok s <-> extractSources files' = Ok s.
Proof.
  assert (Hone : forall l l', l ≡ₚ l' ->
            extractSources l = Ok s -> extractSources l' = Ok s).
  { intros l l' Hp. rewrite !extractSources_ok_iff.
    intros (Hall & Hsub & Haud & Hvid & Hrest).
    split; [by rewrite <- Hp|].
    split; [eapply slot_Permutation; [|exact Hsub]; unfold ofKind; by rewrite Hp|].
    split; [eapply slot_Permutation; [|exact Haud]; unfold ofKind; by rewrite Hp|].
    split; [eapply slot_Permutation; [|exact Hvid]; unfold ofKind; by rewrite Hp|].
    done. }
  intros Hp. split; [by apply Hone|]. by apply Hone.
Qed.

(** ** The state of [App] and its handlers *)

#[global] Instance Nullable_eq_dec {A : Type} `{EqDecision A} :
  EqDecision (Nullable A).
Proof. solve_decision. Defined.

(** A subtitle as the player passes it to [handleCopy] (times in
    milliseconds). *)
Record SubtitleModel : Type := mkSubtitleModel {
  text : string;
  originalStart : Z;
  originalEnd : Z
}.

(** An entry of the copy history: the subtitle spread into an object with
    the fields [handleCopy] adds. *)
Record CopiedSubtitle : Type := mkCopiedSubtitle {
  copied_subtitle : SubtitleModel;
  timestamp : Z;
  copied_name : Nullable string;
  copied_subtitleFile : Nullable File;
  copied_audioFile : Nullable File;
  copied_videoFile : Nullable File;
  audioTrack : Nullable string
}.

Record Jump : Type := mkJump {
  jump_text : string;
  jump_originalStart : Z
}.

(** What the handlers do outside the state of the component. *)
Inductive Effect : Type :=
| PreventDefault
| CreateObjectURL (f : File) (url : Url)
| RevokeObjectURL (url : Nullable Url).

(** The state hooks of [App], the next object URL the browser hands out,
    and the effects so far, oldest first.  State updaters run in the order
    of their calls, once each. *)
Record State : Type := mkState {
  copiedSubtitles : list CopiedSubtitle;
  copyHistoryOpen : bool;
  alert : Nullable string;
  alertOpen : bool;
  alertSeverity : Nullable string;
  jumpToSubtitle : Nullable Jump;
  sources : Sources;
  fileName : Nullable string;
  nextUrl : Url;
  effects : list Effect
}.

Definition initial : State :=
  mkState [] false Undefined false Undefined Undefined
    (mkSources Undefined Undefined Undefined Undefined Undefined)
    Undefined 0 [].

Definition setCopiedSubtitles (v : list CopiedSubtitle) (st : State) : State :=
  mkState v (copyHistoryOpen st) (alert st) (alertOpen st) (alertSeverity st)
    (jumpToSubtitle st) (sources st) (fileName st) (nextUrl st) (effects st).

Definition setCopyHistoryOpen (v : bool) (st : State) : State :=
  mkState (copiedSubtitles st) v (alert st) (alertOpen st) (alertSeverity st)
    (jumpToSubtitle st) (sources st) (fileName st) (nextUrl st) (effects st).

Definition setAlert (v : Nullable string) (st : State) : State :=
  mkState (copiedSubtitles st) (copyHistoryOpen st) v (alertOpen st)
    (alertSeverity st) (jumpToSubtitle st) (sources st) (fileName st)
    (nextUrl st) (effects st).

Definition setAlertOpen (v : bool) (st : State) : State :=
  mkState (copiedSubtitles st) (copyHistoryOpen st) (alert st) v
    (alertSeverity st) (jumpToSubtitle st) (sources st) (fileName st)
    (nextUrl st) (effects st).

Definition setAlertSeverity (v : Nullable string) (st : State) : State :=
  mkState (copiedSubtitles st) (copyHistoryOpen st) (alert st) (alertOpen st)
    v (jumpToSubtitle st) (sources st) (fileName st) (nextUrl st) (effects st).

Definition setJumpToSubtitle (v : Nullable Jump) (st : State) : State :=
  mkState (copiedSubtitles st) (copyHistoryOpen st) (alert st) (alertOpen st)
    (alertSeverity st) v (sources st) (fileName st) (nextUrl st) (effects st).

Definition setSources (v : Sources) (st : State) : State :=
  mkState (copiedSubtitles st) (copyHistoryOpen st) (alert st) (alertOpen st)
    (alertSeverity st) (jumpToSubtitle st) v (fileName st) (nextUrl st)
    (effects st).

Definition setFileName (v : Nullable string) (st : State) : State :=
  mkState (copiedSubtitles st) (copyHistoryOpen st) (alert st) (alertOpen st)
    (alertSeverity st) (jumpToSubtitle st) (sources st) v (nextUrl st)
    (effects st).

Definition emit (e : Effect) (st : State) : State :=
  mkState (copiedSubtitles st) (copyHistoryOpen st) (alert st) (alertOpen st)
    (alertSeverity st) (jumpToSubtitle st) (sources st) (fileName st)
    (nextUrl st) (effects st ++ [e]).

(** [URL.createObjectURL(f)]: a URL no earlier call returned. *)
Definition createObjectURL (f : File) (st : State) : Url * State :=
  (nextUrl st,
   mkState (copiedSubtitles st) (copyHistoryOpen st) (alert st) (alertOpen st)
     (alertSeverity st) (jumpToSubtitle st) (sources st) (fileName st)
     (S (nextUrl st)) (effects st ++ [CreateObjectURL f (nextUrl st)])).

Definition handleCopy (subtitle : SubtitleModel)
    (audioFile videoFile subtitleFile : Nullable File)
    (audioTrack : Nullable string) (now : Z) (st : State) : State :=
  let st := setCopiedSubtitles
              (copiedSubtitles st
               ++ [mkCopiedSubtitle subtitle now (fileName st) subtitleFile
                     audioFile videoFile audioTrack]) st in
  let st := setAlertSeverity (Value "success") st in
  let st := setAlert (Value (String.append "Copied " (text subtitle))) st in
  setAlertOpen true st.

Definition handleOpenCopyHistory (st : State) : State :=
  setCopyHistoryOpen (negb (copyHistoryOpen st)) st.

Definition handleCloseCopyHistory (st : State) : State :=
  setCopyHistoryOpen false st.

Definition handleDeleteCopyHistoryItem (item : CopiedSubtitle) (st : State)
    : State :=
  let newCopiedSubtitles :=
    filter (fun subtitle => timestamp item <> timestamp subtitle)
      (copiedSubtitles st) in
  setCopiedSubtitles newCopiedSubtitles st.

Definition handleAlertClosed (st : State) : State :=
  setAlertOpen false st.

Definition handleError (message : string) (st : State) : State :=
  let st := setAlertSeverity (Value "error") st in
  let st := setAlert (Value message) st in
  setAlertOpen true st.

Definition handleUnloadAudio (url : Nullable Url) (st : State) : State :=
  if decide (url <> audioFileUrl (sources st)) then st
  else
    let previous := sources st in
    let st := emit (RevokeObjectURL url) st in
    setSources
      (mkSources (subtitleFile previous) Null Null
         (videoFile previous) (videoFileUrl previous)) st.

Definition handleUnloadVideo (url : Nullable Url) (st : State) : State :=
  if decide (url <> videoFileUrl (sources st)) then st
  else
    let previous := sources st in
    let st := emit (RevokeObjectURL url) st in
    setSources
      (mkSources (subtitleFile previous) (audioFile previous)
         (audioFileUrl previous) Null Null) st.

(** Throws a [TypeError] when no subtitle file is loaded, or the item has
    none. *)
Definition handleSelectCopyHistoryItem (item : CopiedSubtitle) (st : State)
    : Result State :=
  match subtitleFile (sources st), copied_subtitleFile item with
  | Value loaded, Value copied =>
      if decide (name loaded <> name copied)
      then Ok (handleError
                 (String.append "Subtitle file "
                    (String.append (name copied) " is not open.")) st)
      else Ok (setJumpToSubtitle
                 (Value (mkJump (text (copied_subtitle item))
                           (originalStart (copied_subtitle item)))) st)
  | _, _ => Error "TypeError"
  end.

Definition revokeUrls (sources : Sources) (st : State) : State :=
  let st := if truthy (audioFileUrl sources)
            then emit (RevokeObjectURL (audioFileUrl sources)) st else st in
  if truthy (videoFileUrl sources)
  then emit (RevokeObjectURL (videoFileUrl sources)) st else st.

(** The updater [handleDrop] passes to [setSources], for the files
    [extractSources] returned. *)
Definition dropUpdater (extracted : Sources) (st : State) : State :=
  let previous := sources st in
  let subtitleFile' :=
    orElse (subtitleFile extracted) (subtitleFile previous) in
  match videoFile extracted, audioFile extracted with
  | Value video, _ =>
      let st := revokeUrls previous st in
      let '(videoFileUrl', st) := createObjectURL video st in
      setSources
        (mkSources subtitleFile' (audioFile extracted) Null
           (videoFile extracted) (Value videoFileUrl')) st
  | _, Value audio =>
      let st := revokeUrls previous st in
      let '(audioFileUrl', st) := createObjectURL audio st in
      setSources
        (mkSources subtitleFile' (audioFile extracted) (Value audioFileUrl')
           (videoFile extracted) Null) st
  | _, _ =>
      setSources
        (mkSources subtitleFile' (audioFile previous) (audioFileUrl previous)
           (videoFile previous) (videoFileUrl previous)) st
  end.

(** [handleDrop(e)], for [files = e.dataTransfer.files]. *)
Definition handleDrop (files : Nullable (list File)) (st : State) : State :=
  let st := emit PreventDefault st in
  match files with
  | Value (file :: rest) =>
      match extractSources (file :: rest) with
      | Ok extracted =>
          let st := dropUpdater extracted st in
          match subtitleFile extracted with
          | Value subtitle => setFileName (Value (name subtitle)) st
          | _ => st
          end
      | Error message => handleError message st
      end
  | _ => st
  end.

(** What the user, the player and the browser make [App] do. *)
Inductive Action : Type :=
| Copy (subtitle : SubtitleModel)
    (audioFile videoFile subtitleFile : Nullable File)
    (audioTrack : Nullable string) (now : Z)
| OpenCopyHistory
| CloseCopyHistory
| DeleteCopyHistoryItem (item : CopiedSubtitle)
| AlertClosed
| UnloadAudio (url : Nullable Url)
| UnloadVideo (url : Nullable Url)
| SelectCopyHistoryItem (item : CopiedSubtitle)
| Drop (files : Nullable (list File)).

(** One handler call; a handler that throws leaves the state as it was. *)
Definition step (st : State) (a : Action) : State :=
  match a with
  | Copy subtitle audioFile videoFile subtitleFile audioTrack now =>
      handleCopy subtitle audioFile videoFile subtitleFile audioTrack now st
  | OpenCopyHistory => handleOpenCopyHistory st
  | CloseCopyHistory => handleCloseCopyHistory st
  | DeleteCopyHistoryItem item => handleDeleteCopyHistoryItem item st
  | AlertClosed => handleAlertClosed st
  | UnloadAudio url => handleUnloadAudio url st
  | UnloadVideo url => handleUnloadVideo url st
  | SelectCopyHistoryItem item =>
      match handleSelectCopyHistoryItem item st with
      | Ok st' => st'
      | Error _ => st
      end
  | Drop files => handleDrop files st
  end.

Definition run (st : State) (actions : list Action) : State :=
  foldl step st actions.

(** How often an object URL was created and revoked, and whether the
    sources hold it. *)
Definition isCreate (u : Url) (e : Effect) : bool :=
  match e with
  | CreateObjectURL _ u' => bool_decide (u' = u)
  | _ => false
  end.

Definition isRevoke (u : Url) (e : Effect) : bool :=
  match e with
  | RevokeObjectURL (Value u') => bool_decide (u' = u)
  | _ => false
  end.

Definition count (p : Effect -> bool) (es : list Effect) : nat :=
  length (List.filter p es).

Definition created (u : Url) (st : State) : nat :=
  count (isCreate u) (effects st).

Definition revoked (u : Url) (st : State) : nat :=
  count (isRevoke u) (effects st).

Definition inUse (u : Url) (st : State) : bool :=
  bool_decide (audioFileUrl (sources st) = Value u)
  || bool_decide (videoFileUrl (sources st) = Value u).

(** A media file is loaded exactly when it has an object URL, and audio and
    video are never loaded together. *)
Definition oneMedium (s : Sources) : Prop :=
  truthy (audioFile s) = truthy (audioFileUrl s)
  /\ truthy (videoFile s) = truthy (videoFileUrl s)
  /\ truthy (audioFile s) && truthy (videoFile s) = false.

(** Every object URL handed out was created once, and is either in use or
    was revoked once. *)
Definition urlsAccounted (st : State) : Prop :=
  forall u,
    created u st = (if bool_decide (u < nextUrl st) then 1 else 0)
    /\ revoked u st + (if inUse u st then 1 else 0) = created u st.

(** The file name shown is the name of the loaded subtitle file. *)
Definition namedAfterSubtitle (st : State) : Prop :=
  match subtitleFile (sources st) with
  | Value f => fileName st = Value (name f)
  | _ => fileName st = Undefined
  end.

(** ** Invariants of the handlers *)

Lemma count_snoc (p : Effect -> bool) (es : list Effect) (e : Effect) :
  count p (es ++ [e]) = count p es + (if p e then 1 else 0).
Proof.
  unfold count. rewrite List.filter_app, length_app. cbn [List.filter].
  by destruct (p e).
Qed.

Lemma extracted_shape (files : list File) (extracted : Sources) :
  extractSources files = Ok extracted ->
  subtitleFile extracted <> Undefined
  /\ audioFile extracted <> Undefined
  /\ videoFile extracted <> Undefined
  /\ truthy (videoFile extracted) && truthy (audioFile extracted) = false.
Proof.
  rewrite extractSources_ok_iff.
  intros (_ & Hs & Ha & Hv & Hboth & _).
  rewrite slot_Null in Hs, Ha, Hv.
  repeat split; try done.
  - destruct Hs as [[_ ->]|(? & _ & ->)]; done.
  - destruct Ha as [[_ ->]|(? & _ & ->)]; done.
  - destruct Hv as [[_ ->]|(? & _ & ->)]; done.
Qed.

Definition invariant (st : State) : Prop :=
  oneMedium (sources st) /\ urlsAccounted st /\ namedAfterSubtitle st.

Lemma invariant_ext (st st' : State) :
  sources st' = sources st ->
  fileName st' = fileName st ->
  nextUrl st' = nextUrl st ->
  effects st' = effects st ->
  invariant st -> invariant st'.
Proof.
  intros Hs Hf Hn He (Hone & Hurls & Hname).
  unfold invariant, urlsAccounted, namedAfterSubtitle, created, revoked, inUse.
  rewrite Hs, Hf, Hn, He. done.
Qed.

Lemma invariant_initial : invariant initial.
Proof.
  split; [done|]. split; [|done].
  intros u. cbn. rewrite bool_decide_eq_false_2 by lia. done.
Qed.

Lemma invariant_preventDefault (st : State) :
  invariant st -> invariant (emit PreventDefault st).
Proof.
  intros (Hone & Hurls & Hname). split; [done|]. split; [|done].
  intros u. destruct (Hurls u) as [Hc Hr].
  unfold created, revoked, inUse in *. cbn [effects emit sources nextUrl].
  rewrite !count_snoc. cbn [isCreate isRevoke]. rewrite !Nat.add_0_r. done.
Qed.

Ltac url_cases :=
  repeat match goal with
    | |- context [bool_decide ?P] => destruct (bool_decide_reflect P)
    | H : context [bool_decide ?P] |- _ => destruct (bool_decide_reflect P)
    end;
  cbn in *; try congruence; try lia.

Lemma invariant_unloadAudio (url : Nullable Url) (st : State) :
  invariant st -> invariant (handleUnloadAudio url st).
Proof.
  intros Hinv. unfold handleUnloadAudio.
  destruct (decide (url <> audioFileUrl (sources st))) as [|Heq]; [done|].
  apply dec_stable in Heq. subst url.
  destruct Hinv as ((Ha & Hv & Hboth) & Hurls & Hname).
  split; [|split].
  - unfold oneMedium. cbn. by split_and!.
  - intros u. destruct (Hurls u) as [Hc Hr].
    unfold created, revoked, inUse in *.
    cbn [effects emit sources nextUrl setSources audioFileUrl videoFileUrl].
    rewrite !count_snoc. cbn [isCreate isRevoke].
    destruct (audioFileUrl (sources st)) as [| |au];
      destruct (videoFileUrl (sources st)) as [| |vu];
      destruct (audioFile (sources st)), (videoFile (sources st));
      cbn in Ha, Hv, Hboth; try discriminate; url_cases.
  - unfold namedAfterSubtitle in *. cbn. exact Hname.
Qed.

Lemma invariant_unloadVideo (url : Nullable Url) (st : State) :
  invariant st -> invariant (handleUnloadVideo url st).
Proof.
  intros Hinv. unfold handleUnloadVideo.
  destruct (decide (url <> videoFileUrl (sources st))) as [|Heq]; [done|].
  apply dec_stable in Heq. subst url.
  destruct Hinv as ((Ha & Hv & Hboth) & Hurls & Hname).
  split; [|split].
  - unfold oneMedium. cbn. split_and!; [done|done|apply andb_false_r].
  - intros u. destruct (Hurls u) as [Hc Hr].
    unfold created, revoked, inUse in *.
    cbn [effects emit sources nextUrl setSources audioFileUrl videoFileUrl].
    rewrite !count_snoc. cbn [isCreate isRevoke].
    destruct (audioFileUrl (sources st)) as [| |au];
      destruct (videoFileUrl (sources st)) as [| |vu];
      destruct (audioFile (sources st)), (videoFile (sources st));
      cbn in Ha, Hv, Hboth; try discriminate; url_cases.
  - unfold namedAfterSubtitle in *. cbn. exact Hname.
Qed.

Lemma revokeUrls_fields (s : Sources) (st : State) :
  sources (revokeUrls s st) = sources st
  /\ fileName (revokeUrls s st) = fileName st
  /\ nextUrl (revokeUrls s st) = nextUrl st.
Proof.
  unfold revokeUrls. by destruct (truthy (audioFileUrl s)), (truthy (videoFileUrl s)).
Qed.

Lemma revokeUrls_counts (u : Url) (s : Sources) (st : State) :
  created u (revokeUrls s st) = created u st
  /\ revoked u (revokeUrls s st)
     = revoked u st
       + (if bool_decide (audioFileUrl s = Value u) then 1 else 0)
       + (if bool_decide (videoFileUrl s = Value u) then 1 else 0).
Proof.
  unfold revokeUrls, created, revoked.
  destruct (audioFileUrl s) as [| |au]; destruct (videoFileUrl s) as [| |vu];
    cbn [truthy emit effects]; rewrite ?count_snoc; cbn [isCreate isRevoke];
    url_cases.
Qed.

(** The three ways of the updater: a video file dropped, an audio file
    dropped, no media dropped. *)
Lemma dropUpdater_video (extracted : Sources) (st : State) (video : File) :
  videoFile extracted = Value video ->
  dropUpdater extracted st
  = setSources
      (mkSources (orElse (subtitleFile extracted) (subtitleFile (sources st)))
         (audioFile extracted) Null (Value video)
         (Value (nextUrl (revokeUrls (sources st) st))))
      (snd (createObjectURL video (revokeUrls (sources st) st))).
Proof. unfold dropUpdater. by intros ->. Qed.

Lemma dropUpdater_audio (extracted : Sources) (st : State) (audio : File) :
  truthy (videoFile extracted) = false ->
  audioFile extracted = Value audio ->
  dropUpdater extracted st
  = setSources
      (mkSources (orElse (subtitleFile extracted) (subtitleFile (sources st)))
         (Value audio) (Value (nextUrl (revokeUrls (sources st) st)))
         (videoFile extracted) Null)
      (snd (createObjectURL audio (revokeUrls (sources st) st))).
Proof.
  unfold dropUpdater. intros Hv ->. by destruct (videoFile extracted).
Qed.

Lemma dropUpdater_none (extracted : Sources) (st : State) :
  truthy (videoFile extracted) = false ->
  truthy (audioFile extracted) = false ->
  dropUpdater extracted st
  = setSources
      (mkSources (orElse (subtitleFile extracted) (subtitleFile (sources st)))
         (audioFile (sources st)) (audioFileUrl (sources st))
         (videoFile (sources st)) (videoFileUrl (sources st))) st.
Proof.
  unfold dropUpdater. intros Hv Ha.
  by destruct (videoFile extracted), (audioFile extracted).
Qed.

Lemma urls_distinct (st : State) :
  oneMedium (sources st) ->
  truthy (audioFileUrl (sources st)) && truthy (videoFileUrl (sources st))
  = false.
Proof. intros (Ha & Hv & Hnot). by rewrite <- Ha, <- Hv. Qed.

Lemma invariant_dropUpdater (extracted : Sources) (st : State) :
  truthy (videoFile extracted) && truthy (audioFile extracted) = false ->
  oneMedium (sources st) -> urlsAccounted st ->
  oneMedium (sources (dropUpdater extracted st))
  /\ urlsAccounted (dropUpdater extracted st)
  /\ subtitleFile (sources (dropUpdater extracted st))
     = orElse (subtitleFile extracted) (subtitleFile (sources st))
  /\ fileName (dropUpdater extracted st) = fileName st.
Proof.
  intros Hboth Hone Hurls.
  pose proof (urls_distinct st Hone) as Hurl.
  destruct (revokeUrls_fields (sources st) st) as (Hrs & Hrf & Hrn).
  assert (Hmedia : forall f sub audio video,
    urlsAccounted
      (setSources
         (mkSources sub audio Null video
            (Value (nextUrl (revokeUrls (sources st) st))))
         (snd (createObjectURL f (revokeUrls (sources st) st))))
    /\ urlsAccounted
      (setSources
         (mkSources sub audio (Value (nextUrl (revokeUrls (sources st) st)))
            video Null)
         (snd (createObjectURL f (revokeUrls (sources st) st))))).
  { intros f sub audio video. split; intros u; destruct (Hurls u) as [Hc Hr];
      destruct (revokeUrls_counts u (sources st) st) as [Hrc Hrr];
      clear Hurls Hone Hboth Hrs Hrf;
      unfold created, revoked, inUse in *;
      cbn [setSources createObjectURL snd effects sources nextUrl
           audioFileUrl videoFileUrl];
      rewrite !count_snoc, Hrc, Hrr, Hrn; cbn [isCreate isRevoke];
      destruct (audioFileUrl (sources st)) as [| |au];
      destruct (videoFileUrl (sources st)) as [| |vu];
      try discriminate Hurl; url_cases. }
  destruct (videoFile extracted) as [| |video] eqn:Hv.
  3:{ rewrite (dropUpdater_video _ _ video Hv). cbn in Hboth.
      split; [|split; [apply Hmedia|by cbn]].
      unfold oneMedium. cbn. by destruct (audioFile extracted). }
  all: destruct (audioFile extracted) as [| |audio] eqn:Ha.
  all: try (rewrite (dropUpdater_audio _ _ audio) by (by rewrite ?Hv);
            split; [|split; [apply Hmedia|by cbn]];
            rewrite ?Hv; unfold oneMedium; by cbn).
  all: rewrite dropUpdater_none by (by rewrite ?Hv, ?Ha);
    (split; [exact Hone|]); (split; [|by cbn]);
    intros u; destruct (Hurls u) as [Hc Hr]; by split.
Qed.

Lemma invariant_drop (files : Nullable (list File)) (st : State) :
  invariant st -> invariant (handleDrop files st).
Proof.
  intros Hinv%invariant_preventDefault. unfold handleDrop.
  destruct files as [| |[|f fs]]; try done.
  destruct (extractSources (f :: fs)) as [extracted|message] eqn:Hex.
  2:{ revert Hinv. by apply invariant_ext. }
  destruct (extracted_shape _ _ Hex) as (_ & _ & _ & Hboth).
  destruct Hinv as (Hone & Hurls & Hname).
  destruct (invariant_dropUpdater extracted _ Hboth Hone Hurls)
    as (Hone' & Hurls' & Hsub & Hfile).
  unfold namedAfterSubtitle in Hname.
  destruct (subtitleFile extracted) as [| |subtitle] eqn:Hs;
    cbn [orElse truthy] in Hsub.
  - split; [done|]. split; [done|].
    unfold namedAfterSubtitle. by rewrite Hsub, Hfile.
  - split; [done|]. split; [done|].
    unfold namedAfterSubtitle. by rewrite Hsub, Hfile.
  - split; [done|]. split; [exact Hurls'|].
    unfold namedAfterSubtitle. cbn [setFileName sources fileName].
    by rewrite Hsub.
Qed.

Lemma invariant_step (st : State) (a : Action) :
  invariant st -> invariant (step st a).
Proof.
  intros Hinv. destruct a; cbn [step].
  - revert Hinv. by apply invariant_ext.
  - revert Hinv. by apply invariant_ext.
  - revert Hinv. by apply invariant_ext.
  - revert Hinv. by apply invariant_ext.
  - revert Hinv. by apply invariant_ext.
  - by apply invariant_unloadAudio.
  - by apply invariant_unloadVideo.
  - unfold handleSelectCopyHistoryItem.
    destruct (subtitleFile (sources st)); try done.
    destruct (copied_subtitleFile item); try done.
    case_decide; revert Hinv; by apply invariant_ext.
  - by apply invariant_drop.
Qed.

Lemma invariant_run (st : State) (actions : list Action) :
  invariant st -> invariant (run st actions).
Proof.
  revert st. induction actions as [|a actions IH]; intros st Hinv; [done|].
  apply IH. by apply invariant_step.
Qed.

(** X24: whatever is dropped, unloaded, copied or selected, the player
    never holds an audio and a video file together, and it holds a media
    file exactly when it holds an object URL for it. *)
Theorem one_medium_at_a_time (actions : list Action) :
  let s := sources (run initial actions) in
  truthy (audioFile s) = truthy (audioFileUrl s)
  /\ truthy (videoFile s) = truthy (videoFileUrl s)
  /\ truthy (audioFile s) && truthy (videoFile s) = false.
Proof.
  destruct (invariant_run initial actions invariant_initial) as (Hone & _).
  exact Hone.
Qed.

(** X25: object URLs are neither leaked nor revoked twice: after any
    sequence of handler calls every URL the browser handed out was created
    once and is either the URL of the loaded media file or was revoked
    exactly once, and no other URL was ever revoked or is in use. *)
Theorem object_urls_accounted (actions : list Action) (u : Url) :
  created u (run initial actions)
  = (if bool_decide (u < nextUrl (run initial actions)) then 1 else 0)
  /\ revoked u (run initial actions)
     + (if inUse u (run initial actions) then 1 else 0)
     = created u (run initial actions).
Proof.
  destruct (invariant_run initial actions invariant_initial) as (_ & Hurls & _).
  apply Hurls.
Qed.

(** X26: the file name [App] keeps is always the name of the loaded
    subtitle file, and undefined while none is loaded. *)
Theorem file_name_follows_subtitle (actions : list Action) :
  match subtitleFile (sources (run initial actions)) with
  | Value f => fileName (run initial actions) = Value (name f)
  | _ => fileName (run initial actions) = Undefined
  end.
Proof.
  destruct (invariant_run initial actions invariant_initial) as (_ & _ & Hname).
  exact Hname.
Qed.

Lemma subtitle_kept_step (st : State) (a : Action) :
  truthy (subtitleFile (sources st)) = true ->
  truthy (subtitleFile (sources (step st a))) = true.
Proof.
  intros Hsub. destruct a; cbn [step]; try done.
  - unfold handleUnloadAudio. by destruct (decide _).
  - unfold handleUnloadVideo. by destruct (decide _).
  - unfold handleSelectCopyHistoryItem.
    destruct (subtitleFile (sources st)) eqn:Hs; try done.
    destruct (copied_subtitleFile item); try (by rewrite Hs).
    destruct (decide _); cbn; by rewrite Hs.
  - unfold handleDrop.
    destruct files as [| |[|f fs]]; try done.
    destruct (extractSources (f :: fs)) as [extracted|message]; [|done].
    assert (Hd : truthy (subtitleFile
                   (sources (dropUpdater extracted (emit PreventDefault st))))
                 = true).
    { unfold dropUpdater.
      destruct (videoFile extracted), (audioFile extracted);
        cbn; unfold orElse;
        by destruct (truthy (subtitleFile extracted)) eqn:He. }
    by destruct (subtitleFile extracted).
Qed.

(** X27: nothing unloads the subtitle file: once one is loaded, one stays
    loaded whatever happens next. *)
Theorem subtitle_stays_loaded (st : State) (actions : list Action) :
  truthy (subtitleFile (sources st)) = true ->
  truthy (subtitleFile (sources (run st actions))) = true.
Proof.
  revert st. induction actions as [|a actions IH]; intros st Hsub; [done|].
  apply IH. by apply subtitle_kept_step.
Qed.

(** X28: a drop that [extractSources] does not accept (a file of unknown
    extension, two subtitle files, two media files) changes nothing but the
    alert: sources, file name and copy history stay, and no object URL is
    created or revoked. *)
Theorem rejected_drop_only_alerts (files : list File) (st : State) :
  ~ (Forall (fun f => is_Some (kindOf f)) files
     /\ length (ofKind SubtitleKind files) <= 1
     /\ length (ofKind VideoKind files) + length (ofKind AudioKind files) <= 1) ->
  exists message,
    handleDrop (Value files) st = handleError message (emit PreventDefault st).
Proof.
  intros Hbad. unfold handleDrop.
  destruct files as [|f fs].
  { exfalso. apply Hbad. cbn. split; [done|lia]. }
  destruct (extractSources (f :: fs)) as [extracted|message] eqn:Hex;
    [|by eauto].
  exfalso. apply Hbad. apply extractSources_accepts_iff. by eauto.
Qed.

(** X29: deleting the entry a copy has just added gives back the copy
    history as it was, provided no earlier entry was copied in the same
    millisecond. *)
Theorem delete_undoes_copy (subtitle : SubtitleModel)
    (audioFile videoFile subtitleFile : Nullable File)
    (audioTrack : Nullable string) (now : Z) (item : CopiedSubtitle)
    (st : State) :
  Forall (fun c => timestamp c <> now) (copiedSubtitles st) ->
  timestamp item = now ->
  copiedSubtitles
    (handleDeleteCopyHistoryItem item
       (handleCopy subtitle audioFile videoFile subtitleFile audioTrack now st))
  = copiedSubtitles st.
Proof.
  intros Hfresh Hitem. cbn. rewrite filter_app, Hitem.
  rewrite filter_cons, decide_False by (cbn; tauto).
  rewrite filter_nil, app_nil_r.
  induction Hfresh as [|c l Hc Hl IH]; [done|].
  rewrite filter_cons, decide_True by congruence. by rewrite IH.
Qed.

(** ** The properties at concrete drops *)

Definition episodeSubtitles : File := mkFile "show.e01.srt" 1.
Definition episodeVideo : File := mkFile "show.e01.mkv" 2.
Definition episodeAudio : File := mkFile "show.e01.mp3" 3.

Lemma extractSources_returns_the_files_witness :
  (forall f, f ∈ [episodeSubtitles; episodeVideo]
             <-> Value episodeSubtitles = Value f \/ Null = Value f
                 \/ Value episodeVideo = Value f)
  /\ (forall f, Value episodeSubtitles = Value f
                -> kindOf f = Some SubtitleKind)
  /\ (forall f, @Null File = Value f -> kindOf f = Some AudioKind)
  /\ (forall f, Value episodeVideo = Value f -> kindOf f = Some VideoKind)
  /\ truthy (@Null File) && truthy (Value episodeVideo) = false.
Proof.
  apply (extractSources_returns_the_files [episodeSubtitles; episodeVideo]
           (mkSources (Value episodeSubtitles) Null Undefined
              (Value episodeVideo) Undefined)).
  reflexivity.
Defined.

Lemma extractSources_order_irrelevant_witness :
  extractSources [episodeSubtitles; episodeVideo]
  = Ok (mkSources (Value episodeSubtitles) Null Undefined
          (Value episodeVideo) Undefined)
  <-> extractSources [episodeVideo; episodeSubtitles]
      = Ok (mkSources (Value episodeSubtitles) Null Undefined
              (Value episodeVideo) Undefined).
Proof.
  apply (extractSources_order_irrelevant [episodeSubtitles; episodeVideo]
           [episodeVideo; episodeSubtitles]).
  apply perm_swap.
Defined.

Lemma subtitle_stays_loaded_witness :
  truthy (subtitleFile (sources
    (run (run initial [Drop (Value [episodeSubtitles; episodeVideo])])
       [Drop (Value [episodeAudio]); UnloadAudio (Value 1);
        Drop (Value [mkFile "notes.txt" 4])]))) = true.
Proof.
  apply (subtitle_stays_loaded
           (run initial [Drop (Value [episodeSubtitles; episodeVideo])])).
  reflexivity.
Defined.

Lemma rejected_drop_only_alerts_witness :
  exists message,
    handleDrop (Value [episodeVideo; episodeAudio])
      (run initial [Drop (Value [episodeSubtitles])])
    = handleError message
        (emit PreventDefault (run initial [Drop (Value [episodeSubtitles])])).
Proof.
  apply (rejected_drop_only_alerts [episodeVideo; episodeAudio]).
  intros (_ & _ & Hmedia). vm_compute in Hmedia. lia.
Defined.

Lemma delete_undoes_copy_witness :
  copiedSubtitles
    (handleDeleteCopyHistoryItem
       (mkCopiedSubtitle (mkSubtitleModel "b" 1000 2000) 1700000000500
          Undefined Null Null Null Undefined)
       (handleCopy (mkSubtitleModel "b" 1000 2000) Null (Value episodeVideo)
          (Value episodeSubtitles) Undefined 1700000000500
          (handleCopy (mkSubtitleModel "a" 0 1000) Null (Value episodeVideo)
             (Value episodeSubtitles) Undefined 1700000000000 initial)))
  = copiedSubtitles
      (handleCopy (mkSubtitleModel "a" 0 1000) Null (Value episodeVideo)
         (Value episodeSubtitles) Undefined 1700000000000 initial).
Proof.
  apply delete_undoes_copy; [|reflexivity].
  repeat constructor. cbn. lia.
Defined.

End App.
